(** * Key-lime-pie store: the ETL of [etl_to_dw.py], embedded and verified

    The development follows [src/analytics_project/etl_to_dw.py]:

    - text helpers ([str.strip], [str.lower], the regular expressions
      [[Cc](\d+)] and [[Pp](\d+)] as [Series.str.extract] applies them);
    - data frames as pandas has them: a list of column labels and rows that
      carry their index label;
    - the three normalisers [norm_customers], [norm_products], [norm_sales];
    - the calendar and [generate_date_dimension];
    - the SQLite store as a finite map from table names to tables, the
      loaders and [load_data_to_db], in a state-and-exception monad;
    - the header and row cleaners of [src/analytics_project/data_scrubber.py]. *)

From Stdlib Require Import ZArith Ascii String List Lia DecimalString.
From stdpp Require Import base option list gmap strings.

Local Open Scope string_scope.
Local Open Scope Z_scope.

(** ** Text *)

Module Text.

Definition code (a : ascii) : nat := nat_of_ascii a.

(** [\d] on ASCII text. *)
Definition is_digit (a : ascii) : bool :=
  ((48 <=? code a) && (code a <=? 57))%nat.

(** Text of ASCII characters only.  The classes below are those of Python
    on such text; the digits and blanks that Unicode has beyond it are not
    modelled, and a statement that depends on them asks for ASCII text. *)
Fixpoint is_ascii (s : string) : bool :=
  match s with
  | EmptyString => true
  | String a t => (code a <? 128)%nat && is_ascii t
  end.

(** Python's [str.isspace] on ASCII text: TAB..CR, FS..US and the blank. *)
Definition is_space (a : ascii) : bool :=
  (((9 <=? code a) && (code a <=? 13)) || ((28 <=? code a) && (code a <=? 32)))%nat.

Definition is_upper (a : ascii) : bool :=
  ((65 <=? code a) && (code a <=? 90))%nat.

Definition lower_char (a : ascii) : ascii :=
  if is_upper a then ascii_of_nat (code a + 32) else a.

(** [str.lower] *)
Fixpoint lower (s : string) : string :=
  match s with
  | EmptyString => EmptyString
  | String a t => String (lower_char a) (lower t)
  end.

Fixpoint lstrip (s : string) : string :=
  match s with
  | EmptyString => EmptyString
  | String a t => if is_space a then lstrip t else s
  end.

Fixpoint rstrip (s : string) : string :=
  match s with
  | EmptyString => EmptyString
  | String a t =>
      match rstrip t with
      | EmptyString => if is_space a then EmptyString else String a EmptyString
      | t' => String a t'
      end
  end.

(** [str.strip] *)
Definition strip (s : string) : string := rstrip (lstrip s).

(** The longest run of digits at the head of [s]: what a greedy [\d+]
    consumes there. *)
Fixpoint take_digits (s : string) : string :=
  match s with
  | EmptyString => EmptyString
  | String a t => if is_digit a then String a (take_digits t) else EmptyString
  end.

Fixpoint all_digits (s : string) : bool :=
  match s with
  | EmptyString => true
  | String a t => is_digit a && all_digits t
  end.

(** [re.search] of [<class>(\d+)] in [s], group 1: the scan tries the
    positions from the left, and at the first one where a character of the
    class is followed by a digit the group takes every digit that follows.
    [None] when there is no such position. *)
Fixpoint regex_extract (cls : ascii → bool) (s : string) : option string :=
  match s with
  | EmptyString => None
  | String a t =>
      if cls a then
        match take_digits t with
        | EmptyString => regex_extract cls t
        | ds => Some ds
        end
      else regex_extract cls t
  end.

(** The anchored pattern [^<class>\d+$] of the specification. *)
Definition full_match (cls : ascii → bool) (s : string) : bool :=
  match s with
  | String a (String b t) => cls a && is_digit b && all_digits t
  | _ => false
  end.

(** Group 1 of the anchored pattern: the text after the first character. *)
Definition digits_of (s : string) : string :=
  match s with
  | String _ t => t
  | EmptyString => EmptyString
  end.

(** [s] holds a character of the class directly followed by a digit. *)
Fixpoint has_code (cls : ascii → bool) (s : string) : bool :=
  match s with
  | EmptyString => false
  | String a t =>
      (cls a && match t with String b _ => is_digit b | EmptyString => false end)
      || has_code cls t
  end.

Definition digit_val (a : ascii) : Z := Z.of_nat (code a - 48).

Fixpoint int_of_digits_from (acc : Z) (s : string) : Z :=
  match s with
  | EmptyString => acc
  | String a t => int_of_digits_from (10 * acc + digit_val a) t
  end.

(** [int(s)] for a string of decimal digits. *)
Definition int_of_digits (s : string) : Z := int_of_digits_from 0 s.

Definition digit_char (k : Z) : ascii := ascii_of_nat (48 + Z.to_nat k).

(** [k] written with exactly two, respectively four, decimal digits, as
    [strftime] pads [%m], [%d] and [%Y]. *)
Definition pad2 (k : Z) : string :=
  String (digit_char (k / 10 mod 10)) (String (digit_char (k mod 10)) EmptyString).

Definition pad4 (k : Z) : string :=
  String (digit_char (k / 1000 mod 10)) (String (digit_char (k / 100 mod 10)) (pad2 k)).

(** [[Cc]] and [[Pp]] *)
Definition class_C (a : ascii) : bool := Ascii.eqb a "C" || Ascii.eqb a "c".
Definition class_P (a : ascii) : bool := Ascii.eqb a "P" || Ascii.eqb a "p".

End Text.

(** ** Values, errors and data frames *)

(** pandas keeps the measures as IEEE doubles and reads numbers out of text
    with its own parser.  The pipeline never computes with a double: it only
    prints one ([astype(str)]), asks whether it is an integer
    ([astype("Int64")]) and stores it.  These operations, and the parser of
    [pd.to_numeric], are the interface below; every statement holds for all
    its instances. *)
Class Float64 := {
  flt : Type;
  flt_eq_dec :: EqDecision flt;
  flt_countable :: Countable flt;
  (** [str(x)] *)
  float_str : flt → string;
  (** the integer [x] is equal to, when it is one *)
  float_as_int : flt → option Z;
  (** the number [pd.to_numeric] reads in a string, [None] where it reads
      none and [errors="coerce"] leaves a missing value *)
  str_to_numeric : string → option (Z + flt);
}.

(** A cell of a frame; [NA] stands for [NaN], [None] and [pd.NA], and
    [FloatCell] holds the doubles that are numbers. *)
Inductive cell `{Float64} : Type :=
| NA
| IntCell (z : Z)
| FloatCell (x : flt)
| StrCell (s : string).

#[export] Instance cell_eq_dec `{Float64} : EqDecision cell.
Proof. solve_decision. Defined.

Definition cell_to_sum `{Float64} (c : cell) : unit + Z + flt + string :=
  match c with
  | NA => inl (inl (inl ()))
  | IntCell z => inl (inl (inr z))
  | FloatCell x => inl (inr x)
  | StrCell s => inr s
  end.

Definition cell_of_sum `{Float64} (c : unit + Z + flt + string) : cell :=
  match c with
  | inl (inl (inl _)) => NA
  | inl (inl (inr z)) => IntCell z
  | inl (inr x) => FloatCell x
  | inr s => StrCell s
  end.

#[export] Program Instance cell_countable `{Float64} : Countable cell :=
  inj_countable' cell_to_sum cell_of_sum _.
Next Obligation. by intros ? []. Qed.

Inductive error : Type :=
| KeyError (labels : list string)
| AttributeError (label : string)
| TypeError (label : string)
| OverflowError
| FileNotFoundError (name : string)
| OperationalError (table : string)
| IntegrityError (table : string)
| ValueError (text : string).

#[export] Instance error_eq_dec : EqDecision error.
Proof. solve_decision. Defined.

(** A computation that returns or raises. *)
Inductive result (A : Type) : Type :=
| Ok (a : A)
| Raise (e : error).
Arguments Ok {A} a.
Arguments Raise {A} e.

#[export] Instance result_ret : MRet result := @Ok.
#[export] Instance result_bind : MBind result := λ A B f m,
  match m with
  | Ok a => f a
  | Raise e => Raise e
  end.

Definition is_ok {A} (r : result A) : bool :=
  match r with Ok _ => true | Raise _ => false end.

(** A frame: the column labels, and the rows in order, each with its index
    label. *)
Record DataFrame `{Float64} : Type := mkDF {
  columns : list string;
  rows : list (Z * list cell);
}.
Arguments mkDF {_} _ _.

Section Pandas.
Context `{F : Float64}.

Definition isna (c : cell) : bool :=
  match c with NA => true | _ => false end.

(** [astype(str)] on one cell. *)
Definition astype_str (c : cell) : string :=
  match c with
  | NA => "nan"
  | IntCell z => NilZero.string_of_int (Z.to_int z)
  | FloatCell x => float_str x
  | StrCell s => s
  end.

Definition int64_max : Z := 2 ^ 63 - 1.
Definition int64_min : Z := - 2 ^ 63.

(** [.str.strip().str.extract(<class>(\d+), expand=False).astype("Int64")]
    on the text of one cell: no match leaves a missing value, a match is
    read as an integer, and one that does not fit 64 bits makes the cast
    raise. *)
Definition extract_key (cls : ascii → bool) (s : string) : result cell :=
  match Text.regex_extract cls (Text.strip s) with
  | None => Ok NA
  | Some ds =>
      let z := Text.int_of_digits ds in
      if decide (z ≤ int64_max) then Ok (IntCell z) else Raise OverflowError
  end.

(** [pd.to_numeric(..., errors="coerce")] on one cell. *)
Definition to_numeric (c : cell) : cell :=
  match c with
  | StrCell s =>
      match str_to_numeric s with
      | Some (inl z) => IntCell z
      | Some (inr x) => FloatCell x
      | None => NA
      end
  | _ => c
  end.

(** [astype("Int64")] on one numeric cell of a column that pandas holds as
    [int64] or as doubles: a double that is no integer makes the cast raise.
    The integers and doubles here are those of 64 bits, signed: a column
    with an integer beyond is read as [uint64], whose cast raises too, and a
    statement that depends on it asks for [in_int64] cells. *)
Definition astype_Int64 (label : string) (c : cell) : result cell :=
  match c with
  | NA => Ok NA
  | IntCell z => Ok (IntCell z)
  | FloatCell x =>
      match float_as_int x with
      | Some z => Ok (IntCell z)
      | None => Raise (TypeError label)
      end
  | StrCell _ => Raise (TypeError label)
  end.

(** The numbers of a column that [astype("Int64")] casts as above: an
    integer, or a double equal to one, lies within 64 bits, signed. *)
Definition in_int64 (c : cell) : bool :=
  match c with
  | IntCell z => bool_decide (int64_min ≤ z ≤ int64_max)
  | FloatCell x =>
      match float_as_int x with
      | Some z => bool_decide (int64_min ≤ z ≤ int64_max)
      | None => true
      end
  | _ => true
  end.

(** Positions of the columns labelled [l]. *)
Fixpoint positions_from (i : nat) (l : string) (cols : list string) : list nat :=
  match cols with
  | [] => []
  | c :: cs =>
      if decide (c = l) then i :: positions_from (S i) l cs
      else positions_from (S i) l cs
  end.

Definition positions (l : string) (cols : list string) : list nat :=
  positions_from 0 l cols.

Definition cell_at (p : nat) (r : list cell) : cell := default NA (r !! p).

(** [df.columns = df.columns.str.strip().str.lower()] *)
Definition normalize_headers (df : DataFrame) : DataFrame :=
  {| columns := (λ h, Text.lower (Text.strip h)) <$> columns df; rows := rows df |}.

(** [mapping.get(h, h)] *)
Fixpoint rename_label (mapping : list (string * string)) (h : string) : string :=
  match mapping with
  | [] => h
  | (k, v) :: m => if decide (k = h) then v else rename_label m h
  end.

(** [df.rename(columns=mapping)] *)
Definition rename (mapping : list (string * string)) (df : DataFrame) : DataFrame :=
  {| columns := rename_label mapping <$> columns df; rows := rows df |}.

(** [df[labels]]: every column that bears one of the labels, in the order
    of [labels]; [KeyError] names the labels that no column bears. *)
Definition getitem_list (labels : list string) (df : DataFrame) : result DataFrame :=
  let missing := filter (λ l, l ∉ columns df) labels in
  if decide (missing = []) then
    let ps := labels ≫= (λ l, positions l (columns df)) in
    Ok {| columns := (λ p, default "" (columns df !! p)) <$> ps;
          rows := (λ r, (r.1, (λ p, cell_at p r.2) <$> ps)) <$> rows df |}
  else Raise (KeyError missing).

(** [df[l]] where the code needs a series: the position of the one column
    labelled [l].  With several such columns pandas hands back a frame, on
    which the next step ([.str], [pd.to_numeric]) raises [e]. *)
Definition series (e : error) (l : string) (df : DataFrame) : result nat :=
  match positions l (columns df) with
  | [] => Raise (KeyError [l])
  | [p] => Ok p
  | _ => Raise e
  end.

(** [df[l] = f(df[l])], cell by cell; the first cell on which [f] raises
    aborts the statement. *)
Definition update_column (p : nat) (f : cell → result cell) (df : DataFrame)
  : result DataFrame :=
  rs ← mapM (λ r : Z * list cell,
               c ← f (cell_at p r.2); Ok (r.1, <[p := c]> r.2)) (rows df);
  Ok {| columns := columns df; rows := rs |}.

(** [df.dropna(subset=labels)]: a row goes when one of the columns named
    holds a missing value. *)
Definition dropna (labels : list string) (df : DataFrame) : result DataFrame :=
  let missing := filter (λ l, l ∉ columns df) labels in
  if decide (missing = []) then
    let ps := labels ≫= (λ l, positions l (columns df)) in
    Ok {| columns := columns df;
          rows := filter (λ r, Forall (λ p, isna (cell_at p r.2) = false) ps) (rows df) |}
  else Raise (KeyError missing).

(** [df[l] = v], where [v] is given by index label: the columns labelled
    [l] are overwritten, and a new column is added when there is none. *)
Definition setitem (l : string) (v : Z → cell) (df : DataFrame) : DataFrame :=
  match positions l (columns df) with
  | [] => {| columns := (columns df ++ [l])%list;
             rows := (λ r, (r.1, (r.2 ++ [v r.1])%list)) <$> rows df |}
  | ps => {| columns := columns df;
             rows := (λ r, (r.1, foldr (λ p acc, <[p := v r.1]> acc) r.2 ps)) <$> rows df |}
  end.

(** Keep the first row of every key, scanning in row order. *)
Fixpoint keep_first {A K} `{EqDecision K} (key : A → K) (seen : list K) (l : list A)
  : list A :=
  match l with
  | [] => []
  | x :: t =>
      if decide (key x ∈ seen) then keep_first key seen t
      else x :: keep_first key (key x :: seen) t
  end.

(** [df.drop_duplicates(subset=[key], keep="first")] *)
Definition drop_duplicates (key : string) (df : DataFrame) : result DataFrame :=
  match positions key (columns df) with
  | [] => Raise (KeyError [key])
  | ps =>
      Ok {| columns := columns df;
            rows := keep_first (λ r : Z * list cell, (λ p, cell_at p r.2) <$> ps) [] (rows df) |}
  end.

(** [df.reset_index(drop=True)] *)
Definition reset_index (df : DataFrame) : DataFrame :=
  {| columns := columns df;
     rows := zip (seqZ 0 (Z.of_nat (length (rows df)))) (snd <$> rows df) |}.

(** [pd.read_csv]: the parsed header and records, under a fresh
    [RangeIndex]. *)
Record csv : Type := mkCsv {
  header : list string;
  records : list (list cell);
}.

Definition read_csv (f : csv) : DataFrame :=
  {| columns := header f;
     rows := zip (seqZ 0 (Z.of_nat (length (records f)))) (records f) |}.

(** ** The normalisers *)

(** [drop_dupes] *)
Definition drop_dupes (df : DataFrame) (key : string) : result DataFrame :=
  drop_duplicates key df.

Definition customer_columns : list string :=
  ["customer_segmentid"; "customer_segment"].

Definition customer_renames : list (string * string) :=
  [("customersegmentid", "customer_segmentid"); ("customersegment", "customer_segment")].

(** [norm_customers] *)
Definition norm_customers (df : DataFrame) : result DataFrame :=
  let df := normalize_headers df in
  let df := rename customer_renames df in
  df ← getitem_list customer_columns df;
  p ← series (AttributeError "str") "customer_segmentid" df;
  df ← update_column p (λ c, extract_key Text.class_C (astype_str c)) df;
  df ← dropna ["customer_segmentid"] df;
  drop_dupes df "customer_segmentid".

Definition product_columns : list string :=
  ["product_id"; "product_variant"].

Definition product_renames : list (string * string) :=
  [("productid", "product_id"); ("productvariant", "product_variant")].

(** [norm_products]; the headers are taken as they come. *)
Definition norm_products (df : DataFrame) : result DataFrame :=
  let df := rename product_renames df in
  df ← getitem_list product_columns df;
  p ← series (AttributeError "str") "product_id" df;
  df ← update_column p (λ c, extract_key Text.class_P (astype_str c)) df;
  df ← dropna ["product_id"] df;
  drop_dupes df "product_id".

Definition sales_renames : list (string * string) :=
  [("transactionid", "sales_id");
   ("customersegmentid", "customer_segmentid");
   ("productid", "product_id");
   ("date", "sale_date");
   ("unitssold", "units_sold");
   ("revenue", "sale_amount");
   ("profitmargin", "profit_margin")].

Definition required : list string :=
  ["sales_id"; "customer_segmentid"; "product_id"; "units_sold";
   "sale_date"; "sale_amount"; "profit_margin"].

(** [df[l].isna().any() or df[l].duplicated().any()] on the cells of a
    column. *)
Definition na_or_duplicated (ids : list cell) : bool :=
  existsb isna ids || negb (bool_decide (NoDup ids)).

(** [norm_sales] *)
Definition norm_sales (df : DataFrame) : result DataFrame :=
  let df := normalize_headers df in
  let df := rename sales_renames df in
  let missing := filter (λ c, c ∉ columns df) required in
  if decide (missing = []) then
    df ← getitem_list required df;
    p ← series (AttributeError "str") "customer_segmentid" df;
    df ← update_column p (λ c, extract_key Text.class_C (astype_str c)) df;
    p ← series (AttributeError "str") "product_id" df;
    df ← update_column p (λ c, extract_key Text.class_P (astype_str c)) df;
    sid ← series (TypeError "sales_id") "sales_id" df;
    df ← update_column sid (λ c, astype_Int64 "sales_id" (to_numeric c)) df;
    p ← series (TypeError "units_sold") "units_sold" df;
    df ← update_column p (λ c, Ok (to_numeric c)) df;
    p ← series (TypeError "sale_amount") "sale_amount" df;
    df ← update_column p (λ c, Ok (to_numeric c)) df;
    p ← series (TypeError "profit_margin") "profit_margin" df;
    df ← update_column p (λ c, Ok (to_numeric c)) df;
    df ← dropna ["customer_segmentid"; "product_id"; "sale_amount"] df;
    let df :=
      if na_or_duplicated ((λ r, cell_at sid r.2) <$> rows df)
      then reset_index df else df in
    Ok (setitem "sales_id" (λ i, IntCell (i + 1)) df)
  else Raise (KeyError missing).

End Pandas.

(** ** The calendar *)

Module Calendar.

Record date : Type := mkDate { year : Z; month : Z; day : Z }.

#[export] Instance date_eq_dec : EqDecision date.
Proof. solve_decision. Defined.

Definition is_leap (y : Z) : bool :=
  (y mod 4 =? 0) && (negb (y mod 100 =? 0) || (y mod 400 =? 0)).

Definition days_in_month (y m : Z) : Z :=
  if m =? 2 then (if is_leap y then 29 else 28)
  else if (m =? 4) || (m =? 6) || (m =? 9) || (m =? 11) then 30
  else 31.

Definition year_length (y : Z) : Z := if is_leap y then 366 else 365.

(** Days of the months of year [y] that come before month [m]. *)
Definition days_before_month (y m : Z) : Z :=
  nth (Z.to_nat m) [0; 0; 31; 59; 90; 120; 151; 181; 212; 243; 273; 304; 334] 0
  + (if (2 <? m) && is_leap y then 1 else 0).

(** Days before the first of January of year [y]. *)
Definition days_before_year (y : Z) : Z :=
  let p := y - 1 in p * 365 + p / 4 - p / 100 + p / 400.

(** The proleptic Gregorian ordinal: 0001-01-01 is day 1. *)
Definition ordinal (d : date) : Z :=
  days_before_year (year d) + days_before_month (year d) (month d) + day d.

(** What [datetime(y, m, d)] accepts. *)
Definition valid (d : date) : bool :=
  (1 <=? year d) && (year d <=? 9999) &&
  (1 <=? month d) && (month d <=? 12) &&
  (1 <=? day d) && (day d <=? days_in_month (year d) (month d)).

Definition next_day (d : date) : date :=
  if day d <? days_in_month (year d) (month d)
  then mkDate (year d) (month d) (day d + 1)
  else if month d <? 12 then mkDate (year d) (month d + 1) 1
  else mkDate (year d + 1) 1 1.

Fixpoint days_from (n : nat) (d : date) : list date :=
  match n with
  | O => []
  | S n' => d :: days_from n' (next_day d)
  end.

(** The first Monday of ISO week 1 of year [y], as an ordinal. *)
Definition isoweek1monday (y : Z) : Z :=
  let firstday := ordinal (mkDate y 1 1) in
  let firstweekday := (firstday + 6) mod 7 in
  let week1monday := firstday - firstweekday in
  if 3 <? firstweekday then week1monday + 7 else week1monday.

(** The ISO-8601 week number. *)
Definition iso_week (d : date) : Z :=
  let today := ordinal d in
  let week := (today - isoweek1monday (year d)) / 7 in
  if week <? 0 then (today - isoweek1monday (year d - 1)) / 7 + 1
  else if (52 <=? week) && (isoweek1monday (year d + 1) <=? today) then 1
  else week + 1.

Definition month_name (m : Z) : string :=
  nth (Z.to_nat (m - 1))
    ["January"; "February"; "March"; "April"; "May"; "June"; "July";
     "August"; "September"; "October"; "November"; "December"] "".

(** [strftime("%Y%m%d")] and [strftime("%m/%d/%Y")].  The year is written
    with four digits; whether a year below 1000 gets its leading zeros
    depends on the C library, which changes [full_date] there and nothing
    else here: [int] reads both texts as the same number. *)
Definition compact (d : date) : string :=
  Text.pad4 (year d) +:+ Text.pad2 (month d) +:+ Text.pad2 (day d).

Definition slashed (d : date) : string :=
  Text.pad2 (month d) +:+ "/" +:+ Text.pad2 (day d) +:+ "/" +:+ Text.pad4 (year d).

(** *** [datetime.strptime(s, "%Y-%m-%d")]

    The format compiles to the regular expression
    [(\d\d\d\d)-(1[0-2]|0[1-9]|[1-9])-(3[01]|[12]\d|0[1-9]|[1-9]| [1-9])],
    matched at the start of the text.  A directive yields its readings in
    the order of its alternatives; the first complete reading is the match,
    and text left over after it is an error. *)

Definition in_range (lo hi : ascii) (a : ascii) : bool :=
  ((Text.code lo <=? Text.code a) && (Text.code a <=? Text.code hi))%nat.

Definition two (a b : ascii) : Z := 10 * Text.digit_val a + Text.digit_val b.

Definition read_year (s : string) : list (Z * string) :=
  match s with
  | String a (String b (String c (String d t))) =>
      if Text.is_digit a && Text.is_digit b && Text.is_digit c && Text.is_digit d
      then [(100 * two a b + two c d, t)] else []
  | _ => []
  end.

Definition read_dash (s : string) : list string :=
  match s with
  | String "-" t => [t]
  | _ => []
  end.

Definition read_month (s : string) : list (Z * string) :=
  (match s with
   | String "1" (String b t) => if in_range "0" "2" b then [(two "1" b, t)] else []
   | _ => []
   end ++
   match s with
   | String "0" (String b t) => if in_range "1" "9" b then [(two "0" b, t)] else []
   | _ => []
   end ++
   match s with
   | String a t => if in_range "1" "9" a then [(Text.digit_val a, t)] else []
   | _ => []
   end)%list.

Definition read_day (s : string) : list (Z * string) :=
  (match s with
   | String "3" (String b t) => if in_range "0" "1" b then [(two "3" b, t)] else []
   | _ => []
   end ++
   match s with
   | String a (String b t) =>
       if in_range "1" "2" a && Text.is_digit b then [(two a b, t)] else []
   | _ => []
   end ++
   match s with
   | String "0" (String b t) => if in_range "1" "9" b then [(two "0" b, t)] else []
   | _ => []
   end ++
   match s with
   | String a t => if in_range "1" "9" a then [(Text.digit_val a, t)] else []
   | _ => []
   end ++
   match s with
   | String " " (String b t) => if in_range "1" "9" b then [(Text.digit_val b, t)] else []
   | _ => []
   end)%list.

Definition readings (s : string) : list (date * string) :=
  '(y, s) ← read_year s;
  s ← read_dash s;
  '(m, s) ← read_month s;
  s ← read_dash s;
  '(d, s) ← read_day s;
  [(mkDate y m d, s)].

Definition strptime (s : string) : result date :=
  match readings s with
  | [] => Raise (ValueError "time data does not match format")
  | (d, EmptyString) :: _ =>
      if valid d then Ok d else Raise (ValueError "out of range")
  | (_, String _ _) :: _ => Raise (ValueError "unconverted data remains")
  end.

(** *** [pd.date_range(start, end, freq="D")]

    The range has the resolution of its bounds, and that of a [datetime]
    reaches every date [datetime] accepts: the call returns for every pair
    of dates.  (pandas before version 3 counted nanoseconds in 64 bits and
    raised outside 1677-09-22..2262-04-11.)  An [end] before [start] gives
    the empty range. *)
Definition key (d : date) : Z := year d * 10000 + month d * 100 + day d.

Definition date_range (start stop : date) : list date :=
  days_from (Z.to_nat (ordinal stop - ordinal start + 1)) start.

(** The days a timestamp of nanosecond resolution reaches at midnight. *)
Definition in_bounds (d : date) : bool :=
  (16770922 <=? key d) && (key d <=? 22620411).

End Calendar.

(** ** The date dimension *)

Section DateDimension.
Context `{F : Float64}.

Definition date_columns : list string :=
  ["date_id"; "full_date"; "year"; "month"; "month_name"; "day"; "week"].

(** One row of the date dimension.  The frame is indexed by the dates
    themselves (the index of the [week] series); the label here is the
    ordinal of the date. *)
Definition date_row (d : Calendar.date) : Z * list cell :=
  (Calendar.ordinal d,
   [IntCell (Text.int_of_digits (Calendar.compact d));
    StrCell (Calendar.slashed d);
    IntCell (Calendar.year d);
    IntCell (Calendar.month d);
    StrCell (Calendar.month_name (Calendar.month d));
    IntCell (Calendar.day d);
    IntCell (Calendar.iso_week d)]).

(** [generate_date_dimension] *)
Definition generate_date_dimension (start_date end_date : string) : result DataFrame :=
  start ← Calendar.strptime start_date;
  stop ← Calendar.strptime end_date;
  Ok {| columns := date_columns; rows := date_row <$> Calendar.date_range start stop |}.

End DateDimension.

(** ** The SQLite store *)

(** A table: its columns, the [INTEGER PRIMARY KEY] column if it has one,
    the [NOT NULL] columns, the foreign keys (column, parent table, parent
    column), and its rows by [rowid], each row in the order of the columns.
    Cells are stored as they are handed over: conversions by column
    affinity are not modelled. *)
Record table `{Float64} : Type := mkTable {
  tcolumns : list string;
  primary_key : option string;
  not_null : list string;
  foreign_keys : list (string * string * string);
  trows : gmap Z (list cell);
}.
Arguments mkTable {_} _ _ _ _ _.

Inductive level : Type := INFO | WARNING.

#[export] Instance level_eq_dec : EqDecision level.
Proof. solve_decision. Defined.

(** What a connection sees ([db]); while a transaction is open,
    [snapshot] holds the database as it was last committed.  The store holds
    the tables of this pipeline: references from other tables into them are
    not modelled. *)
Record state `{Float64} : Type := mkState {
  db : gmap string table;
  snapshot : option (gmap string table);
  pragma_foreign_keys : bool;
}.
Arguments mkState {_} _ _ _.

Section Store.
Context `{F : Float64}.

(** Computations on a connection: they return or raise, change the state
    either way, and write log records. *)
Definition M (A : Type) : Type := state → result A * state * list (level * string).

Definition ret {A} (a : A) : M A := λ st, (Ok a, st, []).

Definition bind {A B} (m : M A) (k : A → M B) : M B := λ st,
  match m st with
  | (Ok a, st', l) =>
      match k a st' with
      | (r, st'', l') => (r, st'', (l ++ l')%list)
      end
  | (Raise e, st', l) => (Raise e, st', l)
  end.

Definition raise {A} (e : error) : M A := λ st, (Raise e, st, []).

Definition lift {A} (r : result A) : M A := λ st, (r, st, []).

Definition get_db : M (gmap string table) := λ st, (Ok (db st), st, []).

Definition put_db (d : gmap string table) : M unit := λ st,
  (Ok (), mkState d (snapshot st) (pragma_foreign_keys st), []).

End Store.

Notation "x <- m ;; k" := (bind m (λ x, k))
  (at level 100, m at next level, right associativity).
Notation "m ;; k" := (bind m (λ _, k))
  (at level 100, right associativity).

Section Loaders.
Context `{F : Float64}.

Definition show (n : nat) : string := NilZero.string_of_int (Z.to_int (Z.of_nat n)).

Definition logging (l : level) (msg : string) : M unit := λ st,
  (Ok (), st, [(l, msg)]).

(** [PRAGMA foreign_keys = ON] *)
Definition pragma_on : M unit := λ st,
  (Ok (), mkState (db st) (snapshot st) true, []).

(** The implicit [BEGIN] in front of a data-changing statement. *)
Definition begin : M unit := λ st,
  (Ok (), mkState (db st) (Some (default (db st) (snapshot st)))
            (pragma_foreign_keys st), []).

Definition commit : M unit := λ st,
  (Ok (), mkState (db st) None (pragma_foreign_keys st), []).

Definition rollback : M unit := λ st,
  (Ok (), mkState (default (db st) (snapshot st)) None (pragma_foreign_keys st), []).

(** The database once the connection is gone: what was committed. *)
Definition durable (st : state) : gmap string table :=
  default (db st) (snapshot st).

(** [DROP TABLE IF EXISTS name].  Foreign keys are not enforced on the
    rows the table loses: where a table that stays refers to the one dropped,
    SQLite with enforcement on may refuse the statement or change that table
    (see [unreferenced]). *)
Definition drop_table (name : string) : M unit :=
  d <- get_db ;; put_db (delete name d).

(** [CREATE TABLE IF NOT EXISTS name (...)] *)
Definition create_table (name : string) (t : table) : M unit :=
  d <- get_db ;;
  match d !! name with
  | Some _ => ret ()
  | None => put_db (<[name := t]> d)
  end.

Definition dim_date_table : table :=
  mkTable date_columns (Some "date_id")
    ["full_date"; "year"; "month"; "month_name"; "day"; "week"] [] ∅.

Definition customer_table : table :=
  mkTable customer_columns (Some "customer_segmentid") [] [] ∅.

Definition product_table : table :=
  mkTable product_columns (Some "product_id") [] [] ∅.

Definition sales_table : table :=
  mkTable ["sales_id"; "customer_segmentid"; "product_id"; "units_sold";
           "sale_amount"; "sale_date"; "profit_margin"]
    (Some "sales_id")
    ["customer_segmentid"; "product_id"; "sale_amount"]
    [("customer_segmentid", "customer", "customer_segmentid");
     ("product_id", "product", "product_id")] ∅.

(** [create_schema] *)
Definition create_schema : M unit :=
  drop_table "sales" ;;
  drop_table "product" ;;
  drop_table "customer" ;;
  drop_table "dim_date" ;;
  create_table "dim_date" dim_date_table ;;
  create_table "customer" customer_table ;;
  create_table "product" product_table ;;
  create_table "sales" sales_table.

(** [DELETE FROM name], foreign keys not enforced: with enforcement on,
    SQLite refuses the statement when a parent table of [name] is not there
    or a row of another table refers to a row of [name]. *)
Definition delete_from (name : string) : M unit :=
  d <- get_db ;;
  match d !! name with
  | None => raise (OperationalError name)
  | Some t =>
      begin ;;
      put_db (<[name := mkTable (tcolumns t) (primary_key t) (not_null t)
                           (foreign_keys t) ∅]> d)
  end.

Fixpoint for_each {A} (l : list A) (body : A → M unit) : M unit :=
  match l with
  | [] => ret ()
  | x :: t => body x ;; for_each t body
  end.

(** [delete_existing_records] *)
Definition delete_existing_records : M unit :=
  for_each ["sales"; "product"; "customer"; "dim_date"] (λ table,
    logging INFO ("Deleting all rows from " +:+ table) ;;
    delete_from table).

(** The cell a frame row holds under label [c]: the first column so
    labelled, and [NULL] when there is none. *)
Definition value_of (cols : list string) (r : list cell) (c : string) : cell :=
  match positions c cols with
  | p :: _ => cell_at p r
  | [] => NA
  end.

Definition column_values (t : table) (c : string) : list cell :=
  (λ kv : Z * list cell, value_of (tcolumns t) kv.2 c) <$> map_to_list (trows t).

(** The [rowid] SQLite picks for a row that brings none. *)
Definition next_rowid (m : gmap Z (list cell)) : Z :=
  match elements (dom m) with
  | [] => 1
  | k :: ks => 1 + foldr Z.max k ks
  end.

(** A foreign key holds for a row when its cell is [NULL] or is a value of
    the parent column. *)
Definition foreign_key_ok (d : gmap string table) (vals : string → cell)
    (fk : string * string * string) : bool :=
  match vals fk.1.1 with
  | NA => true
  | v =>
      match d !! fk.1.2 with
      | Some parent => bool_decide (v ∈ column_values parent fk.2)
      | None => false
      end
  end.

(** A cell that [sqlite3] can bind to a statement: an integer goes in as
    one of 64 bits, signed, and one beyond that makes the binding raise
    [OverflowError]. *)
Definition bindable (c : cell) : bool :=
  match c with
  | IntCell z => bool_decide (int64_min ≤ z ≤ int64_max)
  | _ => true
  end.

(** One [INSERT INTO name (cols) VALUES (r)]: the cells of the row are
    bound first, then the statement runs.  The key of an [INTEGER PRIMARY
    KEY] column is taken when it is an integer; SQLite also takes a double
    or a text that stands for one, which the pipeline never hands over. *)
Definition insert_row (fk_on : bool) (d : gmap string table) (name : string)
    (cols : list string) (t : table) (r : list cell) : result table :=
  let vals := value_of cols r in
  if negb (forallb bindable r) then Raise OverflowError
  else if existsb (λ c, isna (vals c)) (not_null t) then Raise (IntegrityError name)
  else if fk_on && negb (forallb (foreign_key_ok d vals) (foreign_keys t))
  then Raise (IntegrityError name)
  else
    let store (k : Z) (row : list cell) :=
      Ok (mkTable (tcolumns t) (primary_key t) (not_null t) (foreign_keys t)
            (<[k := row]> (trows t))) in
    match primary_key t with
    | None => store (next_rowid (trows t)) (vals <$> tcolumns t)
    | Some pk =>
        let keyed (k : Z) :=
          store k ((λ c, if decide (c = pk) then IntCell k else vals c) <$> tcolumns t) in
        match vals pk with
        | NA => keyed (next_rowid (trows t))
        | IntCell k =>
            match trows t !! k with
            | Some _ => Raise (IntegrityError name)
            | None => keyed k
            end
        | _ => Raise (IntegrityError name)
        end
    end.

Fixpoint insert_rows (fk_on : bool) (d : gmap string table) (name : string)
    (cols : list string) (t : table) (rs : list (list cell)) : result table :=
  match rs with
  | [] => Ok t
  | r :: rs' =>
      t' ← insert_row fk_on d name cols t r;
      insert_rows fk_on d name cols t' rs'
  end.

(** [df.to_sql(name, connection, if_exists="append", index=False)]: a
    table that is not there is created from the frame, without constraints;
    an empty frame inserts nothing and leaves the transaction as it is;
    otherwise the rows go in one by one inside a transaction that is
    committed at the end, and rolled back when a row is refused.  The error
    is the one [sqlite3] raises; pandas from version 3 hands an error of the
    database on inside its own [DatabaseError], and no statement below
    depends on which of the two it is. *)
Definition to_sql (name : string) (df : DataFrame) : M unit :=
  create_table name (mkTable (columns df) None [] [] ∅) ;;
  match rows df with
  | [] => ret ()
  | _ =>
      begin ;;
      d <- get_db ;;
      match d !! name with
      | None => raise (OperationalError name)
      | Some t =>
          if decide (Forall (λ c, c ∈ tcolumns t) (columns df)) then
            λ st,
              match insert_rows (pragma_foreign_keys st) d name (columns df) t
                      (snd <$> rows df) with
              | Ok t' => (put_db (<[name := t']> d) ;; commit) st
              | Raise e => (rollback ;; raise e) st
              end
          else rollback ;; raise (OperationalError name)
      end
  end.

(** [cursor.execute("SELECT c FROM name")] and the set built from
    [fetchall()]. *)
Definition select_keys (name c : string) : M (gset cell) :=
  d <- get_db ;;
  match d !! name with
  | None => raise (OperationalError name)
  | Some t =>
      if decide (c ∈ tcolumns t)
      then ret (list_to_set (column_values t c))
      else raise (OperationalError name)
  end.

(** [df[df[c].isin(keys)]]; a missing value is in no key set.  Where
    several columns bear the label pandas masks cells, not rows; no frame
    that [norm_sales] returns is of that kind, and the model stops there
    with an error. *)
Definition isin (keys : gset cell) (c : cell) : bool :=
  negb (isna c) && bool_decide (c ∈ keys).

Definition filter_isin (e : error) (c : string) (keys : gset cell) (df : DataFrame)
  : result DataFrame :=
  p ← series e c df;
  Ok {| columns := columns df;
        rows := filter (λ r, isin keys (cell_at p r.2) = true) (rows df) |}.

(** [insert_dim_date], [insert_customers], [insert_products] *)
Definition insert_dim_date (df : DataFrame) : M unit :=
  to_sql "dim_date" df ;;
  logging INFO ("Inserted " +:+ show (length (rows df)) +:+ " records into dim_date").

Definition insert_customers (df : DataFrame) : M unit :=
  to_sql "customer" df ;;
  logging INFO ("Inserted " +:+ show (length (rows df)) +:+ " customers").

Definition insert_products (df : DataFrame) : M unit :=
  to_sql "product" df ;;
  logging INFO ("Inserted " +:+ show (length (rows df)) +:+ " products").

(** [insert_sales] *)
Definition insert_sales (df : DataFrame) : M unit :=
  let initial_count := length (rows df) in
  logging INFO ("Processing " +:+ show initial_count +:+ " sales records") ;;
  valid_customer_segmentids <- select_keys "customer" "customer_segmentid" ;;
  valid_product_ids <- select_keys "product" "product_id" ;;
  let before := length (rows df) in
  df <- lift (filter_isin (AttributeError "isin") "customer_segmentid"
                valid_customer_segmentids df) ;;
  df <- lift (filter_isin (AttributeError "isin") "product_id" valid_product_ids df) ;;
  let after := length (rows df) in
  logging INFO ("Sales filtered by FK: " +:+ show before +:+ " -> " +:+ show after) ;;
  if decide (0 < after)%nat then
    to_sql "sales" df ;;
    logging INFO ("Inserted " +:+ show (length (rows df)) +:+ " sales")
  else
    logging WARNING "No valid sales records to insert".

(** [print_table_row_counts] *)
Definition print_table_row_counts (tables : list string) : M unit :=
  logging INFO "Table row counts:" ;;
  for_each tables (λ table,
    d <- get_db ;;
    match d !! table with
    | None => raise (OperationalError table)
    | Some t => logging INFO (table +:+ ": " +:+ show (size (trows t)))
    end).

(** The prepared files, by name. *)
Definition read_file (fs : gmap string csv) (name : string) : M DataFrame :=
  match fs !! name with
  | None => raise (FileNotFoundError name)
  | Some f =>
      logging INFO ("Loading file: " +:+ name) ;;
      ret (read_csv f)
  end.

(** [load_data_to_db], on an open connection. *)
Definition load_data_to_db (truncate : bool) (fs : gmap string csv) : M unit :=
  pragma_on ;;
  create_schema ;;
  (if truncate then delete_existing_records else ret ()) ;;
  logging INFO "Generating date dimension ..." ;;
  dim_date_df <- lift (generate_date_dimension "2022-01-01" "2026-01-01") ;;
  insert_dim_date dim_date_df ;;
  customers_df <- read_file fs "customers_clean.csv" ;;
  customers_df <- lift (norm_customers customers_df) ;;
  insert_customers customers_df ;;
  products_df <- read_file fs "key_lime_products_clean.csv" ;;
  products_df <- lift (norm_products products_df) ;;
  insert_products products_df ;;
  sales_df <- read_file fs "sales_fact_clean.csv" ;;
  sales_df <- lift (norm_sales sales_df) ;;
  insert_sales sales_df ;;
  commit ;;
  print_table_row_counts ["dim_date"; "customer"; "product"; "sales"] ;;
  logging INFO "ETL process completed successfully!".

(** A run of the pipeline against the database [d]: a fresh connection,
    [load_data_to_db], and the database that is left when the connection is
    gone. *)
Definition connect (d : gmap string table) : state := mkState d None false.

Definition run (truncate : bool) (fs : gmap string csv) (d : gmap string table)
  : result unit * gmap string table :=
  match load_data_to_db truncate fs (connect d) with
  | (r, st, _) => (r, durable st)
  end.

End Loaders.

(** ** The scrubber of [data_scrubber.py]

    The methods of [DataScrubber] that change [self.df], as functions of the
    frame. *)
Module DataScrubber.

(** [str.replace(" ", "_")] *)
Fixpoint replace_space (s : string) : string :=
  match s with
  | EmptyString => EmptyString
  | String a t => String (if Ascii.eqb a " " then "_"%char else a) (replace_space t)
  end.

Section Methods.
Context `{F : Float64}.

(** [standardize_column_names]:
    [df.columns.str.strip().str.lower().str.replace(" ", "_")] *)
Definition standardize_column_names (df : DataFrame) : DataFrame :=
  {| columns := (λ h, replace_space (Text.lower (Text.strip h))) <$> columns df;
     rows := rows df |}.

(** [drop_empty_rows]: [df.dropna(how="all")], a row goes when every cell
    of it is missing. *)
Definition drop_empty_rows (df : DataFrame) : DataFrame :=
  {| columns := columns df;
     rows := filter (λ r : Z * list cell, ¬ Forall (λ c, isna c = true) r.2) (rows df) |}.

(** [drop_duplicates]: [df.drop_duplicates()], a row goes when an earlier
    row holds the same cells; pandas hands back a frame that has no column or
    no row as it is.  The cells of a column are taken to be of one type, as
    [read_csv] makes them, so that cells pandas finds equal are the same
    cell. *)
Definition drop_duplicates (df : DataFrame) : DataFrame :=
  if decide (columns df = [] ∨ rows df = []) then df
  else {| columns := columns df;
          rows := keep_first (λ r : Z * list cell, r.2) [] (rows df) |}.

End Methods.
End DataScrubber.

(** ** Notions used in the statements *)

Section Notions.
Context `{F : Float64}.

(** The tables of the pipeline. *)
Definition pipeline_tables : list string := ["sales"; "product"; "customer"; "dim_date"].

(** The database right after [create_schema]: the four tables are there
    and empty, every other table is as it was. *)
Definition fresh_schema (d : gmap string table) : gmap string table :=
  <["sales" := sales_table]> (<["product" := product_table]>
  (<["customer" := customer_table]> (<["dim_date" := dim_date_table]>
  (delete "dim_date" (delete "customer" (delete "product" (delete "sales" d))))))).

(** Two databases that differ on the tables of the pipeline at most. *)
Definition same_elsewhere (d d' : gmap string table) : Prop :=
  ∀ name, name ∉ pipeline_tables → d' !! name = d !! name.

(** What a computation returns and the state it leaves, without the log. *)
Definition outcome {A} (x : result A * state * list (level * string)) : result A * state :=
  (x.1.1, x.1.2).

(** A computation that leaves every table outside the pipeline as it is,
    in what the connection sees and in what is committed. *)
Definition keeps_elsewhere {A} (m : M A) : Prop :=
  ∀ d0 st,
    same_elsewhere d0 (db st) → same_elsewhere d0 (durable st) →
    same_elsewhere d0 (db (m st).1.2) ∧ same_elsewhere d0 (durable (m st).1.2).

(** [load_data_to_db] in three parts: the loads from the files, the loads
    that follow the [truncate] step, and what follows [create_schema]. *)
Definition load_files (fs : gmap string csv) : M unit :=
  customers_df <- read_file fs "customers_clean.csv" ;;
  customers_df <- lift (norm_customers customers_df) ;;
  insert_customers customers_df ;;
  products_df <- read_file fs "key_lime_products_clean.csv" ;;
  products_df <- lift (norm_products products_df) ;;
  insert_products products_df ;;
  sales_df <- read_file fs "sales_fact_clean.csv" ;;
  sales_df <- lift (norm_sales sales_df) ;;
  insert_sales sales_df ;;
  commit ;;
  print_table_row_counts ["dim_date"; "customer"; "product"; "sales"] ;;
  logging INFO "ETL process completed successfully!".

Definition load_tables (fs : gmap string csv) : M unit :=
  logging INFO "Generating date dimension ..." ;;
  dim_date_df <- lift (generate_date_dimension "2022-01-01" "2026-01-01") ;;
  insert_dim_date dim_date_df ;;
  load_files fs.

Definition after_schema (truncate : bool) (fs : gmap string csv) : M unit :=
  (if truncate then delete_existing_records else ret ()) ;;
  load_tables fs.

(** The cells of the column labelled [c], down the frame. *)
Definition column (c : string) (df : DataFrame) : list cell :=
  (λ r : Z * list cell, value_of (columns df) r.2 c) <$> rows df.

(** The integers of a list of cells; a cell that is no integer has none. *)
Definition int_of_cell (c : cell) : option Z :=
  match c with IntCell z => Some z | _ => None end.

(** The keys of a table: its [rowid]s. *)
Definition table_keys (t : table) : gset Z := dom (trows t).

(** The rows of a frame are as long as its header. *)
Definition well_formed (df : DataFrame) : Prop :=
  Forall (λ r : Z * list cell, length r.2 = length (columns df)) (rows df).

(** The steps the two dimension normalisers share, after the renaming. *)
Definition dimension (cls : ascii → bool) (key other : string) (df : DataFrame)
  : result DataFrame :=
  df ← getitem_list [key; other] df;
  p ← series (AttributeError "str") key df;
  df ← update_column p (λ c, extract_key cls (astype_str c)) df;
  df ← dropna [key] df;
  drop_dupes df key.

(** A row [m] of a dimension is the normal form of the input row [r]: the
    same index label, the key extracted from the code of [r], and the other
    cell of [r] as it is. *)
Definition dimension_row (cls : ascii → bool) (key other : string)
    (hdr cols : list string) (r m : Z * list cell) : Prop :=
  m.1 = r.1 ∧
  extract_key cls (astype_str (value_of hdr r.2 key)) = Ok (value_of cols m.2 key) ∧
  value_of cols m.2 other = value_of hdr r.2 other.

(** The header [norm_customers] and [norm_sales] work with. *)
Definition customer_header (df : DataFrame) : list string :=
  columns (rename customer_renames (normalize_headers df)).

Definition product_header (df : DataFrame) : list string :=
  columns (rename product_renames df).

(** [norm_sales] up to the drop of the rows with missing values: the
    position of the [sales_id] column and the frame. *)
Definition sales_cleaned (df : DataFrame) : result (nat * DataFrame) :=
  let df := normalize_headers df in
  let df := rename sales_renames df in
  let missing := filter (λ c, c ∉ columns df) required in
  if decide (missing = []) then
    df ← getitem_list required df;
    p ← series (AttributeError "str") "customer_segmentid" df;
    df ← update_column p (λ c, extract_key Text.class_C (astype_str c)) df;
    p ← series (AttributeError "str") "product_id" df;
    df ← update_column p (λ c, extract_key Text.class_P (astype_str c)) df;
    sid ← series (TypeError "sales_id") "sales_id" df;
    df ← update_column sid (λ c, astype_Int64 "sales_id" (to_numeric c)) df;
    p ← series (TypeError "units_sold") "units_sold" df;
    df ← update_column p (λ c, Ok (to_numeric c)) df;
    p ← series (TypeError "sale_amount") "sale_amount" df;
    df ← update_column p (λ c, Ok (to_numeric c)) df;
    p ← series (TypeError "profit_margin") "profit_margin" df;
    df ← update_column p (λ c, Ok (to_numeric c)) df;
    df ← dropna ["customer_segmentid"; "product_id"; "sale_amount"] df;
    Ok (sid, df)
  else Raise (KeyError missing).

(** The numbering at the end of [norm_sales]. *)
Definition renumbered (sid : nat) (df : DataFrame) : DataFrame :=
  setitem "sales_id" (λ i, IntCell (i + 1))
    (if na_or_duplicated ((λ r : Z * list cell, cell_at sid r.2) <$> rows df)
     then reset_index df else df).

Definition sales_header (df : DataFrame) : list string :=
  columns (rename sales_renames (normalize_headers df)).

(** What [norm_sales] does to the cell under each label. *)
Definition coerce_sales (l : string) (c : cell) : result cell :=
  if decide (l = "customer_segmentid") then extract_key Text.class_C (astype_str c)
  else if decide (l = "product_id") then extract_key Text.class_P (astype_str c)
  else if decide (l = "sales_id") then astype_Int64 "sales_id" (to_numeric c)
  else if decide (l ∈ ["units_sold"; "sale_amount"; "profit_margin"]) then Ok (to_numeric c)
  else Ok c.

(** Row [m] holds the cells of row [r], coerced under the labels of
    [done] and as they are under the others. *)
Definition coerced (done : list string) (hdr cols : list string)
    (r m : Z * list cell) : Prop :=
  m.1 = r.1 ∧
  ∀ l, l ∈ required →
    if decide (l ∈ done) then coerce_sales l (value_of hdr r.2 l) = Ok (value_of cols m.2 l)
    else value_of cols m.2 l = value_of hdr r.2 l.

(** A row [m] of the sales frame is the normal form of the input row
    [r]: the cells of [r] coerced, and the [sales_id] numbered from the
    index label of [m]. *)
Definition sales_row (hdr cols : list string) (r m : Z * list cell) : Prop :=
  value_of cols m.2 "sales_id" = IntCell (m.1 + 1) ∧
  ∀ l, l ∈ required → l ≠ "sales_id" →
    coerce_sales l (value_of hdr r.2 l) = Ok (value_of cols m.2 l).

(** The table row [row] under key [k] stores the frame row [r]: under
    every column but the primary key it holds the cell of [r], and [k] is
    the integer [r] brings as its key, when it brings one. *)
Definition stores (cols : list string) (t : table) (r : list cell)
    (k : Z) (row : list cell) : Prop :=
  (∀ c, c ∈ tcolumns t → Some c ≠ primary_key t →
        value_of (tcolumns t) row c = value_of cols r c) ∧
  (∀ pk z, primary_key t = Some pk → value_of cols r pk = IntCell z → k = z).

(** Two tables with the same declaration. *)
Definition same_schema (t t' : table) : Prop :=
  tcolumns t' = tcolumns t ∧ primary_key t' = primary_key t ∧
  not_null t' = not_null t ∧ foreign_keys t' = foreign_keys t.

(** A row of the sales frame or table whose keys are in the dimension
    tables [tc] and [tp]. *)
Definition referenced (tc tp : table) (cols : list string) (r : list cell) : Prop :=
  isin (list_to_set (column_values tc "customer_segmentid"))
       (value_of cols r "customer_segmentid") = true ∧
  isin (list_to_set (column_values tp "product_id"))
       (value_of cols r "product_id") = true.

(** Every row of the sales table has its two keys in the dimension
    tables. *)
Definition referential (d : gmap string table) : Prop :=
  ∃ ts tc tp,
    d !! "sales" = Some ts ∧ d !! "customer" = Some tc ∧ d !! "product" = Some tp ∧
    ∀ k row, trows ts !! k = Some row → referenced tc tp (tcolumns ts) row.

(** The state while the dimensions are loaded: the sales table is as
    [create_schema] left it and the dimension tables are there. *)
Definition loading (st : state) : Prop :=
  db st !! "sales" = Some sales_table ∧
  is_Some (db st !! "customer") ∧ is_Some (db st !! "product") ∧
  is_Some (db st !! "dim_date").

(** The two records [insert_sales] logs before it loads: the rows it was
    given, and the count before and after the referential filter. *)
Definition filter_records (before after : nat) : list (level * string) :=
  [(INFO, "Processing " +:+ show before +:+ " sales records");
   (INFO, "Sales filtered by FK: " +:+ show before +:+ " -> " +:+ show after)].

(** A computation's result with log records put in front of its own. *)
Definition prepend {A} (l : list (level * string))
    (x : result A * state * list (level * string)) : result A * state * list (level * string) :=
  (x.1.1, x.1.2, (l ++ x.2)%list).

(** The rows of a sales frame that pass the referential filter. *)
Definition kept_rows (tc tp : table) (df : DataFrame) : list (Z * list cell) :=
  filter (λ r : Z * list cell, referenced tc tp (columns df) r.2) (rows df).

(** A frame whose cells can all be bound to a statement. *)
Definition frame_binds (df : DataFrame) : Prop :=
  Forall (λ r : Z * list cell, forallb bindable r.2 = true) (rows df).

(** A database in which no table but [sales] declares a foreign key into a
    table of the pipeline: dropping these tables then fails no constraint
    and changes no other table. *)
Definition unreferenced (d : gmap string table) : Prop :=
  ∀ name t, d !! name = Some t → name ≠ "sales" →
    ∀ k, k ∈ foreign_keys t → k.1.2 ∉ pipeline_tables.

(** A table without its rows. *)
Definition emptied (t : table) : table :=
  mkTable (tcolumns t) (primary_key t) (not_null t) (foreign_keys t) ∅.

(** The number of rows of a table of the database, 0 for one that is not
    there. *)
Definition row_count (d : gmap string table) (name : string) : nat :=
  from_option (λ t, size (trows t)) 0%nat (d !! name).

(** The text YYYY-MM-DD of a date. *)
Definition isoformat (d : Calendar.date) : string :=
  Text.pad4 (Calendar.year d) +:+ "-" +:+ Text.pad2 (Calendar.month d) +:+ "-"
  +:+ Text.pad2 (Calendar.day d).

End Notions.

(** ** An instance to run the model on

    No doubles, and a parser that reads a string of decimal digits as the
    integer it writes. *)
#[export] Instance ints_only : Float64 := {|
  flt := Empty_set;
  float_str := λ x, match x with end;
  float_as_int := λ x, match x with end;
  str_to_numeric := λ s,
    match s with
    | EmptyString => None
    | _ => if Text.all_digits s then Some (inl (Text.int_of_digits s)) else None
    end;
|}.

(** Tables to run the model on. *)
Definition example_customers : csv :=
  mkCsv [" CustomerSegmentID"; "CustomerSegment"]
    [[StrCell "c1"; StrCell "Budget"]; [StrCell "C1"; StrCell "Budget-dup"];
     [StrCell "C2"; StrCell "Premium"]; [StrCell "X9"; StrCell "bad"]].

Definition example_products : csv :=
  mkCsv ["productid"; "productvariant"] [[StrCell "P1"; StrCell "Classic"]].

Definition example_sales : csv :=
  mkCsv ["TransactionID"; "CustomerSegmentID"; "ProductID"; "Date"; "UnitsSold";
         "Revenue"; "ProfitMargin"]
    [[IntCell 10; StrCell "C1"; StrCell "P1"; StrCell "2024-01-01"; IntCell 1; IntCell 5; IntCell 1];
     [IntCell 10; StrCell "C3"; StrCell "P1"; StrCell "2024-01-02"; IntCell 2; IntCell 7; IntCell 1];
     [IntCell 30; StrCell "C2"; StrCell "P1"; StrCell "2024-01-03"; IntCell 1; IntCell 9; IntCell 2]].

Definition example_files : gmap string csv :=
  <["customers_clean.csv" := example_customers]>
    (<["key_lime_products_clean.csv" := example_products]>
       (<["sales_fact_clean.csv" := example_sales]> ∅)).

Definition example_cleaned : DataFrame :=
  mkDF required
    [(0, [IntCell 10; IntCell 1; IntCell 1; IntCell 1; StrCell "2024-01-01"; IntCell 5; IntCell 1]);
     (1, [IntCell 10; IntCell 3; IntCell 1; IntCell 2; StrCell "2024-01-02"; IntCell 7; IntCell 1]);
     (2, [IntCell 30; IntCell 2; IntCell 1; IntCell 1; StrCell "2024-01-03"; IntCell 9; IntCell 2])].

(** A store with the two dimensions loaded, and the sales frame that
    [norm_sales] makes of [example_sales]. *)
Definition example_store : gmap string table :=
  <["customer" := mkTable customer_columns (Some "customer_segmentid") [] []
                    (<[1 := [IntCell 1; StrCell "Budget"]]>
                       (<[2 := [IntCell 2; StrCell "Premium"]]> ∅))]>
    (<["product" := mkTable product_columns (Some "product_id") [] []
                      (<[1 := [IntCell 1; StrCell "Classic"]]> ∅)]>
       (fresh_schema ∅)).

Definition example_frame : DataFrame :=
  mkDF required
    [(0, [IntCell 1; IntCell 1; IntCell 1; IntCell 1; StrCell "2024-01-01"; IntCell 5; IntCell 1]);
     (1, [IntCell 2; IntCell 3; IntCell 1; IntCell 2; StrCell "2024-01-02"; IntCell 7; IntCell 1]);
     (2, [IntCell 3; IntCell 2; IntCell 1; IntCell 1; StrCell "2024-01-03"; IntCell 9; IntCell 2])].

(** * Properties *)

(** ** The key extractor *)

Section ExtractFacts.
Context `{F : Float64}.
Variable cls : ascii → bool.

Lemma take_digits_all (s : string) :
  Text.all_digits s = true → Text.take_digits s = s.
Proof.
  induction s as [|a t IH]; simpl; [done|].
  intros [Ha Ht]%andb_true_iff. rewrite Ha. f_equal. auto.
Qed.

Lemma take_digits_digits (s : string) :
  Text.all_digits (Text.take_digits s) = true.
Proof.
  induction s as [|a t IH]; simpl; [done|].
  destruct (Text.is_digit a) eqn:Ha; simpl; [|done].
  by rewrite Ha, IH.
Qed.

Lemma take_digits_empty (s : string) :
  Text.take_digits s = EmptyString ↔
  match s with String b _ => Text.is_digit b | EmptyString => false end = false.
Proof.
  destruct s as [|b t]; simpl; [done|].
  destruct (Text.is_digit b); split; congruence.
Qed.

Lemma regex_extract_full (a : ascii) (b : ascii) (t : string) :
  Text.full_match cls (String a (String b t)) = true →
  Text.regex_extract cls (String a (String b t)) = Some (String b t).
Proof.
  cbn [Text.full_match].
  intros [[Ha Hb]%andb_true_iff Ht]%andb_true_iff.
  cbn [Text.regex_extract]. rewrite Ha.
  rewrite (take_digits_all (String b t)); [done|].
  simpl. by rewrite Hb, Ht.
Qed.

Lemma regex_extract_none (s : string) :
  Text.regex_extract cls s = None ↔ Text.has_code cls s = false.
Proof.
  induction s as [|a t IH]; [done|].
  cbn [Text.regex_extract Text.has_code].
  destruct (cls a); simpl; [|done].
  destruct (Text.take_digits t) as [|d ds] eqn:Hd.
  - apply take_digits_empty in Hd. rewrite Hd. simpl. done.
  - assert (match t with String b _ => Text.is_digit b | EmptyString => false end = true) as ->.
    { destruct t as [|b t']; simpl in *; [done|]. by destruct (Text.is_digit b). }
    simpl. split; congruence.
Qed.

Lemma regex_extract_digits (s ds : string) :
  Text.regex_extract cls s = Some ds →
  Text.all_digits ds = true ∧ ds ≠ EmptyString.
Proof.
  induction s as [|a t IH]; [done|].
  cbn [Text.regex_extract].
  destruct (cls a); [|done].
  destruct (Text.take_digits t) as [|d ds'] eqn:Hd; [done|].
  intros [= <-]. split; [|done]. rewrite <- Hd. apply take_digits_digits.
Qed.

Lemma int_of_digits_from_nonneg (s : string) (acc : Z) :
  0 ≤ acc → 0 ≤ Text.int_of_digits_from acc s.
Proof.
  revert acc. induction s as [|a t IH]; intros acc Hacc; simpl; [done|].
  apply IH. unfold Text.digit_val. lia.
Qed.

Lemma int_of_digits_nonneg (s : string) : 0 ≤ Text.int_of_digits s.
Proof. by apply int_of_digits_from_nonneg. Qed.

(** What [extract_key] returns is a missing value or a natural number. *)
Lemma extract_key_cases (s : string) (c : cell) :
  extract_key cls s = Ok c →
  c = NA ∧ Text.has_code cls (Text.strip s) = false ∨
  ∃ ds, Text.regex_extract cls (Text.strip s) = Some ds ∧
        c = IntCell (Text.int_of_digits ds) ∧ 0 ≤ Text.int_of_digits ds ≤ int64_max.
Proof.
  unfold extract_key.
  destruct (Text.regex_extract cls (Text.strip s)) as [ds|] eqn:He.
  - case_decide; [|done]. intros [= <-]. right. exists ds.
    split_and!; auto using int_of_digits_nonneg.
  - intros [= <-]. left. split; [done|]. by apply regex_extract_none.
Qed.

(** C2, as amended: on ASCII text, a trimmed value that matches the
    anchored pattern gives the integer its digits write (when that fits 64
    bits); the extractor leaves a missing value, for which the row is
    dropped, exactly when the trimmed value holds no prefix letter directly
    followed by a digit. *)
Theorem extract_key_searches (s : string) :
  Text.is_ascii s = true →
  (Text.full_match cls (Text.strip s) = true →
   Text.int_of_digits (Text.digits_of (Text.strip s)) ≤ int64_max →
   extract_key cls s = Ok (IntCell (Text.int_of_digits (Text.digits_of (Text.strip s)))))
  ∧ (extract_key cls s = Ok NA ↔ Text.has_code cls (Text.strip s) = false).
Proof.
  intros _. split.
  - intros Hm Hfit. unfold extract_key.
    destruct (Text.strip s) as [|a [|b t]]; [done..|].
    rewrite regex_extract_full by done. cbn [Text.digits_of] in *.
    by rewrite decide_True.
  - split.
    + intros H. apply extract_key_cases in H as [[_ H]|(ds & _ & [=] & _)]; done.
    + intros H%regex_extract_none. unfold extract_key. by rewrite H.
Qed.

End ExtractFacts.

Lemma extract_key_searches_witness :
  extract_key Text.class_C " c12 " = Ok (IntCell 12).
Proof.
  apply (proj1 (extract_key_searches Text.class_C " c12 " eq_refl)).
  - reflexivity.
  - vm_compute. discriminate.
Defined.

(** C2, as stated, fails: "xC12abc" does not match the anchored pattern, and
    its row is in the output of [norm_customers], under key 12. *)
Lemma unanchored_code_is_kept :
  Text.full_match Text.class_C (Text.strip "xC12abc") = false ∧
  norm_customers
    (read_csv (mkCsv ["customersegmentid"; "customersegment"]
                 [[StrCell "xC12abc"; StrCell "Odd"]]))
  = Ok (mkDF ["customer_segmentid"; "customer_segment"]
          [(0, [IntCell 12; StrCell "Odd"])]).
Proof. split; reflexivity. Qed.

(** ** The calendar and the date dimension *)

Section DateFacts.
Context `{F : Float64}.
Import Calendar.

Lemma is_leap_spec y : is_leap y = true ↔ y mod 4 = 0 ∧ (y mod 100 ≠ 0 ∨ y mod 400 = 0).
Proof.
  unfold is_leap. rewrite andb_true_iff, orb_true_iff, negb_true_iff, !Z.eqb_eq, Z.eqb_neq. done.
Qed.

Lemma days_before_year_succ y :
  days_before_year (y + 1) = days_before_year y + year_length y.
Proof.
  unfold days_before_year, year_length.
  destruct (is_leap y) eqn:Hl.
  - apply is_leap_spec in Hl. replace (y + 1 - 1) with y by lia.
    Z.div_mod_to_equations. lia.
  - assert (¬ (y mod 4 = 0 ∧ (y mod 100 ≠ 0 ∨ y mod 400 = 0))) as Hn.
    { rewrite <- is_leap_spec. congruence. }
    replace (y + 1 - 1) with y by lia.
    Z.div_mod_to_equations. lia.
Qed.

Lemma days_before_year_mono y y' : y ≤ y' → days_before_year y ≤ days_before_year y'.
Proof. unfold days_before_year. intros. Z.div_mod_to_equations. lia. Qed.

Ltac month_cases m :=
  let H := fresh in
  assert (m = 1 ∨ m = 2 ∨ m = 3 ∨ m = 4 ∨ m = 5 ∨ m = 6 ∨ m = 7 ∨ m = 8 ∨ m = 9 ∨ m = 10 ∨ m = 11 ∨ m = 12) as H by lia;
  destruct_or! H.

Lemma days_before_month_succ y m : 1 ≤ m ≤ 11 →
  days_before_month y (m + 1) = days_before_month y m + days_in_month y m.
Proof.
  intros Hm. unfold days_before_month, days_in_month.
  month_cases m; subst m; try lia; destruct (is_leap y); reflexivity.
Qed.

Lemma days_before_month_december y :
  days_before_month y 12 + 31 = year_length y.
Proof. unfold days_before_month, year_length. destruct (is_leap y); reflexivity. Qed.

Lemma days_in_month_bounds y m : 28 ≤ days_in_month y m ≤ 31.
Proof.
  unfold days_in_month.
  repeat match goal with |- context [if ?b then _ else _] => destruct b end; lia.
Qed.

Lemma valid_spec d :
  valid d = true ↔
  1 ≤ year d ≤ 9999 ∧ 1 ≤ month d ≤ 12 ∧ 1 ≤ day d ≤ days_in_month (year d) (month d).
Proof. unfold valid. rewrite !andb_true_iff, !Z.leb_le. lia. Qed.

Lemma ordinal_next_day d :
  valid d = true → ordinal (next_day d) = ordinal d + 1.
Proof.
  intros (Hy & Hm & Hd)%valid_spec. unfold next_day.
  destruct (Z.ltb_spec (day d) (days_in_month (year d) (month d))).
  { unfold ordinal; simpl. lia. }
  destruct (Z.ltb_spec (month d) 12).
  { unfold ordinal; simpl. rewrite days_before_month_succ by lia. lia. }
  unfold ordinal; simpl. rewrite days_before_year_succ.
  assert (month d = 12) as Hm12 by lia. rewrite Hm12 in *.
  pose proof (days_before_month_december (year d)).
  change (days_before_month (year d + 1) 1) with 0.
  change (days_in_month (year d) 12) with 31 in *. lia.
Qed.

Lemma valid_next_day d :
  valid d = true → year d < 9999 → valid (next_day d) = true.
Proof.
  intros (Hy & Hm & Hd)%valid_spec Hlt. apply valid_spec. unfold next_day.
  destruct (Z.ltb_spec (day d) (days_in_month (year d) (month d))); simpl.
  { lia. }
  destruct (Z.ltb_spec (month d) 12); simpl.
  - pose proof (days_in_month_bounds (year d) (month d + 1)). lia.
  - change (days_in_month (year d + 1) 1) with 31. lia.
Qed.

Lemma key_next_day d :
  valid d = true → key d < key (next_day d).
Proof.
  intros (Hy & Hm & Hd)%valid_spec. unfold next_day, key.
  pose proof (days_in_month_bounds (year d) (month d)).
  destruct (Z.ltb_spec (day d) (days_in_month (year d) (month d))); simpl; [lia|].
  destruct (Z.ltb_spec (month d) 12); simpl; lia.
Qed.

Lemma days_before_month_mono y m m' :
  1 ≤ m → m < m' → m' ≤ 12 →
  days_before_month y m + days_in_month y m ≤ days_before_month y m'.
Proof.
  intros. unfold days_before_month, days_in_month.
  month_cases m; subst m; try lia; month_cases m'; subst m'; try lia;
    destruct (is_leap y); vm_compute; discriminate.
Qed.

Lemma days_before_month_nonneg y m : 1 ≤ m ≤ 12 → 0 ≤ days_before_month y m.
Proof.
  intros. unfold days_before_month.
  month_cases m; subst m; destruct (is_leap y); vm_compute; discriminate.
Qed.

Lemma ordinal_year_bound d :
  valid d = true →
  days_before_year (year d) < ordinal d ≤ days_before_year (year d + 1).
Proof.
  intros (Hy & Hm & Hd)%valid_spec. unfold ordinal.
  rewrite days_before_year_succ.
  pose proof (days_before_month_december (year d)).
  pose proof (days_before_month_nonneg (year d) (month d) Hm).
  assert (days_before_month (year d) (month d) + days_in_month (year d) (month d)
          ≤ days_before_month (year d) 12 + 31).
  { destruct (decide (month d = 12)) as [->|].
    - change (days_in_month (year d) 12) with 31. lia.
    - pose proof (days_before_month_mono (year d) (month d) 12). lia. }
  lia.
Qed.

Lemma ordinal_mono d1 d2 :
  valid d1 = true → valid d2 = true → key d1 < key d2 → ordinal d1 < ordinal d2.
Proof.
  intros V1 V2 Hk.
  pose proof (ordinal_year_bound d1 V1). pose proof (ordinal_year_bound d2 V2).
  apply valid_spec in V1 as (Hy1 & Hm1 & Hd1). apply valid_spec in V2 as (Hy2 & Hm2 & Hd2).
  pose proof (days_in_month_bounds (year d1) (month d1)).
  pose proof (days_in_month_bounds (year d2) (month d2)).
  unfold key in Hk.
  destruct (Z.lt_trichotomy (year d1) (year d2)) as [Hy|[Hy|Hy]]; [| |lia].
  { pose proof (days_before_year_mono (year d1 + 1) (year d2)). lia. }
  unfold ordinal. rewrite Hy in *.
  destruct (Z.lt_trichotomy (month d1) (month d2)) as [Hm|[Hm|Hm]]; [| |lia].
  - pose proof (days_before_month_mono (year d2) (month d1) (month d2)). lia.
  - rewrite Hm in *. lia.
Qed.

Lemma key_inj d1 d2 :
  valid d1 = true → valid d2 = true → key d1 = key d2 → d1 = d2.
Proof.
  intros (Hy1 & Hm1 & Hd1)%valid_spec (Hy2 & Hm2 & Hd2)%valid_spec Hk.
  pose proof (days_in_month_bounds (year d1) (month d1)).
  pose proof (days_in_month_bounds (year d2) (month d2)).
  unfold key in Hk. destruct d1, d2; simpl in *. f_equal; lia.
Qed.

Lemma ordinal_mono_inv d1 d2 :
  valid d1 = true → valid d2 = true → ordinal d1 < ordinal d2 → key d1 < key d2.
Proof.
  intros V1 V2 Ho.
  destruct (Z.lt_trichotomy (key d1) (key d2)) as [Hk|[Hk|Hk]]; [done| |].
  - apply key_inj in Hk; [|done..]. subst. lia.
  - pose proof (ordinal_mono d2 d1 V2 V1 Hk). lia.
Qed.

Lemma ordinal_inj d1 d2 :
  valid d1 = true → valid d2 = true → ordinal d1 = ordinal d2 → d1 = d2.
Proof.
  intros V1 V2 Ho.
  destruct (Z.lt_trichotomy (key d1) (key d2)) as [Hk|[Hk|Hk]].
  - pose proof (ordinal_mono d1 d2 V1 V2 Hk). lia.
  - by apply key_inj.
  - pose proof (ordinal_mono d2 d1 V2 V1 Hk). lia.
Qed.

Lemma digit_val_char k : 0 ≤ k ≤ 9 → Text.digit_val (Text.digit_char k) = k.
Proof.
  intros Hk. unfold Text.digit_val, Text.digit_char, Text.code.
  rewrite nat_ascii_embedding by lia. lia.
Qed.

Lemma append_String a s t : String a s +:+ t = String a (s +:+ t).
Proof. reflexivity. Qed.

Lemma append_Empty t : EmptyString +:+ t = t.
Proof. reflexivity. Qed.

Lemma int_of_compact d : valid d = true → Text.int_of_digits (compact d) = key d.
Proof.
  intros (Hy & Hm & Hd)%valid_spec.
  pose proof (days_in_month_bounds (year d) (month d)).
  unfold compact, Text.pad4, Text.pad2, Text.int_of_digits, key. rewrite ?append_String, ?append_Empty, ?append_String, ?append_Empty.
  cbn [Text.int_of_digits_from].
  rewrite !digit_val_char by (Z.div_mod_to_equations; lia).
  Z.div_mod_to_equations. lia.
Qed.

Lemma key_eight_digits d :
  valid d = true → 1000 ≤ year d → 10000000 ≤ key d ≤ 99999999.
Proof.
  intros (Hy & Hm & Hd)%valid_spec ?.
  pose proof (days_in_month_bounds (year d) (month d)). unfold key. lia.
Qed.

Lemma strptime_valid s d : strptime s = Ok d → valid d = true.
Proof.
  unfold strptime. destruct (readings s) as [|[d' [|a t]] l]; [done| |done].
  destruct (valid d') eqn:V; [|done]. by intros [= <-].
Qed.

Lemma length_days_from n d : length (days_from n d) = n.
Proof. revert d. induction n; intros; simpl; auto. Qed.

(** The day after a day that comes before a valid one is valid: the last
    day [datetime] accepts has no day after it. *)
Lemma valid_next_day_before d stop :
  valid d = true → valid stop = true → key d < key stop → valid (next_day d) = true.
Proof.
  intros Vd Vs Hk.
  destruct (decide (year d < 9999)) as [Hy|Hy]; [by apply valid_next_day|].
  apply valid_spec in Vd as (Hyd & Hm & Hd), Vs as (Hys & Hms & Hds).
  pose proof (days_in_month_bounds (year d) (month d)).
  pose proof (days_in_month_bounds (year stop) (month stop)).
  apply valid_spec. unfold next_day, key in *.
  destruct (Z.ltb_spec (day d) (days_in_month (year d) (month d))); simpl; [lia|].
  destruct (Z.ltb_spec (month d) 12); simpl.
  - pose proof (days_in_month_bounds (year d) (month d + 1)). lia.
  - exfalso. replace (month d) with 12 in * by lia.
    change (days_in_month (year d) 12) with 31 in *. lia.
Qed.

Lemma days_from_lookup n d stop i di :
  valid d = true → valid stop = true →
  ordinal d + Z.of_nat n - 1 ≤ ordinal stop →
  days_from n d !! i = Some di →
  valid di = true ∧ ordinal di = ordinal d + Z.of_nat i.
Proof.
  revert d i. induction n as [|n IH]; intros d i Vd Vs Hn; [done|].
  destruct i as [|i]; simpl.
  - intros [= <-]. split; [done|lia].
  - intros Hi.
    assert (n ≠ 0%nat) by (intros ->; done).
    assert (valid (next_day d) = true).
    { apply (valid_next_day_before d stop); [done..|].
      apply ordinal_mono_inv; [done..|lia]. }
    destruct (IH (next_day d) i) as [? Ho]; [done..| |done|].
    + rewrite ordinal_next_day by done. lia.
    + split; [done|]. rewrite Ho, ordinal_next_day by done. lia.
Qed.

Lemma ordinal_key_le d1 d2 :
  valid d1 = true → valid d2 = true → key d1 ≤ key d2 → ordinal d1 ≤ ordinal d2.
Proof.
  intros V1 V2 Hk. destruct (decide (key d1 = key d2)) as [Heq|Hne].
  - apply key_inj in Heq; [|done..]. subst. lia.
  - pose proof (ordinal_mono d1 d2 V1 V2). lia.
Qed.

Lemma date_id_of_row d :
  valid d = true →
  value_of date_columns (date_row d).2 "date_id" = IntCell (key d).
Proof. intros V. cbn. by rewrite int_of_compact. Qed.

(** C7, as amended: for every pair of dates that [strptime] accepts with
    [start <= end], the frame has [(end - start).days + 1] rows, one for
    each day from [start] to [end] without a gap, and the [date_id] of a row
    is the number year * 10000 + month * 100 + day of its day, strictly
    increasing down the frame; it has eight digits when the start is in the
    year 1000 or later. *)
Theorem generate_date_dimension_rows (s e : string) (start stop : date) :
  strptime s = Ok start → strptime e = Ok stop →
  key start ≤ key stop →
  ∃ df days,
    generate_date_dimension s e = Ok df ∧
    columns df = date_columns ∧
    Z.of_nat (length (rows df)) = ordinal stop - ordinal start + 1 ∧
    head days = Some start ∧ last days = Some stop ∧
    Forall2 (λ d row,
               value_of date_columns row.2 "date_id" = IntCell (key d) ∧
               value_of date_columns row.2 "year" = IntCell (year d) ∧
               value_of date_columns row.2 "month" = IntCell (month d) ∧
               value_of date_columns row.2 "day" = IntCell (day d))
      days (rows df) ∧
    (∀ i d, days !! i = Some d →
       valid d = true ∧ ordinal d = ordinal start + Z.of_nat i ∧
       (1000 ≤ year start → 10000000 ≤ key d ≤ 99999999)) ∧
    (∀ i j d d', (i < j)%nat → days !! i = Some d → days !! j = Some d' →
       key d < key d').
Proof.
  intros Hs He Hk.
  pose proof (strptime_valid _ _ Hs) as Vs. pose proof (strptime_valid _ _ He) as Ve.
  pose proof (ordinal_key_le _ _ Vs Ve Hk) as Ho.
  set (n := Z.to_nat (ordinal stop - ordinal start + 1)).
  assert (Hlook : ∀ i d, days_from n start !! i = Some d →
            valid d = true ∧ ordinal d = ordinal start + Z.of_nat i).
  { intros i d. apply (days_from_lookup n start stop); [done..|lia]. }
  exists (mkDF date_columns (date_row <$> days_from n start)), (days_from n start).
  split_and!.
  - unfold generate_date_dimension. by rewrite Hs, He.
  - done.
  - cbn [rows]. rewrite length_fmap, length_days_from. lia.
  - destruct n eqn:Hn; [lia|done].
  - rewrite last_lookup, length_days_from.
    destruct (days_from n start !! Nat.pred n) as [d|] eqn:Hd.
    + destruct (Hlook _ _ Hd) as [Vd Hod]. f_equal.
      apply ordinal_inj; [done..|lia].
    + apply lookup_ge_None in Hd. rewrite length_days_from in Hd. lia.
  - cbn [rows]. apply Forall2_fmap_r, Forall_Forall2_diag, Forall_lookup.
    intros i d Hd. destruct (Hlook _ _ Hd) as [Vd _].
    split_and!; [by apply date_id_of_row|done..].
  - intros i d Hd. destruct (Hlook _ _ Hd) as [Vd Hod].
    split; [done|]. split; [done|]. intros Hy.
    apply key_eight_digits; [done|].
    assert (key start ≤ key d).
    { destruct (decide (ordinal start = ordinal d)) as [Heq|Hne].
      - apply ordinal_inj in Heq; [|done..]. subst. lia.
      - pose proof (ordinal_mono_inv start d Vs Vd). lia. }
    apply valid_spec in Vd as (? & ? & ?), Vs as (? & ? & ?).
    pose proof (days_in_month_bounds (year d) (month d)).
    pose proof (days_in_month_bounds (year start) (month start)).
    unfold key in *. lia.
  - intros i j d d' Hij Hd Hd'.
    destruct (Hlook _ _ Hd) as [Vd Hod]. destruct (Hlook _ _ Hd') as [Vd' Hod'].
    apply ordinal_mono_inv; [done..|lia].
Qed.

(** C6, as amended: a date string of ASCII text that [strptime] rejects
    makes the generator fail with that error; an end before the start is no
    error, the frame is then empty. *)
Theorem generate_date_dimension_failures (s e : string) :
  Text.is_ascii s = true → Text.is_ascii e = true →
  (∀ err, strptime s = Raise err → generate_date_dimension s e = Raise err) ∧
  (∀ start err, strptime s = Ok start → strptime e = Raise err →
     generate_date_dimension s e = Raise err) ∧
  (∀ start stop, strptime s = Ok start → strptime e = Ok stop →
     key stop < key start →
     generate_date_dimension s e = Ok (mkDF date_columns [])).
Proof.
  intros _ _. unfold generate_date_dimension. split_and!.
  - by intros err ->.
  - by intros start err -> ->.
  - intros start stop Hs He Hk. rewrite Hs, He. cbn.
    unfold date_range.
    pose proof (ordinal_mono stop start (strptime_valid _ _ He) (strptime_valid _ _ Hs) Hk).
    replace (Z.to_nat _) with 0%nat by lia. done.
Qed.

End DateFacts.

Lemma generate_date_dimension_rows_witness :
  ∃ df,
    generate_date_dimension "2022-01-01" "2026-01-01" = Ok df ∧
    Z.of_nat (length (rows df)) = 1462.
Proof.
  destruct (generate_date_dimension_rows "2022-01-01" "2026-01-01"
              (Calendar.mkDate 2022 1 1) (Calendar.mkDate 2026 1 1))
    as (df & days & H1 & _ & H2 & _); [reflexivity..|vm_compute; discriminate|].
  exists df. split; [exact H1|exact H2].
Defined.

(** C7, as stated, fails: [strptime] accepts the year 999, and the
    [date_id] of its last day has seven digits. *)
Lemma early_year_date_id_is_short :
  ∃ df, generate_date_dimension "0999-12-31" "0999-12-31" = Ok df ∧
        column "date_id" df = [IntCell 9991231] ∧
        ¬ (10000000 ≤ 9991231).
Proof. eexists. split_and!; [reflexivity|reflexivity|lia]. Qed.

Lemma generate_date_dimension_failures_witness :
  Text.is_ascii "2024-12-29" = true ∧ Text.is_ascii "2024-12-01" = true ∧
  generate_date_dimension "2024-12-29" "2024-12-01" = Ok (mkDF date_columns []).
Proof.
  split_and!; [reflexivity..|].
  apply (proj2 (proj2 (generate_date_dimension_failures "2024-12-29" "2024-12-01"
                         eq_refl eq_refl))
           (Calendar.mkDate 2024 12 29) (Calendar.mkDate 2024 12 1)); try reflexivity.
Defined.

(** C6, as stated, fails: with the end before the start the generator
    returns, and the frame has no row. *)
Lemma reversed_range_is_empty :
  is_ok (generate_date_dimension "2024-12-29" "2024-12-01") = true ∧
  generate_date_dimension "2024-12-29" "2024-12-01" = Ok (mkDF date_columns []).
Proof. split; reflexivity. Qed.

(** ** The pipeline and the store *)

Section PipelineFacts.
Context `{F : Float64}.

Lemma bind_Ok {A B} (m : M A) (k : A → M B) (st st' : state) (a : A) l :
  m st = (Ok a, st', l) →
  bind m k st = ((k a st').1.1, (k a st').1.2, (l ++ (k a st').2)%list).
Proof. unfold bind. intros ->. by destruct (k a st') as [[r st''] l']. Qed.

Lemma bind_Raise {A B} (m : M A) (k : A → M B) (st st' : state) e l :
  m st = (Raise e, st', l) → bind m k st = (Raise e, st', l).
Proof. unfold bind. by intros ->. Qed.

Lemma outcome_bind {A B} (m : M A) (k : A → M B) (st : state) :
  outcome (bind m k st) =
  match outcome (m st) with
  | (Ok a, st') => outcome (k a st')
  | (Raise e, st') => (Raise e, st')
  end.
Proof.
  unfold outcome, bind. destruct (m st) as [[[a|e] st'] l]; simpl; [|done].
  by destruct (k a st') as [[r st''] l'].
Qed.

Lemma outcome_bind_agree {A B} (m m' : M A) (k : A → M B) (s s' : state) :
  outcome (m s) = outcome (m' s') → outcome (bind m k s) = outcome (bind m' k s').
Proof. intros H. by rewrite !outcome_bind, H. Qed.

Lemma drop_table_run name (st : state) :
  drop_table name st
  = (Ok (), mkState (delete name (db st)) (snapshot st) (pragma_foreign_keys st), []).
Proof. reflexivity. Qed.

Lemma create_table_absent name t (st : state) :
  db st !! name = None →
  create_table name t st
  = (Ok (), mkState (<[name := t]> (db st)) (snapshot st) (pragma_foreign_keys st), []).
Proof.
  intros H. unfold create_table. erewrite bind_Ok by reflexivity. by rewrite H.
Qed.

Lemma create_table_present name t t' (st : state) :
  db st !! name = Some t' → create_table name t st = (Ok (), st, []).
Proof.
  intros H. unfold create_table. erewrite bind_Ok by reflexivity. by rewrite H.
Qed.

Lemma create_schema_run (st : state) :
  create_schema st
  = (Ok (), mkState (fresh_schema (db st)) (snapshot st) (pragma_foreign_keys st), []).
Proof.
  unfold create_schema.
  repeat (erewrite bind_Ok by apply drop_table_run; cbn [db snapshot pragma_foreign_keys fst snd app]).
  repeat (erewrite bind_Ok by (apply create_table_absent; cbn [db]; by simplify_map_eq);
          cbn [db snapshot pragma_foreign_keys fst snd app]).
  rewrite create_table_absent by (cbn [db]; by simplify_map_eq).
  reflexivity.
Qed.

Lemma fresh_schema_lookup (d : gmap string table) name :
  fresh_schema d !! name =
  if decide (name = "sales") then Some sales_table
  else if decide (name = "product") then Some product_table
  else if decide (name = "customer") then Some customer_table
  else if decide (name = "dim_date") then Some dim_date_table
  else d !! name.
Proof.
  unfold fresh_schema. repeat case_decide; by simplify_map_eq.
Qed.




Lemma load_data_to_db_parts truncate fs :
  load_data_to_db truncate fs = (pragma_on ;; create_schema ;; after_schema truncate fs).
Proof. reflexivity. Qed.

Lemma same_elsewhere_refl (d : gmap string table) : same_elsewhere d d.
Proof. by intros name _. Qed.

Lemma same_elsewhere_insert (d0 d : gmap string table) name t :
  name ∈ pipeline_tables → same_elsewhere d0 d → same_elsewhere d0 (<[name := t]> d).
Proof.
  intros Hin H n Hn. rewrite lookup_insert_ne; [by apply H|]. by intros ->.
Qed.

Lemma same_elsewhere_delete (d0 d : gmap string table) name :
  name ∈ pipeline_tables → same_elsewhere d0 d → same_elsewhere d0 (delete name d).
Proof.
  intros Hin H n Hn. rewrite lookup_delete_ne; [by apply H|]. by intros ->.
Qed.

Lemma keeps_ret {A} (a : A) : keeps_elsewhere (ret a).
Proof. by intros d0 st. Qed.

Lemma keeps_raise {A} e : keeps_elsewhere (@raise _ A e).
Proof. by intros d0 st. Qed.

Lemma keeps_lift {A} (r : result A) : keeps_elsewhere (lift r).
Proof. by intros d0 st. Qed.

Lemma keeps_logging l msg : keeps_elsewhere (logging l msg).
Proof. by intros d0 st. Qed.

Lemma keeps_get_db : keeps_elsewhere get_db.
Proof. by intros d0 st. Qed.

Lemma keeps_pragma_on : keeps_elsewhere pragma_on.
Proof. by intros d0 st. Qed.

Lemma keeps_begin : keeps_elsewhere begin.
Proof. intros d0 [d [s|] fk]; cbn; auto. Qed.

Lemma keeps_commit : keeps_elsewhere commit.
Proof. intros d0 [d [s|] fk]; cbn; auto. Qed.

Lemma keeps_rollback : keeps_elsewhere rollback.
Proof. intros d0 [d [s|] fk]; cbn; auto. Qed.

Lemma keeps_bind {A B} (m : M A) (k : A → M B) :
  keeps_elsewhere m → (∀ a, keeps_elsewhere (k a)) → keeps_elsewhere (bind m k).
Proof.
  intros Hm Hk d0 st H1 H2. specialize (Hm d0 st H1 H2).
  unfold bind. destruct (m st) as [[[a|e] st'] l]; cbn in *; [|done].
  specialize (Hk a d0 st'). destruct (k a st') as [[r st''] l']. cbn in *. tauto.
Qed.

Lemma keeps_for_each {A} (l : list A) (body : A → M unit) :
  (∀ x, x ∈ l → keeps_elsewhere (body x)) → keeps_elsewhere (for_each l body).
Proof.
  intros Hb. induction l as [|x l IH]; cbn [for_each].
  - apply keeps_ret.
  - apply keeps_bind.
    + apply Hb. by left.
    + intros _. apply IH. intros y Hy. apply Hb. by right.
Qed.

Lemma keeps_put_db_insert name t (st0 : state) :
  name ∈ pipeline_tables →
  ∀ d0 st, db st = db st0 →
    same_elsewhere d0 (db st) → same_elsewhere d0 (durable st) →
    same_elsewhere d0 (db (put_db (<[name := t]> (db st0)) st).1.2) ∧
    same_elsewhere d0 (durable (put_db (<[name := t]> (db st0)) st).1.2).
Proof.
  intros Hin d0 [d [s|] fk] Hd H1 H2; cbn in *; subst d;
    auto using same_elsewhere_insert.
Qed.

Lemma keeps_drop_table name :
  name ∈ pipeline_tables → keeps_elsewhere (drop_table name).
Proof.
  intros Hin d0 [d [s|] fk] H1 H2; cbn in *; auto using same_elsewhere_delete.
Qed.

Lemma keeps_create_table name t :
  name ∈ pipeline_tables → keeps_elsewhere (create_table name t).
Proof.
  intros Hin d0 [d [s|] fk] H1 H2; unfold create_table, bind; cbn in *;
    destruct (d !! name); cbn; auto using same_elsewhere_insert.
Qed.

Lemma keeps_delete_from name :
  name ∈ pipeline_tables → keeps_elsewhere (delete_from name).
Proof.
  intros Hin d0 [d [s|] fk] H1 H2; unfold delete_from, bind; cbn in *;
    destruct (d !! name); cbn; auto using same_elsewhere_insert.
Qed.

Lemma keeps_to_sql name df :
  name ∈ pipeline_tables → keeps_elsewhere (to_sql name df).
Proof.
  intros Hin d0 [d s fk] H1 H2.
  unfold to_sql, create_table, begin, rollback, commit, put_db, get_db, raise, ret, bind.
  cbn in *.
  destruct (d !! name) as [t|] eqn:Ht; cbn.
  - destruct (rows df) as [|r rs]; cbn; [done|].
    rewrite Ht. case_decide; cbn.
    + match goal with |- context [match ?x with Ok _ => _ | Raise _ => _ end] => destruct x end;
        cbn; destruct s; cbn in *; auto using same_elsewhere_insert.
    + destruct s; cbn in *; auto.
  - destruct (rows df) as [|r rs]; cbn.
    { destruct s; cbn in *; auto using same_elsewhere_insert. }
    rewrite lookup_insert_eq. case_decide; cbn.
    + match goal with |- context [match ?x with Ok _ => _ | Raise _ => _ end] => destruct x end;
        cbn; destruct s; cbn in *; auto using same_elsewhere_insert.
    + destruct s; cbn in *; auto using same_elsewhere_insert.
Qed.



Lemma in_pipeline_tables name :
  name = "sales" ∨ name = "product" ∨ name = "customer" ∨ name = "dim_date" →
  name ∈ pipeline_tables.
Proof. unfold pipeline_tables. rewrite !elem_of_cons. tauto. Qed.

Create HintDb keeps.
Local Hint Resolve keeps_ret keeps_raise keeps_lift keeps_logging keeps_get_db
  keeps_pragma_on keeps_begin keeps_commit keeps_rollback : keeps.
Local Hint Extern 2 (_ ∈ pipeline_tables) => (apply in_pipeline_tables; tauto) : keeps.

Ltac keeps :=
  repeat first
    [ progress auto with keeps
    | apply keeps_to_sql
    | apply keeps_create_table
    | apply keeps_drop_table
    | apply keeps_delete_from
    | apply keeps_for_each; intros ? ?
    | match goal with
      | |- keeps_elsewhere (match ?x with _ => _ end) => destruct x
      end
    | apply keeps_bind; [|intros ?] ].

Lemma keeps_select_keys name c : keeps_elsewhere (select_keys name c).
Proof. unfold select_keys. keeps. Qed.
Local Hint Resolve keeps_select_keys : keeps.

Lemma keeps_insert_sales df : keeps_elsewhere (insert_sales df).
Proof. unfold insert_sales. keeps. Qed.
Local Hint Resolve keeps_insert_sales : keeps.

Lemma keeps_print_table_row_counts tables :
  keeps_elsewhere (print_table_row_counts tables).
Proof. unfold print_table_row_counts. keeps. Qed.
Local Hint Resolve keeps_print_table_row_counts : keeps.

Lemma keeps_read_file fs name : keeps_elsewhere (read_file fs name).
Proof. unfold read_file. keeps. Qed.
Local Hint Resolve keeps_read_file : keeps.

Lemma keeps_delete_existing_records : keeps_elsewhere delete_existing_records.
Proof.
  unfold delete_existing_records. apply keeps_for_each. intros table Hin.
  apply keeps_bind; [apply keeps_logging|]. intros _. by apply keeps_delete_from.
Qed.
Local Hint Resolve keeps_delete_existing_records : keeps.

Lemma keeps_load_files fs : keeps_elsewhere (load_files fs).
Proof. unfold load_files, insert_customers, insert_products. keeps. Qed.
Local Hint Resolve keeps_load_files : keeps.

Lemma keeps_load_tables fs : keeps_elsewhere (load_tables fs).
Proof.
  unfold load_tables, insert_dim_date.
  apply keeps_bind; [apply keeps_logging|intros _].
  apply keeps_bind; [apply keeps_lift|intros df].
  apply keeps_bind; [|intros _; apply keeps_load_files].
  apply keeps_bind; [|intros _; apply keeps_logging].
  apply keeps_to_sql. apply in_pipeline_tables. tauto.
Qed.
Local Hint Resolve keeps_load_tables : keeps.


(** A run is the rest of the pipeline on the fresh schema. *)
Lemma run_from_fresh_schema truncate fs (d : gmap string table) :
  run truncate fs d =
  ((after_schema truncate fs (mkState (fresh_schema d) None true)).1.1,
   durable (after_schema truncate fs (mkState (fresh_schema d) None true)).1.2).
Proof.
  unfold run. rewrite load_data_to_db_parts.
  erewrite bind_Ok by reflexivity. cbn [fst snd app].
  erewrite bind_Ok by apply create_schema_run. cbn [fst snd app db snapshot pragma_foreign_keys connect].
  by destruct (after_schema truncate fs _) as [[r st] l].
Qed.






Lemma outcome_logging l msg (st : state) : outcome (logging l msg st) = (Ok (), st).
Proof. reflexivity. Qed.

Lemma delete_from_empty name t (st : state) :
  db st !! name = Some t → trows t = ∅ →
  outcome (delete_from name st)
  = (Ok (), mkState (db st) (Some (durable st)) (pragma_foreign_keys st)).
Proof.
  intros Ht He. unfold delete_from. rewrite outcome_bind. cbn.
  rewrite Ht. rewrite outcome_bind. cbn. unfold outcome. cbn.
  do 2 f_equal. rewrite <- He. destruct t; cbn. by apply insert_id.
Qed.

Lemma outcome_bind_Ok {A B} (m : M A) (k : A → M B) (st st' : state) a :
  outcome (m st) = (Ok a, st') → outcome (bind m k st) = outcome (k a st').
Proof. intros H. by rewrite outcome_bind, H. Qed.

Lemma delete_existing_records_fresh (d : gmap string table) fk :
  outcome (delete_existing_records (mkState (fresh_schema d) None fk))
  = (Ok (), mkState (fresh_schema d) (Some (fresh_schema d)) fk).
Proof.
  unfold delete_existing_records. cbn [for_each].
  repeat (erewrite outcome_bind_Ok;
          [|erewrite outcome_bind_Ok by apply outcome_logging;
            eapply delete_from_empty; [cbn [db]; by rewrite fresh_schema_lookup|done]];
          cbn [db snapshot pragma_foreign_keys durable default]).
  reflexivity.
Qed.

Lemma fixed_range_rows :
  ∃ df, generate_date_dimension "2022-01-01" "2026-01-01" = Ok df ∧ rows df ≠ [].
Proof.
  eexists. split.
  - unfold generate_date_dimension.
    change (Calendar.strptime "2022-01-01") with (Ok (Calendar.mkDate 2022 1 1)).
    change (Calendar.strptime "2026-01-01") with (Ok (Calendar.mkDate 2026 1 1)).
    cbn [mbind result_bind].
    change (Calendar.date_range _ _)
      with (Calendar.days_from 1462 (Calendar.mkDate 2022 1 1)).
    reflexivity.
  - done.
Qed.

Lemma to_sql_begin_agree name df t (d : gmap string table) fk :
  rows df ≠ [] → d !! name = Some t →
  outcome (to_sql name df (mkState d None fk))
  = outcome (to_sql name df (mkState d (Some d) fk)).
Proof.
  intros Hr Ht. unfold to_sql.
  rewrite !outcome_bind.
  rewrite !(create_table_present name _ t) by done. cbn.
  destruct (rows df) as [|r rs] eqn:Hrows; [done|].
  rewrite !outcome_bind. reflexivity.
Qed.

Lemma load_tables_begin_agree fs (d : gmap string table) fk :
  outcome (load_tables fs (mkState (fresh_schema d) None fk))
  = outcome (load_tables fs (mkState (fresh_schema d) (Some (fresh_schema d)) fk)).
Proof.
  destruct fixed_range_rows as (df & Hdf & Hrows).
  unfold load_tables. rewrite !outcome_bind, !outcome_logging.
  rewrite !outcome_bind. unfold lift. rewrite Hdf. cbn [outcome fst snd].
  apply outcome_bind_agree. unfold insert_dim_date.
  apply outcome_bind_agree.
  apply (to_sql_begin_agree _ _ dim_date_table); [done|].
  by rewrite fresh_schema_lookup.
Qed.

(** The flag makes no difference to what follows [create_schema]. *)
Lemma after_schema_flag truncate fs (d : gmap string table) :
  outcome (after_schema truncate fs (mkState (fresh_schema d) None true))
  = outcome (load_tables fs (mkState (fresh_schema d) None true)).
Proof.
  unfold after_schema. rewrite outcome_bind. destruct truncate.
  - rewrite delete_existing_records_fresh. cbn [outcome fst snd].
    symmetry. apply load_tables_begin_agree.
  - reflexivity.
Qed.


End PipelineFacts.

(** ** Frames *)

Section FrameFacts.
Context `{F : Float64}.
Implicit Types (df : DataFrame) (r : list cell) (cols : list string) (l : string).
(** *** Positions and cells by label *)

Lemma elem_of_positions_from i l cols p :
  p ∈ positions_from i l cols ↔ (i ≤ p)%nat ∧ cols !! (p - i)%nat = Some l.
Proof.
  revert i. induction cols as [|c cs IH]; intros i; cbn [positions_from].
  - rewrite elem_of_nil. naive_solver.
  - case_decide as Hc.
    + rewrite elem_of_cons, IH. subst c. split.
      * intros [->|[Hle Hl]].
        -- split; [lia|]. by replace (i - i)%nat with 0%nat by lia.
        -- split; [lia|]. by replace (p - i)%nat with (S (p - S i)) by lia.
      * intros [Hle Hl]. destruct (decide (p = i)) as [->|Hne]; [by left|right].
        split; [lia|]. by replace (p - i)%nat with (S (p - S i)) in Hl by lia.
    + rewrite IH. split.
      * intros [Hle Hl]. split; [lia|]. by replace (p - i)%nat with (S (p - S i)) by lia.
      * intros [Hle Hl]. destruct (decide (p = i)) as [->|Hne].
        { replace (i - i)%nat with 0%nat in Hl by lia. naive_solver. }
        split; [lia|]. by replace (p - i)%nat with (S (p - S i)) in Hl by lia.
Qed.

Lemma elem_of_positions l cols p : p ∈ positions l cols ↔ cols !! p = Some l.
Proof.
  unfold positions. rewrite elem_of_positions_from.
  replace (p - 0)%nat with p by lia. naive_solver lia.
Qed.

Lemma positions_nil l cols : positions l cols = [] ↔ l ∉ cols.
Proof.
  split.
  - intros Hp [p Hl]%list_elem_of_lookup. apply elem_of_positions in Hl.
    rewrite Hp in Hl. by apply elem_of_nil in Hl.
  - intros Hl. destruct (positions l cols) as [|p ps] eqn:Hp; [done|].
    exfalso. apply Hl. apply (list_elem_of_lookup_2 _ p).
    apply elem_of_positions. rewrite Hp. by left.
Qed.

Lemma value_of_single cols r l p :
  positions l cols = [p] → value_of cols r l = cell_at p r.
Proof. unfold value_of. by intros ->. Qed.

Lemma positions_single_lookup cols l p :
  positions l cols = [p] → cols !! p = Some l.
Proof. intros H. apply elem_of_positions. rewrite H. by left. Qed.

Lemma value_of_head cols r l p ps :
  positions l cols = p :: ps → value_of cols r l = cell_at p r ∧ cols !! p = Some l.
Proof.
  intros H. unfold value_of. rewrite H. split; [done|].
  apply elem_of_positions. rewrite H. by left.
Qed.

Lemma cell_at_insert_eq p c r :
  (p < length r)%nat → cell_at p (<[p := c]> r) = c.
Proof. intros. unfold cell_at. by rewrite list_lookup_insert_eq. Qed.

Lemma cell_at_insert_ne p q c r :
  p ≠ q → cell_at q (<[p := c]> r) = cell_at q r.
Proof. intros. unfold cell_at. by rewrite list_lookup_insert_ne. Qed.

(** Writing the one column labelled [l] changes the cell under [l] and no
    cell under another label. *)
Lemma value_of_insert_eq cols r l p c :
  positions l cols = [p] → length r = length cols →
  value_of cols (<[p := c]> r) l = c.
Proof.
  intros Hp Hlen. rewrite (value_of_single _ _ _ p Hp).
  apply cell_at_insert_eq. rewrite Hlen.
  apply positions_single_lookup in Hp. by apply lookup_lt_Some in Hp.
Qed.

Lemma value_of_insert_ne cols r l l' p c :
  cols !! p = Some l → l' ≠ l →
  value_of cols (<[p := c]> r) l' = value_of cols r l'.
Proof.
  intros Hp Hne. unfold value_of.
  destruct (positions l' cols) as [|q qs] eqn:Hq; [done|].
  apply cell_at_insert_ne. intros ->.
  assert (cols !! q = Some l') as Hq'.
  { apply elem_of_positions. rewrite Hq. by left. }
  congruence.
Qed.

(** *** [df[l]] as a series *)

Lemma series_Ok e l df p :
  series e l df = Ok p → positions l (columns df) = [p].
Proof.
  unfold series. destruct (positions l (columns df)) as [|q [|q' qs]]; [done| |done].
  by intros [= ->].
Qed.

Lemma series_of_positions e l df p :
  positions l (columns df) = [p] → series e l df = Ok p.
Proof. unfold series. by intros ->. Qed.

(** *** Column-wise updates *)

Lemma mapM_Ok {A B} (f : A → result B) (xs : list A) (ys : list B) :
  mapM f xs = Ok ys → Forall2 (λ x y, f x = Ok y) xs ys.
Proof.
  revert ys. induction xs as [|x xs IH]; intros ys; cbn.
  - intros [= <-]. constructor.
  - destruct (f x) as [y|e] eqn:Hx; cbn; [|done].
    destruct (mapM f xs) as [ys'|e] eqn:Hxs; cbn; [|done].
    intros [= <-]. constructor; auto.
Qed.

Lemma update_column_Ok p (f : cell → result cell) df df' :
  update_column p f df = Ok df' →
  columns df' = columns df ∧
  Forall2 (λ a b : Z * list cell,
             b.1 = a.1 ∧ ∃ c, f (cell_at p a.2) = Ok c ∧ b.2 = <[p := c]> a.2)
    (rows df) (rows df').
Proof.
  unfold update_column.
  destruct (mapM _ (rows df)) as [rs|e] eqn:Hm; cbn; [|done].
  intros [= <-]. split; [done|]. cbn.
  apply mapM_Ok in Hm. eapply Forall2_impl; [exact Hm|].
  intros a b. cbn. destruct (f (cell_at p a.2)) as [c|]; cbn; [|done].
  intros [= <-]. eauto.
Qed.

Lemma update_column_well_formed p f df df' :
  update_column p f df = Ok df' → well_formed df → well_formed df'.
Proof.
  intros [Hc Hr]%update_column_Ok Hwf. unfold well_formed in *. rewrite Hc.
  induction Hr as [|a b ?? (_ & c & _ & Hb)]; [constructor|].
  inversion Hwf; subst. constructor; auto. rewrite Hb, length_insert. done.
Qed.

(** *** Selecting columns *)

Lemma getitem_list_Ok labels df df' :
  getitem_list labels df = Ok df' →
  Forall (λ l, l ∈ columns df) labels ∧
  columns df' = (λ p, default "" (columns df !! p)) <$> (labels ≫= λ l, positions l (columns df)) ∧
  rows df' = (λ a : Z * list cell,
                (a.1, (λ p, cell_at p a.2) <$> (labels ≫= λ l, positions l (columns df))))
             <$> rows df.
Proof.
  unfold getitem_list. case_decide as Hm; [|done]. intros [= <-]. cbn.
  split; [|done]. apply Forall_forall. intros l Hl.
  destruct (decide (l ∈ columns df)) as [|Hn]; [done|].
  assert (l ∈ filter (λ l, l ∉ columns df) labels) as Hin by (by apply list_elem_of_filter).
  rewrite Hm in Hin. by apply elem_of_nil in Hin.
Qed.

Lemma getitem_list_well_formed labels df df' :
  getitem_list labels df = Ok df' → well_formed df'.
Proof.
  intros (_ & Hc & Hr)%getitem_list_Ok. unfold well_formed. rewrite Hc, Hr.
  apply Forall_fmap, Forall_true. intros a. cbn. by rewrite !length_fmap.
Qed.

Lemma positions_from_S i l cols :
  positions_from (S i) l cols = S <$> positions_from i l cols.
Proof.
  revert i. induction cols as [|c cs IH]; intros i; cbn [positions_from]; [done|].
  case_decide; cbn; by rewrite IH.
Qed.

Lemma positions_cons l c cols :
  positions l (c :: cols) =
  if decide (c = l) then 0%nat :: (S <$> positions l cols) else S <$> positions l cols.
Proof.
  unfold positions. cbn [positions_from]. by rewrite positions_from_S.
Qed.

Lemma value_of_cons cols r l c x :
  value_of (c :: cols) (x :: r) l = if decide (c = l) then x else value_of cols r l.
Proof.
  unfold value_of. rewrite positions_cons. case_decide; [done|].
  by destruct (positions l cols).
Qed.

Lemma value_of_nil r l : value_of [] r l = NA.
Proof. done. Qed.

Lemma value_of_app A B ra rb l :
  length ra = length A →
  value_of (A ++ B) (ra ++ rb) l = if decide (l ∈ A) then value_of A ra l else value_of B rb l.
Proof.
  revert ra. induction A as [|c A IH]; intros [|x ra] Hlen; try done.
  cbn [app]. rewrite !value_of_cons. rewrite IH by (cbn in Hlen; lia).
  destruct (decide (c = l)) as [->|Hne].
  - rewrite decide_True by left. done.
  - destruct (decide (l ∈ A)) as [Hin|Hin].
    + rewrite decide_True by (by right). done.
    + rewrite decide_False; [done|]. rewrite elem_of_cons. naive_solver.
Qed.

(** The columns [df[[l]]] picks for one label. *)
Lemma value_of_group cols r l (ps : list nat) :
  Forall (λ p, cols !! p = Some l) ps →
  value_of ((λ p, default "" (cols !! p)) <$> ps) ((λ p, cell_at p r) <$> ps) l
  = match ps with p :: _ => cell_at p r | [] => NA end.
Proof.
  destruct ps as [|p ps]; [done|]. intros [Hp _]%Forall_cons.
  cbn [fmap list_fmap]. rewrite value_of_cons, Hp. cbn. by rewrite decide_True.
Qed.

Lemma group_labels cols l (ps : list nat) l' :
  Forall (λ p, cols !! p = Some l) ps →
  l' ∈ ((λ p, default "" (cols !! p)) <$> ps) → l' = l.
Proof.
  intros Hps (p & -> & Hp)%list_elem_of_fmap.
  rewrite Forall_forall in Hps. by rewrite (Hps p Hp).
Qed.

Lemma positions_Forall l cols : Forall (λ p, cols !! p = Some l) (positions l cols).
Proof. apply Forall_forall. intros p. apply elem_of_positions. Qed.

(** The cell a row of [df[labels]] holds under one of the labels is the
    cell the row of [df] holds under it. *)
Lemma value_of_select cols r labels l :
  l ∈ labels → l ∈ cols →
  value_of ((λ p, default "" (cols !! p)) <$> (labels ≫= λ l, positions l cols))
           ((λ p, cell_at p r) <$> (labels ≫= λ l, positions l cols)) l
  = value_of cols r l.
Proof.
  intros Hl Hc. induction labels as [|l0 ls IH]; [by apply elem_of_nil in Hl|].
  cbn [mbind list_bind]. rewrite !fmap_app.
  rewrite value_of_app by (by rewrite !length_fmap).
  pose proof (positions_Forall l0 cols) as Hps.
  destruct (decide (l = l0)) as [->|Hne].
  - destruct (positions l0 cols) as [|p ps] eqn:Hp.
    { apply positions_nil in Hp. done. }
    rewrite decide_True.
    2:{ cbn [fmap list_fmap]. apply Forall_cons in Hps as [-> _]. by left. }
    rewrite value_of_group by done. unfold value_of. by rewrite Hp.
  - rewrite decide_False.
    + apply IH. apply elem_of_cons in Hl as [?|?]; done.
    + intros Hin. apply (group_labels _ _ _ _ Hps) in Hin. done.
Qed.

Lemma getitem_list_value labels df df' l :
  getitem_list labels df = Ok df' → l ∈ labels →
  Forall2 (λ a b : Z * list cell,
             b.1 = a.1 ∧ value_of (columns df') b.2 l = value_of (columns df) a.2 l)
    (rows df) (rows df').
Proof.
  intros (Hall & Hc & Hr)%getitem_list_Ok Hl. rewrite Hc, Hr.
  apply Forall2_fmap_r, Forall_Forall2_diag, Forall_true. intros a. cbn.
  split; [done|]. apply value_of_select; [done|].
  rewrite Forall_forall in Hall. auto.
Qed.

(** *** [dropna] *)

Lemma dropna_Ok labels df df' :
  dropna labels df = Ok df' →
  columns df' = columns df ∧
  rows df' = filter (λ a : Z * list cell,
               Forall (λ p, isna (cell_at p a.2) = false)
                 (labels ≫= λ l, positions l (columns df))) (rows df).
Proof. unfold dropna. case_decide; [|done]. by intros [= <-]. Qed.

Lemma dropna_kept labels df r :
  (∀ l, l ∈ labels → ∃ p, positions l (columns df) = [p]) →
  Forall (λ p, isna (cell_at p r) = false) (labels ≫= λ l, positions l (columns df))
  ↔ ∀ l, l ∈ labels → isna (value_of (columns df) r l) = false.
Proof.
  intros Huniq. rewrite Forall_forall. split.
  - intros H l Hl. destruct (Huniq l Hl) as [p Hp].
    rewrite (value_of_single _ _ _ p Hp). apply H.
    apply list_elem_of_bind. exists l. split; [|done]. rewrite Hp. by left.
  - intros H p (l & Hp & Hl)%list_elem_of_bind.
    destruct (Huniq l Hl) as [q Hq]. rewrite Hq in Hp.
    apply list_elem_of_singleton in Hp as ->.
    rewrite <- (value_of_single _ _ _ q Hq). by apply H.
Qed.

(** *** [keep_first] *)

Lemma keep_first_sublist {A K} `{EqDecision K} (key : A → K) seen (xs : list A) :
  keep_first key seen xs `sublist_of` xs.
Proof.
  revert seen. induction xs as [|x xs IH]; intros seen; cbn; [constructor|].
  case_decide; [apply sublist_cons|apply sublist_skip]; auto.
Qed.

Lemma keep_first_keys {A K} `{EqDecision K} (key : A → K) seen (xs : list A) :
  NoDup (key <$> keep_first key seen xs) ∧
  ∀ x, x ∈ keep_first key seen xs → key x ∉ seen.
Proof.
  revert seen. induction xs as [|x xs IH]; intros seen; cbn.
  - split; [constructor|]. intros x Hx. by apply elem_of_nil in Hx.
  - case_decide as Hs; [apply IH|].
    destruct (IH (key x :: seen)) as [Hnd Hout]. split.
    + cbn. constructor; [|done].
      intros (y & Hy & Hin)%list_elem_of_fmap. apply (Hout y Hin).
      rewrite <- Hy. by left.
    + intros y [->|Hy]%elem_of_cons; [done|].
      intros Hin. apply (Hout y Hy). by right.
Qed.

(** The row kept for a key is the first row of the list with that key. *)
Lemma keep_first_first {A K} `{EqDecision K} (key : A → K) seen (xs : list A) x :
  x ∈ keep_first key seen xs →
  ∃ pre post : list A, xs = (pre ++ x :: post)%list ∧ ∀ y, y ∈ pre → key y ≠ key x.
Proof.
  revert seen. induction xs as [|x0 xs IH]; intros seen; cbn.
  - intros Hx. by apply elem_of_nil in Hx.
  - case_decide as Hs.
    + intros Hx. pose proof (keep_first_keys key seen xs) as [_ Hout].
      destruct (IH _ Hx) as (pre & post & -> & Hpre). exists (x0 :: pre), post.
      split; [done|]. intros y [->|Hy]%elem_of_cons; [|by auto].
      intros Heq. apply (Hout x Hx). by rewrite <- Heq.
    + intros [->|Hx]%elem_of_cons.
      * exists [], xs. split; [done|]. intros y Hy. by apply elem_of_nil in Hy.
      * pose proof (keep_first_keys key (key x0 :: seen) xs) as [_ Hout].
        destruct (IH _ Hx) as (pre & post & -> & Hpre). exists (x0 :: pre), post.
        split; [done|]. intros y [->|Hy]%elem_of_cons; [|by auto].
        intros Heq. apply (Hout x Hx). rewrite <- Heq. by left.
Qed.

(** Every key of the list has its row in the result. *)
Lemma keep_first_complete {A K} `{EqDecision K} (key : A → K) seen (xs : list A) x :
  x ∈ xs → key x ∉ seen → key x ∈ key <$> keep_first key seen xs.
Proof.
  revert seen. induction xs as [|x0 xs IH]; intros seen Hx Hs; cbn.
  - by apply elem_of_nil in Hx.
  - apply elem_of_cons in Hx as [->|Hx].
    + rewrite decide_False by done. cbn. by left.
    + case_decide; [by apply IH|]. cbn.
      destruct (decide (key x = key x0)) as [->|Hne]; [by left|right].
      apply IH; [done|]. rewrite elem_of_cons. naive_solver.
Qed.

Lemma drop_duplicates_Ok key df df' :
  drop_duplicates key df = Ok df' →
  columns df' = columns df ∧
  rows df' = keep_first (λ a : Z * list cell,
               (λ p, cell_at p a.2) <$> positions key (columns df)) [] (rows df).
Proof.
  unfold drop_duplicates. destruct (positions key (columns df)); [done|].
  by intros [= <-].
Qed.

(** *** Sublists under a row relation *)

Lemma sublist_Forall2 {A B} (R : A → B → Prop) (xs : list A) (ys ys' : list B) :
  Forall2 R xs ys → ys' `sublist_of` ys →
  ∃ xs', xs' `sublist_of` xs ∧ Forall2 R xs' ys'.
Proof.
  intros HR. revert ys'. induction HR as [|x y xs ys Hxy HR IH]; intros ys' Hs.
  - apply sublist_nil_r in Hs as ->. exists []. split; constructor.
  - inversion Hs as [|y0 k1 k2 Hs'|y0 k1 k2 Hs']; subst.
    + destruct (IH _ Hs') as (xs' & ? & ?). exists (x :: xs').
      split; [by apply sublist_skip|by constructor].
    + destruct (IH _ Hs') as (xs' & ? & ?). exists xs'. split; [by apply sublist_cons|done].
Qed.

End FrameFacts.

(** ** The dimension normalisers *)

Section DimensionFacts.
Context `{F : Float64}.
Implicit Types (df : DataFrame).
Lemma norm_customers_dimension df :
  norm_customers df
  = dimension Text.class_C "customer_segmentid" "customer_segment"
      (rename customer_renames (normalize_headers df)).
Proof. reflexivity. Qed.

Lemma norm_products_dimension df :
  norm_products df
  = dimension Text.class_P "product_id" "product_variant" (rename product_renames df).
Proof. reflexivity. Qed.

Lemma keep_first_ext {A K} `{EqDecision K} (k1 k2 : A → K) seen (xs : list A) :
  (∀ x, k1 x = k2 x) → keep_first k1 seen xs = keep_first k2 seen xs.
Proof.
  intros Hk. revert seen. induction xs as [|x xs IH]; intros seen; cbn; [done|].
  rewrite Hk. case_decide; by rewrite IH.
Qed.

Lemma keep_first_inj {A K K'} `{EqDecision K, EqDecision K'} (g : K → K') (k : A → K)
    seen (xs : list A) :
  Inj (=) (=) g →
  keep_first (λ x, g (k x)) (g <$> seen) xs = keep_first k seen xs.
Proof.
  intros Hg. revert seen. induction xs as [|x xs IH]; intros seen; cbn; [done|].
  destruct (decide (k x ∈ seen)) as [Hin|Hin].
  - rewrite decide_True by (by apply list_elem_of_fmap_2). apply IH.
  - rewrite decide_False.
    + f_equal. apply (IH (k x :: seen)).
    + intros (y & Hy & Hyin)%list_elem_of_fmap. apply Hg in Hy. by subst.
Qed.

Lemma keep_first_inj_nil {A K K'} `{EqDecision K, EqDecision K'} (g : K → K') (k : A → K)
    (xs : list A) :
  Inj (=) (=) g → keep_first (λ x, g (k x)) [] xs = keep_first k [] xs.
Proof. intros Hg. apply (keep_first_inj g k [] xs Hg). Qed.

Lemma filter_split {A} (P : A → Prop) `{∀ x, Decision (P x)} (xs front back : list A) x :
  filter P xs = (front ++ x :: back)%list →
  ∃ pre post : list A, xs = (pre ++ x :: post)%list ∧ filter P pre = front.
Proof.
  revert front. induction xs as [|x0 xs IH]; intros front.
  - destruct front; done.
  - rewrite filter_cons. case_decide as HP.
    + destruct front as [|f front]; cbn.
      * intros [= -> Hb]. exists [], xs. done.
      * intros [= -> Hb]. destruct (IH _ Hb) as (pre & post & -> & Hf).
        exists (f :: pre), post. split; [done|]. rewrite filter_cons, decide_True by done.
        by rewrite Hf.
    + intros Hb. destruct (IH _ Hb) as (pre & post & -> & Hf).
      exists (x0 :: pre), post. split; [done|]. by rewrite filter_cons, decide_False.
Qed.

(** What [dimension] returns, row by row. *)
Lemma dimension_Ok cls key other df out :
  key ≠ other →
  dimension cls key other df = Ok out →
  ∃ mid,
    Forall2 (dimension_row cls key other (columns df) (columns out)) (rows df) mid ∧
    rows out = keep_first (λ a : Z * list cell, value_of (columns out) a.2 key) []
                 (filter (λ a : Z * list cell,
                            isna (value_of (columns out) a.2 key) = false) mid).
Proof.
  intros Hne. unfold dimension.
  destruct (getitem_list [key; other] df) as [df1|] eqn:H1; cbn; [|done].
  destruct (series _ key df1) as [p|] eqn:H2; cbn; [|done].
  destruct (update_column p _ df1) as [df2|] eqn:H3; cbn; [|done].
  destruct (dropna [key] df2) as [df3|] eqn:H4; cbn; [|done].
  intros H5. unfold drop_dupes in H5.
  apply series_Ok in H2.
  pose proof (getitem_list_well_formed _ _ _ H1) as Hwf.
  pose proof (getitem_list_value _ _ _ key H1 ltac:(by left)) as Hk.
  pose proof (getitem_list_value _ _ _ other H1 ltac:(right; by left)) as Ho.
  apply update_column_Ok in H3 as [Hc2 Hr2].
  apply dropna_Ok in H4 as [Hc3 Hr3].
  apply drop_duplicates_Ok in H5 as [Hc5 Hr5].
  assert (columns out = columns df1) as Hcols by congruence.
  exists (rows df2). split.
  - rewrite Hcols.
    assert (Forall2 (λ a b : Z * list cell,
              b.1 = a.1 ∧ value_of (columns df1) b.2 key = value_of (columns df) a.2 key
              ∧ value_of (columns df1) b.2 other = value_of (columns df) a.2 other
              ∧ length b.2 = length (columns df1)) (rows df) (rows df1)) as H01.
    { clear -Hk Ho Hwf. unfold well_formed in Hwf.
      revert Hk Ho Hwf. generalize (rows df1). generalize (rows df).
      induction l as [|a l IH]; intros l' Hk Ho Hwf; inversion Hk; subst; [constructor|].
      inversion Ho; subst. inversion Hwf; subst. constructor; [naive_solver|]. auto. }
    clear Hk Ho Hr3 Hr5. revert Hr2 H01. generalize (rows df2). generalize (rows df1).
    intros l1 l2 H12 H01. revert l2 H12.
    induction H01 as [|a b l0 l1 (Hl & Hvk & Hvo & Hlen) _ IH]; intros l2 H12.
    + inversion H12. constructor.
    + inversion H12 as [|? m ?? (Hm1 & c & Hf & Hm2) H12']; subst.
      constructor; [|by apply IH].
      unfold dimension_row. rewrite Hm2. split_and!.
      * congruence.
      * rewrite value_of_insert_eq by done.
        by rewrite <- Hvk, (value_of_single _ _ _ p H2).
      * rewrite (value_of_insert_ne _ _ key) ; [done| |done].
        by apply positions_single_lookup.
  - rewrite Hr5, Hr3, Hc3, Hc2, Hcols. cbn [mbind list_bind app]. rewrite H2.
    rewrite (keep_first_ext _ (λ a : Z * list cell, [value_of (columns df1) a.2 key])).
    2:{ intros a. cbn. by rewrite (value_of_single _ _ _ p H2). }
    rewrite (keep_first_inj_nil (λ c : cell, [c]) (λ a : Z * list cell, value_of (columns df1) a.2 key)).
    2:{ by intros ?? [=]. }
    f_equal. apply list_filter_iff. intros a. cbn.
    rewrite (value_of_single _ _ _ p H2). rewrite Forall_singleton. done.
Qed.

(** The keys of a dimension are natural numbers, each extracted from the
    code of the first input row that yields it, and no key comes twice. *)
Lemma dimension_keys cls key other df out :
  key ≠ other →
  dimension cls key other df = Ok out →
  NoDup (column key out) ∧
  ∀ m, m ∈ rows out →
    ∃ (pre post : list (Z * list cell)) r k,
      rows df = (pre ++ r :: post)%list ∧
      dimension_row cls key other (columns df) (columns out) r m ∧
      value_of (columns out) m.2 key = IntCell k ∧ 0 ≤ k ∧
      ∀ y, y ∈ pre →
        extract_key cls (astype_str (value_of (columns df) y.2 key)) ≠ Ok (IntCell k).
Proof.
  intros Hne (mid & Hmid & Hout)%dimension_Ok; [|done].
  split.
  { unfold column. rewrite Hout. apply keep_first_keys. }
  intros m Hm. rewrite Hout in Hm.
  pose proof (elem_of_sublist _ _ _ Hm (keep_first_sublist _ _ _)) as Hmf.
  apply list_elem_of_filter in Hmf as [Hna _].
  apply keep_first_first in Hm as (front & back & Hsplit & Hfront).
  apply filter_split in Hsplit as (pre' & post' & -> & Hpre').
  apply Forall2_app_inv_r in Hmid as (pre & rest & Hpre & Hrest & ->).
  apply Forall2_cons_inv_r in Hrest as (r & post & Hrm & Hpost & ->).
  destruct Hrm as (Hl & Hk & Ho).
  destruct (extract_key_cases cls _ _ Hk) as [[HNA _]|(ds & _ & Hint & Hrange)].
  { rewrite HNA in Hna. done. }
  exists pre, post, r, (Text.int_of_digits ds). split_and!; try done; [lia|].
  intros y Hy Hyk.
  apply list_elem_of_lookup in Hy as [i Hi].
  destruct (Forall2_lookup_l _ _ _ _ _ Hpre Hi) as (y' & Hi' & _ & Hyk' & _).
  rewrite Hyk in Hyk'. injection Hyk' as Hyk'.
  apply (Hfront y').
  - rewrite <- Hpre'. apply list_elem_of_filter. split.
    + by rewrite <- Hyk'.
    + by apply list_elem_of_lookup_2 in Hi'.
  - by rewrite <- Hyk', Hint.
Qed.

(** The rows of a dimension are normal forms of input rows, in input
    order. *)
Lemma dimension_order cls key other df out :
  key ≠ other →
  dimension cls key other df = Ok out →
  ∃ sub, sub `sublist_of` rows df ∧
    Forall2 (dimension_row cls key other (columns df) (columns out)) sub (rows out).
Proof.
  intros Hne (mid & Hmid & Hout)%dimension_Ok; [|done].
  apply (sublist_Forall2 _ _ _ _ Hmid). rewrite Hout.
  etrans; [apply keep_first_sublist|apply sublist_filter].
Qed.

End DimensionFacts.

(** ** The sales normaliser *)

Section SalesFacts.
Context `{F : Float64}.
Implicit Types (df : DataFrame).
Lemma norm_sales_parts df :
  norm_sales df = (x ← sales_cleaned df; Ok (renumbered x.1 x.2)).
Proof.
  unfold norm_sales, sales_cleaned. case_decide; [|done].
  repeat match goal with
  | |- context [?m ≫= _] =>
      match m with
      | getitem_list _ _ => destruct m; cbn [mbind result_bind]; [|done]
      | series _ _ _ => destruct m; cbn [mbind result_bind]; [|done]
      | update_column _ _ _ => destruct m; cbn [mbind result_bind]; [|done]
      | dropna _ _ => destruct m; cbn [mbind result_bind]; [|done]
      end
  end.
  reflexivity.
Qed.

(** One coercion step. *)
Lemma coerced_step done hdr e l (f : cell → result cell) df df' p xs :
  series e l df = Ok p →
  update_column p f df = Ok df' →
  well_formed df →
  Forall2 (coerced done hdr (columns df)) xs (rows df) →
  l ∈ required → l ∉ done →
  (∀ c, f c = coerce_sales l c) →
  columns df' = columns df ∧ well_formed df' ∧
  Forall2 (coerced (l :: done) hdr (columns df')) xs (rows df').
Proof.
  intros Hs Hu Hwf Hxs Hl Hnd Hf.
  pose proof (update_column_well_formed _ _ _ _ Hu Hwf) as Hwf'.
  apply series_Ok in Hs. apply update_column_Ok in Hu as [Hc Hr].
  split_and!; [done..|]. rewrite Hc.
  unfold well_formed in Hwf. revert Hr Hwf. generalize (rows df'). clear Hwf'.
  induction Hxs as [|r a xs ys [Ha Hcells] _ IH]; intros ms Hr Hwf.
  - inversion Hr. constructor.
  - inversion Hr as [|? m ?? (Hm1 & c & Hfc & Hm2) Hr']; subst.
    inversion Hwf as [|?? Hlen Hwf']; subst.
    constructor; [|by apply IH].
    split; [congruence|]. intros k Hk. specialize (Hcells k Hk).
    rewrite Hm2. destruct (decide (k = l)) as [->|Hne].
    + rewrite decide_True by left. rewrite decide_False in Hcells by done.
      rewrite value_of_insert_eq by done.
      rewrite <- Hf, <- Hcells, (value_of_single _ _ _ p Hs). done.
    + rewrite (value_of_insert_ne _ _ l) by (by apply positions_single_lookup || done).
      destruct (decide (k ∈ done)) as [Hin|Hin].
      * rewrite decide_True by (by right). done.
      * rewrite decide_False; [done|]. rewrite elem_of_cons. naive_solver.
Qed.

Lemma getitem_list_coerced labels df df' :
  getitem_list labels df = Ok df' →
  Forall2 (λ a b : Z * list cell,
             b.1 = a.1 ∧
             ∀ l, l ∈ labels → value_of (columns df') b.2 l = value_of (columns df) a.2 l)
    (rows df) (rows df').
Proof.
  intros (Hall & Hc & Hr)%getitem_list_Ok. rewrite Hc, Hr.
  apply Forall2_fmap_r, Forall_Forall2_diag, Forall_true. intros a. cbn.
  split; [done|]. intros l Hl. apply value_of_select; [done|].
  rewrite Forall_forall in Hall. auto.
Qed.

Lemma dropna_well_formed labels df df' :
  dropna labels df = Ok df' → well_formed df → well_formed df'.
Proof.
  intros [Hc Hr]%dropna_Ok Hwf. unfold well_formed in *. rewrite Hc, Hr.
  apply Forall_forall. intros x [_ Hx]%list_elem_of_filter.
  rewrite Forall_forall in Hwf. auto.
Qed.

Lemma in_required l :
  l ∈ required ↔
  l = "sales_id" ∨ l = "customer_segmentid" ∨ l = "product_id" ∨ l = "units_sold" ∨
  l = "sale_date" ∨ l = "sale_amount" ∨ l = "profit_margin".
Proof. unfold required. rewrite !elem_of_cons, elem_of_nil. tauto. Qed.

(** What [sales_cleaned] returns, row by row. *)
Lemma sales_cleaned_Ok df sid c :
  sales_cleaned df = Ok (sid, c) →
  positions "sales_id" (columns c) = [sid] ∧
  (∀ l, l ∈ ["customer_segmentid"; "product_id"; "sale_amount"] →
        ∃ p, positions l (columns c) = [p]) ∧
  well_formed c ∧
  ∃ mid,
    Forall2 (coerced required (sales_header df) (columns c)) (rows df) mid ∧
    rows c = filter (λ a : Z * list cell,
               Forall (λ l, isna (value_of (columns c) a.2 l) = false)
                 ["customer_segmentid"; "product_id"; "sale_amount"]) mid.
Proof.
  unfold sales_cleaned, sales_header.
  set (df0 := rename sales_renames (normalize_headers df)).
  case_decide as Hmiss; [|done].
  destruct (getitem_list required df0) as [d1|] eqn:H1; cbn [mbind result_bind]; [|done].
  destruct (series _ "customer_segmentid" d1) as [p1|] eqn:S1; cbn [mbind result_bind]; [|done].
  destruct (update_column p1 _ d1) as [d2|] eqn:U1; cbn [mbind result_bind]; [|done].
  destruct (series _ "product_id" d2) as [p2|] eqn:S2; cbn [mbind result_bind]; [|done].
  destruct (update_column p2 _ d2) as [d3|] eqn:U2; cbn [mbind result_bind]; [|done].
  destruct (series _ "sales_id" d3) as [p3|] eqn:S3; cbn [mbind result_bind]; [|done].
  destruct (update_column p3 _ d3) as [d4|] eqn:U3; cbn [mbind result_bind]; [|done].
  destruct (series _ "units_sold" d4) as [p4|] eqn:S4; cbn [mbind result_bind]; [|done].
  destruct (update_column p4 _ d4) as [d5|] eqn:U4; cbn [mbind result_bind]; [|done].
  destruct (series _ "sale_amount" d5) as [p5|] eqn:S5; cbn [mbind result_bind]; [|done].
  destruct (update_column p5 _ d5) as [d6|] eqn:U5; cbn [mbind result_bind]; [|done].
  destruct (series _ "profit_margin" d6) as [p6|] eqn:S6; cbn [mbind result_bind]; [|done].
  destruct (update_column p6 _ d6) as [d7|] eqn:U6; cbn [mbind result_bind]; [|done].
  destruct (dropna _ d7) as [d8|] eqn:D; cbn [mbind result_bind]; [|done].
  intros [= <- <-].
  pose proof (getitem_list_well_formed _ _ _ H1) as W1.
  assert (Forall2 (coerced [] (columns df0) (columns d1)) (rows df) (rows d1)) as R1.
  { change (rows df) with (rows df0).
    eapply Forall2_impl; [apply (getitem_list_coerced _ _ _ H1)|].
    intros a b [Hl Hv]. split; [done|]. intros l Hl'.
    rewrite decide_False by apply not_elem_of_nil. auto. }
  destruct (coerced_step _ _ _ _ _ _ _ _ _ S1 U1 W1 R1) as (C2 & W2 & R2);
    [apply in_required; tauto|rewrite ?elem_of_cons, elem_of_nil; naive_solver|done|].
  destruct (coerced_step _ _ _ _ _ _ _ _ _ S2 U2 W2 R2) as (C3 & W3 & R3);
    [apply in_required; tauto|rewrite ?elem_of_cons, elem_of_nil; naive_solver|done|].
  destruct (coerced_step _ _ _ _ _ _ _ _ _ S3 U3 W3 R3) as (C4 & W4 & R4);
    [apply in_required; tauto|rewrite ?elem_of_cons, elem_of_nil; naive_solver|done|].
  destruct (coerced_step _ _ _ _ _ _ _ _ _ S4 U4 W4 R4) as (C5 & W5 & R5);
    [apply in_required; tauto|rewrite ?elem_of_cons, elem_of_nil; naive_solver|done|].
  destruct (coerced_step _ _ _ _ _ _ _ _ _ S5 U5 W5 R5) as (C6 & W6 & R6);
    [apply in_required; tauto|rewrite ?elem_of_cons, elem_of_nil; naive_solver|done|].
  destruct (coerced_step _ _ _ _ _ _ _ _ _ S6 U6 W6 R6) as (C7 & W7 & R7);
    [apply in_required; tauto|rewrite ?elem_of_cons, elem_of_nil; naive_solver|done|].
  apply series_Ok in S1, S2, S3, S5.
  pose proof (dropna_well_formed _ _ _ D W7) as W8.
  apply dropna_Ok in D as [C8 R8].
  assert (columns d8 = columns d7) as E8 by done.
  assert (columns d7 = columns d5) as E75 by congruence.
  assert (columns d7 = columns d3) as E73 by congruence.
  assert (columns d7 = columns d2) as E72 by congruence.
  assert (columns d7 = columns d1) as E71 by congruence.
  assert (∀ l, l ∈ ["customer_segmentid"; "product_id"; "sale_amount"] →
               ∃ p, positions l (columns d7) = [p]) as Huniq.
  { intros l. rewrite !elem_of_cons, elem_of_nil. intros [->|[->|[->|[]]]].
    - exists p1. by rewrite E71.
    - exists p2. by rewrite E72.
    - exists p5. by rewrite E75. }
  split_and!.
  - by rewrite E8, E73.
  - by rewrite E8.
  - done.
  - exists (rows d7). split.
    + rewrite E8. eapply Forall2_impl; [exact R7|].
      intros a b [Hl Hv]. split; [done|]. intros l Hl'. specialize (Hv l Hl').
      rewrite decide_True by done.
      apply in_required in Hl' as Hcase.
      destruct Hcase as [->|[->|[->|[->|[->|[->| ->]]]]]]; cbn in Hv; try done.
      by rewrite Hv.
    + rewrite R8, E8. apply list_filter_iff. intros a.
      rewrite (Forall_forall (λ l, isna (value_of _ _ l) = false)).
      apply dropna_kept. done.
Qed.

Lemma setitem_single l v df p :
  positions l (columns df) = [p] →
  setitem l v df
  = mkDF (columns df) ((λ r : Z * list cell, (r.1, <[p := v r.1]> r.2)) <$> rows df).
Proof. unfold setitem. by intros ->. Qed.

Lemma reset_index_rows df :
  (rows (reset_index df)).*1 = seqZ 0 (Z.of_nat (length (rows df))) ∧
  (rows (reset_index df)).*2 = (rows df).*2.
Proof.
  unfold reset_index. cbn. split.
  - apply fst_zip. rewrite length_seqZ, length_fmap. lia.
  - apply snd_zip. rewrite length_seqZ, length_fmap. lia.
Qed.

Lemma norm_sales_Ok df out :
  norm_sales df = Ok out →
  ∃ sid c, sales_cleaned df = Ok (sid, c) ∧ out = renumbered sid c.
Proof.
  rewrite norm_sales_parts. destruct (sales_cleaned df) as [[sid c]|]; [|done].
  cbn. intros [= <-]. eauto.
Qed.

Lemma fmap_snd_Forall2 {A B} (xs ys : list (A * B)) :
  ys.*2 = xs.*2 → Forall2 (λ a b, b.2 = a.2) xs ys.
Proof.
  revert ys. induction xs as [|x xs IH]; intros [|y ys]; try done.
  cbn. intros [= Hy Hys]. constructor; auto.
Qed.

Lemma Forall2_impl_Forall {A B} (R S : A → B → Prop) (P : A → Prop) (xs : list A) ys :
  Forall2 R xs ys → Forall P xs → (∀ x y, P x → R x y → S x y) → Forall2 S xs ys.
Proof.
  intros HR HP HS. induction HR; inversion HP; subst; constructor; auto.
Qed.

(** The rows after the numbering are the rows of the cleaned frame, in
    order, with the [sales_id] written from the index label. *)
Lemma numbered_rows sid c base :
  positions "sales_id" (columns c) = [sid] → well_formed c →
  columns base = columns c → (rows base).*2 = (rows c).*2 →
  columns (setitem "sales_id" (λ i, IntCell (i + 1)) base) = columns c ∧
  (rows (setitem "sales_id" (λ i, IntCell (i + 1)) base)).*1 = (rows base).*1 ∧
  Forall2 (λ a m : Z * list cell,
             value_of (columns c) m.2 "sales_id" = IntCell (m.1 + 1) ∧
             ∀ l, l ≠ "sales_id" → value_of (columns c) m.2 l = value_of (columns c) a.2 l)
    (rows c) (rows (setitem "sales_id" (λ i, IntCell (i + 1)) base)).
Proof.
  intros Hp Hwf Hc Hr.
  rewrite (setitem_single _ _ _ sid) by (by rewrite Hc). cbn [columns rows].
  split; [done|]. split.
  { rewrite <- list_fmap_compose. done. }
  apply Forall2_fmap_r. apply fmap_snd_Forall2 in Hr.
  eapply Forall2_impl_Forall; [exact Hr|exact Hwf|].
  intros a b Hlen Hb. cbn. rewrite Hb. split.
  - by apply value_of_insert_eq.
  - intros l Hl. apply (value_of_insert_ne _ _ "sales_id"); [|done].
    by apply positions_single_lookup.
Qed.

Lemma renumbered_rows sid c :
  positions "sales_id" (columns c) = [sid] → well_formed c →
  columns (renumbered sid c) = columns c ∧
  Forall2 (λ a m : Z * list cell,
             value_of (columns c) m.2 "sales_id" = IntCell (m.1 + 1) ∧
             ∀ l, l ≠ "sales_id" → value_of (columns c) m.2 l = value_of (columns c) a.2 l)
    (rows c) (rows (renumbered sid c)).
Proof.
  intros Hp Hwf. unfold renumbered.
  destruct (na_or_duplicated _).
  - destruct (numbered_rows sid c (reset_index c)) as (? & ? & ?); try done.
    apply reset_index_rows.
  - destruct (numbered_rows sid c c) as (? & ? & ?); done.
Qed.

(** With the index reset, the labels are 0, 1, ... and the [sales_id]s are
    1, 2, ... down the frame. *)
Lemma renumbered_reset sid c :
  positions "sales_id" (columns c) = [sid] → well_formed c →
  na_or_duplicated ((λ r : Z * list cell, cell_at sid r.2) <$> rows c) = true →
  length (rows (renumbered sid c)) = length (rows c) ∧
  (rows (renumbered sid c)).*1 = seqZ 0 (Z.of_nat (length (rows c))) ∧
  column "sales_id" (renumbered sid c) = IntCell <$> seqZ 1 (Z.of_nat (length (rows c))).
Proof.
  intros Hp Hwf Hna.
  destruct (renumbered_rows sid c Hp Hwf) as [Hc Hrows].
  assert ((rows (renumbered sid c)).*1 = seqZ 0 (Z.of_nat (length (rows c)))) as Hl.
  { unfold renumbered. rewrite Hna.
    destruct (numbered_rows sid c (reset_index c)) as (_ & -> & _); try done;
      apply reset_index_rows. }
  split_and!; [|done|].
  - symmetry. by eapply Forall2_length.
  - unfold column. rewrite Hc.
    assert (∀ m, m ∈ rows (renumbered sid c) →
                 value_of (columns c) m.2 "sales_id" = IntCell (m.1 + 1)) as Hid.
    { intros m [i Hi]%list_elem_of_lookup.
      destruct (Forall2_lookup_r _ _ _ _ _ Hrows Hi) as (a & _ & Ha & _). done. }
    transitivity ((λ i, IntCell (i + 1)) <$> (rows (renumbered sid c)).*1).
    + rewrite <- list_fmap_compose. apply Forall_fmap_ext, Forall_forall.
      intros m Hm. by apply Hid.
    + rewrite Hl, <- (fmap_add_seqZ 1 0), <- list_fmap_compose.
      apply list_fmap_ext. intros _ i _. cbn. f_equal. lia.
Qed.

(** C10 for the sales: the rows [norm_sales] returns are normal forms of
    input rows, in input order. *)
Lemma sales_order df out :
  norm_sales df = Ok out →
  ∃ sub, sub `sublist_of` rows df ∧
    Forall2 (sales_row (sales_header df) (columns out)) sub (rows out).
Proof.
  intros (sid & c & Hc & ->)%norm_sales_Ok.
  destruct (sales_cleaned_Ok _ _ _ Hc) as (Hp & _ & Hwf & mid & Hmid & Hrows).
  destruct (renumbered_rows sid c Hp Hwf) as [Hcols Hnum].
  destruct (sublist_Forall2 _ _ _ (rows c) Hmid) as (sub & Hsub & Hsubc).
  { rewrite Hrows. apply sublist_filter. }
  exists sub. split; [done|]. rewrite Hcols.
  clear -Hsubc Hnum. revert Hnum. generalize (rows (renumbered sid c)).
  induction Hsubc as [|r a sub cs [_ Hra] _ IH]; intros ms Hnum.
  - inversion Hnum. constructor.
  - inversion Hnum as [|?? ? ms' [Hid Hrest] Hnum']; subst.
    constructor; [|by apply IH]. split; [done|].
    intros l Hl Hne. specialize (Hra l Hl). rewrite decide_True in Hra by done.
    by rewrite Hrest.
Qed.

End SalesFacts.

(** ** Inserts *)

Section StoreFacts.
Context `{F : Float64}.
Implicit Types (df : DataFrame) (t : table).
Lemma value_of_fmap_cols (g : string → cell) cols c :
  c ∈ cols → value_of cols (g <$> cols) c = g c.
Proof.
  intros Hc. unfold value_of.
  destruct (positions c cols) as [|p ps] eqn:Hp.
  { apply positions_nil in Hp. done. }
  assert (cols !! p = Some c) as Hl.
  { apply elem_of_positions. rewrite Hp. by left. }
  unfold cell_at. by rewrite list_lookup_fmap, Hl.
Qed.

Lemma insert_row_Ok fk d name cols t r t' :
  insert_row fk d name cols t r = Ok t' →
  same_schema t t' ∧
  ∃ k row, trows t' = <[k := row]> (trows t) ∧ stores cols t r k row.
Proof.
  unfold insert_row.
  destruct (negb (forallb bindable r)); [done|].
  destruct (existsb _ (not_null t)); [done|].
  destruct (fk && _); [done|].
  destruct (primary_key t) as [pk|] eqn:Hpk.
  - destruct (value_of cols r pk) as [|z| |] eqn:Hv; try done.
    + intros [= <-]. split; [done|]. eexists _, _. split; [done|]. split.
      * intros c Hc Hne. rewrite value_of_fmap_cols by done.
        rewrite decide_False; [done|]. intros ->. by rewrite Hpk in Hne.
      * intros pk' z' Heq Hz. congruence.
    + destruct (trows t !! z); [done|].
      intros [= <-]. split; [done|]. eexists _, _. split; [done|]. split.
      * intros c Hc Hne. rewrite value_of_fmap_cols by done.
        rewrite decide_False; [done|]. intros ->. by rewrite Hpk in Hne.
      * intros pk' z' Heq Hz. congruence.
  - intros [= <-]. split; [done|]. eexists _, _. split; [done|]. split.
    + intros c Hc _. by rewrite value_of_fmap_cols.
    + intros pk' z' Heq. congruence.
Qed.

Lemma same_schema_stores cols t t' r k row :
  same_schema t t' → stores cols t' r k row → stores cols t r k row.
Proof. intros (Hc & Hp & _) [H1 H2]. split; [rewrite <- Hc, <- Hp|rewrite <- Hp]; done. Qed.

(** The rows of the table after a batch are the rows it had and rows
    that store rows of the batch. *)
Lemma insert_rows_Ok fk d name cols t rs t' :
  insert_rows fk d name cols t rs = Ok t' →
  same_schema t t' ∧
  (∀ k row, trows t' !! k = Some row →
     trows t !! k = Some row ∨ ∃ r, r ∈ rs ∧ stores cols t r k row) ∧
  (∀ pk ids, primary_key t = Some pk →
     Forall2 (λ r z, value_of cols r pk = IntCell z) rs ids →
     dom (trows t') = dom (trows t) ∪ list_to_set ids).
Proof.
  revert t. induction rs as [|r rs IH]; intros t; cbn [insert_rows].
  - intros [= <-]. split_and!; [done|auto|].
    intros pk ids _ Hids. inversion Hids. set_solver.
  - destruct (insert_row fk d name cols t r) as [t1|] eqn:H1; cbn; [|done].
    intros Hrs. apply insert_row_Ok in H1 as (Hs1 & k1 & row1 & Hrows1 & Hst1).
    destruct (IH _ Hrs) as (Hs & Hold & Hdom). split_and!.
    + destruct Hs1 as (?&?&?&?), Hs as (?&?&?&?). unfold same_schema. split_and!; congruence.
    + intros k row Hk. destruct (Hold k row Hk) as [Hk1|(r' & Hr' & Hst)].
      * rewrite Hrows1 in Hk1. destruct (decide (k1 = k)) as [->|Hne].
        -- rewrite lookup_insert_eq in Hk1. injection Hk1 as <-.
           right. exists r. split; [by left|done].
        -- rewrite lookup_insert_ne in Hk1 by done. by left.
      * right. exists r'. split; [by right|]. by eapply same_schema_stores.
    + intros pk ids Hpk Hids. inversion Hids as [|? z ? ids' Hz Hids']; subst.
      destruct Hs1 as (_ & Hp1 & _).
      rewrite (Hdom pk ids') by (done || congruence).
      rewrite Hrows1, dom_insert_L.
      destruct Hst1 as [_ Hkey]. rewrite (Hkey pk z Hpk Hz). set_solver.
Qed.

End StoreFacts.

(** ** The loaders *)

Section LoaderFacts.
Context `{F : Float64}.
Implicit Types (df : DataFrame) (t : table) (st : state).
Lemma outcome_bind_inv {A B} (m : M A) (k : A → M B) st b st' :
  outcome (bind m k st) = (Ok b, st') →
  ∃ a st1, outcome (m st) = (Ok a, st1) ∧ outcome (k a st1) = (Ok b, st').
Proof.
  rewrite outcome_bind. destruct (outcome (m st)) as [[a|e] st1]; [|done]. eauto.
Qed.

(** A [to_sql] that returns, on a table that is there. *)
Lemma to_sql_Ok name df t st st' :
  db st !! name = Some t →
  outcome (to_sql name df st) = (Ok (), st') →
  (rows df = [] ∧ st' = st) ∨
  (rows df ≠ [] ∧
   ∃ t', insert_rows (pragma_foreign_keys st) (db st) name (columns df) t (rows df).*2 = Ok t' ∧
         st' = mkState (<[name := t']> (db st)) None (pragma_foreign_keys st)).
Proof.
  intros Ht. unfold to_sql. rewrite outcome_bind.
  rewrite (create_table_present name _ t) by done. cbn [outcome fst snd].
  destruct (rows df) as [|r rs] eqn:Hrows.
  { intros [= <-]. by left. }
  rewrite outcome_bind. cbn [begin outcome fst snd].
  rewrite outcome_bind. cbn [get_db outcome fst snd db]. rewrite Ht.
  case_decide.
  - cbn [pragma_foreign_keys db].
    destruct (insert_rows _ _ _ _ _ _) as [t'|e] eqn:Hins.
    + rewrite outcome_bind. cbn. intros [= <-]. right. split; [done|]. eauto.
    + rewrite outcome_bind. cbn. done.
  - rewrite outcome_bind. cbn. done.
Qed.

Lemma select_keys_Ok name c st ks st' :
  outcome (select_keys name c st) = (Ok ks, st') →
  st' = st ∧ ∃ t, db st !! name = Some t ∧ c ∈ tcolumns t ∧
                  ks = list_to_set (column_values t c).
Proof.
  unfold select_keys. rewrite outcome_bind. cbn [get_db outcome fst snd].
  destruct (db st !! name) as [t|]; [|done].
  case_decide; [|done]. intros [= <- <-]. eauto.
Qed.

Lemma filter_isin_Ok e c ks df df' :
  filter_isin e c ks df = Ok df' →
  columns df' = columns df ∧
  rows df' = filter (λ r : Z * list cell,
               isin ks (value_of (columns df) r.2 c) = true) (rows df).
Proof.
  unfold filter_isin. destruct (series e c df) as [p|] eqn:Hp; cbn; [|done].
  apply series_Ok in Hp. intros [= <-]. cbn. split; [done|].
  apply list_filter_iff. intros r. by rewrite (value_of_single _ _ _ p Hp).
Qed.

Lemma filter_filter_and {A} (P Q : A → Prop) `{∀ x, Decision (P x), ∀ x, Decision (Q x)}
    (xs : list A) :
  filter Q (filter P xs) = filter (λ x, P x ∧ Q x) xs.
Proof.
  induction xs as [|x xs IH]; [done|].
  rewrite !filter_cons. destruct (decide (P x)) as [HP|HP].
  - rewrite filter_cons. destruct (decide (Q x)).
    + rewrite decide_True by done. by rewrite IH.
    + rewrite decide_False by tauto. done.
  - rewrite decide_False by tauto. done.
Qed.

Lemma logging_Ok l msg st a st' :
  outcome (logging l msg st) = (Ok a, st') → st' = st.
Proof. by intros [= _ <-]. Qed.

Lemma lift_Ok {A} (r : result A) st a st' :
  outcome (lift r st) = (Ok a, st') → r = Ok a ∧ st' = st.
Proof. by intros [= <- <-]. Qed.

(** A fact load that returns: the rows with both keys in the dimension
    tables went into the sales table, in one [to_sql], and nothing else
    changed; with no such row nothing changed at all. *)
Lemma insert_sales_Ok df st st' :
  outcome (insert_sales df st) = (Ok (), st') →
  ∃ tc tp,
    db st !! "customer" = Some tc ∧ db st !! "product" = Some tp ∧
    let kept := filter (λ r : Z * list cell, referenced tc tp (columns df) r.2) (rows df) in
    (kept = [] ∧ st' = st) ∨
    (kept ≠ [] ∧ outcome (to_sql "sales" (mkDF (columns df) kept) st) = (Ok (), st')).
Proof.
  unfold insert_sales. intros H.
  apply outcome_bind_inv in H as (? & s1 & ->%logging_Ok & H).
  apply outcome_bind_inv in H as (kc & s2 & (-> & tc & Htc & _ & ->)%select_keys_Ok & H).
  apply outcome_bind_inv in H as (kp & s3 & (-> & tp & Htp & _ & ->)%select_keys_Ok & H).
  apply outcome_bind_inv in H as (d1 & s4 & [H1 ->]%lift_Ok & H).
  apply outcome_bind_inv in H as (d2 & s5 & [H2 ->]%lift_Ok & H).
  apply filter_isin_Ok in H1 as [Hc1 Hr1]. apply filter_isin_Ok in H2 as [Hc2 Hr2].
  apply outcome_bind_inv in H as (? & s6 & ->%logging_Ok & H).
  exists tc, tp. split; [done|]. split; [done|]. cbn zeta.
  assert (rows d2 = filter (λ r : Z * list cell, referenced tc tp (columns df) r.2) (rows df))
    as Hkept.
  { rewrite Hr2, Hr1, Hc1. apply filter_filter_and. }
  rewrite <- Hkept.
  case_decide as Hlen.
  - right. split; [destruct (rows d2); [cbn in Hlen; lia|done]|].
    apply outcome_bind_inv in H as ([] & s7 & H & ->%logging_Ok).
    destruct d2 as [cols2 rows2]. cbn in *. by rewrite <- Hc1, <- Hc2.
  - left. apply logging_Ok in H as ->. split; [|done].
    destruct (rows d2); [done|]. cbn in Hlen. lia.
Qed.

(** What a fact load that returns leaves in the sales table. *)
Lemma insert_sales_stored df st st' ts :
  outcome (insert_sales df st) = (Ok (), st') →
  db st !! "sales" = Some ts →
  ∃ tc tp ts',
    db st !! "customer" = Some tc ∧ db st !! "product" = Some tp ∧
    db st' !! "customer" = Some tc ∧ db st' !! "product" = Some tp ∧
    db st' !! "sales" = Some ts' ∧ same_schema ts ts' ∧
    (∀ k row, trows ts' !! k = Some row →
       trows ts !! k = Some row ∨
       ∃ r, r ∈ rows df ∧ referenced tc tp (columns df) r.2 ∧
            stores (columns df) ts r.2 k row) ∧
    (∀ pk (id : Z * list cell → Z), primary_key ts = Some pk →
       (∀ r, r ∈ rows df → value_of (columns df) r.2 pk = IntCell (id r)) →
       dom (trows ts') = dom (trows ts) ∪
         list_to_set (id <$> filter (λ r : Z * list cell,
                                       referenced tc tp (columns df) r.2) (rows df))).
Proof.
  intros (tc & tp & Htc & Htp & Hcases)%insert_sales_Ok Hts.
  exists tc, tp. cbn zeta in *.
  set (kept := filter _ (rows df)) in *.
  destruct Hcases as [[Hk ->]|[Hk Hsql]].
  - exists ts. split_and!; try done.
    + intros k row Hrow. by left.
    + intros pk id _ _. rewrite Hk. cbn. set_solver.
  - apply (to_sql_Ok _ _ ts) in Hsql as [[Hrows _]|(_ & ts' & Hins & ->)]; [done| |done].
    cbn [rows columns] in Hins.
    apply insert_rows_Ok in Hins as (Hsch & Hold & Hdom).
    exists ts'. cbn [db]. rewrite !lookup_insert_ne by done. rewrite lookup_insert_eq.
    split_and!; try done.
    + intros k row Hrow. destruct (Hold k row Hrow) as [?|(r & Hr & Hst)]; [by left|right].
      apply list_elem_of_fmap in Hr as (r' & -> & Hr').
      apply list_elem_of_filter in Hr' as [? ?]. eauto.
    + intros pk id Hpk Hid. rewrite (Hdom pk (id <$> kept) Hpk); [done|].
      apply Forall2_fmap, Forall_Forall2_diag, Forall_forall.
      intros r [_ Hr]%list_elem_of_filter. by apply Hid.
Qed.

Lemma isin_elem_of (vs : list cell) (v : cell) :
  isin (list_to_set vs) v = true → v ∈ vs.
Proof.
  unfold isin. intros [_ H]%andb_true_iff.
  apply bool_decide_eq_true in H. by apply elem_of_list_to_set in H.
Qed.

(** A fact load into the table of the schema keeps the store
    referential. *)
Lemma insert_sales_referential df st st' ts :
  outcome (insert_sales df st) = (Ok (), st') →
  db st !! "sales" = Some ts → same_schema sales_table ts →
  referential (db st) → referential (db st').
Proof.
  intros Hrun Hts Hsch (ts0 & tc0 & tp0 & Hts0 & Htc0 & Htp0 & Href).
  destruct (insert_sales_stored _ _ _ _ Hrun Hts)
    as (tc & tp & ts' & Htc & Htp & Htc' & Htp' & Hts' & Hsch' & Hrows & _).
  exists ts', tc, tp. split_and!; try done.
  assert (ts0 = ts) as -> by congruence. assert (tc0 = tc) as -> by congruence.
  assert (tp0 = tp) as -> by congruence.
  destruct Hsch as (Hcols & Hpk & _), Hsch' as (Hcols' & Hpk' & _).
  intros k row Hrow. destruct (Hrows k row Hrow) as [Hold|(r & _ & [Hc Hp] & Hst & _)].
  - rewrite Hcols'. by apply (Href k).
  - unfold referenced. rewrite Hcols'.
    rewrite !Hst; [done| | | |]; rewrite ?Hcols, ?Hpk; cbn;
      rewrite ?elem_of_cons; auto 10; done.
Qed.

Lemma to_sql_loading name df st st' :
  name = "dim_date" ∨ name = "customer" ∨ name = "product" →
  loading st → outcome (to_sql name df st) = (Ok (), st') → loading st'.
Proof.
  intros Hname Hld Hrun. pose proof Hld as (Hs & Hc & Hp & Hd).
  assert (∃ tb, db st !! name = Some tb) as [tb Htb].
  { destruct Hname as [->|[->| ->]]; [destruct Hd|destruct Hc|destruct Hp]; eauto. }
  apply (to_sql_Ok _ _ tb) in Hrun as [[_ ->]|(_ & tb' & _ & ->)]; [done| |done].
  unfold loading. cbn [db].
  destruct Hname as [->|[->| ->]];
    rewrite ?lookup_insert_eq, ?lookup_insert_ne by done; eauto.
Qed.

Lemma read_file_Ok fs name st df st' :
  outcome (read_file fs name st) = (Ok df, st') →
  st' = st ∧ ∃ f, fs !! name = Some f ∧ df = read_csv f.
Proof.
  unfold read_file. destruct (fs !! name) as [f|]; [|done].
  rewrite outcome_bind. cbn. intros [= <- <-]. eauto.
Qed.

Lemma print_table_row_counts_state tables st :
  (print_table_row_counts tables st).1.2 = st.
Proof.
  unfold print_table_row_counts.
  assert (∀ st, (for_each tables (λ table,
            d <- get_db ;;
            match d !! table with
            | None => raise (OperationalError table)
            | Some t => logging INFO (table +:+ ": " +:+ show (size (trows t)))
            end) st).1.2 = st) as Hloop.
  { induction tables as [|x xs IH]; intros s; [done|].
    cbn [for_each]. unfold bind at 1.
    destruct ((d <- get_db;; _) s) as [[[[]|e] s1] l1] eqn:Hb.
    - assert (s1 = s) as ->.
      { unfold bind, get_db in Hb. destruct (db s !! x); cbn in Hb; by simplify_eq. }
      specialize (IH s). by destruct (for_each xs _ s) as [[r s2] l2].
    - unfold bind, get_db in Hb. destruct (db s !! x); cbn in Hb; by simplify_eq. }
  unfold bind at 1. cbn. specialize (Hloop st).
  by destruct (for_each tables _ st) as [[r s2] l2].
Qed.

(** A run that completes leaves the store referential. *)
Lemma load_files_referential fs st st' :
  loading st → outcome (load_files fs st) = (Ok (), st') →
  referential (db st') ∧ snapshot st' = None.
Proof.
  intros Hld H. unfold load_files, insert_customers, insert_products in H.
  apply outcome_bind_inv in H as (cdf & s & [-> _]%read_file_Ok & H).
  apply outcome_bind_inv in H as (cn & s & [_ ->]%lift_Ok & H).
  apply outcome_bind_inv in H as (? & s1 & H1 & H).
  apply outcome_bind_inv in H1 as ([] & s1' & H1 & ->%logging_Ok).
  apply to_sql_loading in H1; [|tauto|done].
  apply outcome_bind_inv in H as (pdf & s & [-> _]%read_file_Ok & H).
  apply outcome_bind_inv in H as (pn & s & [_ ->]%lift_Ok & H).
  apply outcome_bind_inv in H as (? & s2 & H2 & H).
  apply outcome_bind_inv in H2 as ([] & s2' & H2 & ->%logging_Ok).
  apply to_sql_loading in H2; [|tauto|done].
  apply outcome_bind_inv in H as (sdf & s & [-> _]%read_file_Ok & H).
  apply outcome_bind_inv in H as (sn & s & [_ ->]%lift_Ok & H).
  apply outcome_bind_inv in H as ([] & s3 & H3 & H).
  apply outcome_bind_inv in H as ([] & s4 & [= <-] & H).
  apply outcome_bind_inv in H as (? & s5 & H5 & ->%logging_Ok).
  assert (s5 = mkState (db s3) None (pragma_foreign_keys s3)) as ->.
  { pose proof (print_table_row_counts_state
                  ["dim_date"; "customer"; "product"; "sales"]
                  (mkState (db s3) None (pragma_foreign_keys s3))) as Hp.
    unfold outcome in H5. injection H5 as _ H5. by rewrite H5 in Hp. }
  split; [|done]. cbn [db].
  destruct H2 as (Hs & Hc & Hp & _).
  destruct (insert_sales_Ok _ _ _ H3) as (tc & tp & Htc & Htp & _).
  eapply insert_sales_referential; [exact H3|exact Hs|done|].
  exists sales_table, tc, tp. split_and!; done.
Qed.

Lemma fresh_schema_loading (d : gmap string table) fk :
  loading (mkState (fresh_schema d) None fk).
Proof. unfold loading. cbn [db]. rewrite !fresh_schema_lookup. cbn. eauto. Qed.

Lemma run_referential truncate fs (d d' : gmap string table) :
  run truncate fs d = (Ok (), d') → referential d'.
Proof.
  rewrite run_from_fresh_schema.
  change (?x.1.1, durable ?x.1.2) with ((outcome x).1, durable (outcome x).2).
  rewrite after_schema_flag.
  destruct (outcome (load_tables fs _)) as [r st'] eqn:H. cbn [fst snd].
  intros [= -> <-].
  unfold load_tables, insert_dim_date in H.
  apply outcome_bind_inv in H as (? & s & ->%logging_Ok & H).
  apply outcome_bind_inv in H as (ddf & s & [_ ->]%lift_Ok & H).
  apply outcome_bind_inv in H as (? & s1 & H1 & H).
  apply outcome_bind_inv in H1 as ([] & s1' & H1 & ->%logging_Ok).
  apply to_sql_loading in H1; [|tauto|apply fresh_schema_loading].
  destruct (load_files_referential _ _ _ H1 H) as [Href Hsnap].
  unfold durable. by rewrite Hsnap.
Qed.

Lemma select_keys_run name c tb st :
  db st !! name = Some tb → c ∈ tcolumns tb →
  select_keys name c st = (Ok (list_to_set (column_values tb c)), st, []).
Proof.
  intros Ht Hc. unfold select_keys.
  erewrite bind_Ok by reflexivity. cbn [fst snd app]. rewrite Ht.
  by rewrite decide_True.
Qed.

Lemma filter_isin_run e c ks df p :
  positions c (columns df) = [p] →
  filter_isin e c ks df
  = Ok (mkDF (columns df)
          (filter (λ r : Z * list cell, isin ks (value_of (columns df) r.2 c) = true)
             (rows df))).
Proof.
  intros Hp. unfold filter_isin. rewrite (series_of_positions _ _ _ p Hp). cbn.
  do 2 f_equal. apply list_filter_iff. intros r. by rewrite (value_of_single _ _ _ p Hp).
Qed.

Lemma bind_prepend {A B} (m : M A) (k : A → M B) (st st' : state) (a : A) l :
  m st = (Ok a, st', l) → bind m k st = prepend l (k a st').
Proof. apply bind_Ok. Qed.

(** [insert_sales], step by step. *)
Lemma insert_sales_run df st tc tp pc pp :
  db st !! "customer" = Some tc → "customer_segmentid" ∈ tcolumns tc →
  db st !! "product" = Some tp → "product_id" ∈ tcolumns tp →
  positions "customer_segmentid" (columns df) = [pc] →
  positions "product_id" (columns df) = [pp] →
  insert_sales df st =
    let kept := kept_rows tc tp df in
    let records := filter_records (length (rows df)) (length kept) in
    if decide (kept = []) then
      (Ok (), st, (records ++ [(WARNING, "No valid sales records to insert")])%list)
    else
      match to_sql "sales" (mkDF (columns df) kept) st with
      | (Ok _, st', l) =>
          (Ok (), st',
           (records ++ l ++ [(INFO, "Inserted " +:+ show (length kept) +:+ " sales")])%list)
      | (Raise e, st', l) => (Raise e, st', (records ++ l)%list)
      end.
Proof.
  intros Htc Hc Htp Hp Hpc Hpp. unfold insert_sales.
  erewrite bind_prepend by reflexivity.
  erewrite bind_prepend by (by apply select_keys_run).
  erewrite bind_prepend by (by apply select_keys_run).
  erewrite bind_prepend by (unfold lift; by erewrite filter_isin_run).
  erewrite bind_prepend by (unfold lift; by erewrite filter_isin_run).
  erewrite bind_prepend by reflexivity. cbn [rows columns].
  rewrite filter_filter_and.
  change (filter _ (rows df)) with (kept_rows tc tp df).
  cbn zeta. unfold filter_records, prepend. cbn [fst snd app].
  destruct (kept_rows tc tp df) as [|r rs] eqn:Hk.
  - rewrite decide_False by (cbn; lia). rewrite decide_True by done. reflexivity.
  - rewrite decide_True by (cbn; lia). rewrite decide_False by done.
    unfold bind at 1 2 3.
    destruct (to_sql "sales" _ st) as [[[[]|e] st'] l]; reflexivity.
Qed.

End LoaderFacts.

(** ** The claims on the normalisers and the fact load *)

Section Claims.
Context `{F : Float64}.
Implicit Types (df : DataFrame) (st : state).
(** C1, as amended: when a [transactionid] of the rows that survive the
    missing-value filter is missing or repeated, the rows that leave
    [norm_sales] carry the [sales_id]s 1..M in row order, M being their
    number; the referential filter of [insert_sales] comes after this
    numbering and does not renumber, so the keys loaded into the empty sales
    table are the [sales_id]s of the rows that pass it, a sub-sequence of
    1..M. *)
Theorem sale_ids_reset_then_filtered df sid c :
  sales_cleaned df = Ok (sid, c) →
  na_or_duplicated ((λ r : Z * list cell, cell_at sid r.2) <$> rows c) = true →
  ∃ out,
    norm_sales df = Ok out ∧
    length (rows out) = length (rows c) ∧
    column "sales_id" out = IntCell <$> seqZ 1 (Z.of_nat (length (rows c))) ∧
    ∀ st st', db st !! "sales" = Some sales_table →
      outcome (insert_sales out st) = (Ok (), st') →
      ∃ tc tp ts,
        db st !! "customer" = Some tc ∧ db st !! "product" = Some tp ∧
        db st' !! "sales" = Some ts ∧
        table_keys ts
          = list_to_set ((λ r : Z * list cell, r.1 + 1) <$> kept_rows tc tp out) ∧
        (λ r : Z * list cell, r.1 + 1) <$> kept_rows tc tp out
          `sublist_of` seqZ 1 (Z.of_nat (length (rows c))).
Proof.
  intros Hc Hna.
  destruct (sales_cleaned_Ok _ _ _ Hc) as (Hp & _ & Hwf & _).
  destruct (renumbered_reset sid c Hp Hwf Hna) as (Hlen & Hlab & Hids).
  destruct (renumbered_rows sid c Hp Hwf) as [Hcols Hrows].
  exists (renumbered sid c). split_and!; [|done|done|].
  { rewrite norm_sales_parts, Hc. done. }
  intros st st' Hts Hrun.
  destruct (insert_sales_stored _ _ _ _ Hrun Hts)
    as (tc & tp & ts & Htc & Htp & _ & _ & Hts' & _ & _ & Hdom).
  exists tc, tp, ts. split_and!; try done.
  - unfold table_keys.
    rewrite (Hdom "sales_id" (λ r, r.1 + 1)); [|done|].
    + cbn. rewrite dom_empty_L. by rewrite (left_id_L ∅ (∪)).
    + intros m [i Hi]%list_elem_of_lookup. rewrite Hcols.
      by destruct (Forall2_lookup_r _ _ _ _ _ Hrows Hi) as (a & _ & Ha & _).
  - assert ((λ r : Z * list cell, r.1 + 1) <$> rows (renumbered sid c)
            = seqZ 1 (Z.of_nat (length (rows c)))) as <-.
    { transitivity ((λ i, i + 1) <$> (rows (renumbered sid c)).*1).
      - by rewrite <- list_fmap_compose.
      - rewrite Hlab, <- (fmap_add_seqZ 1 0). apply list_fmap_ext. intros _ i _. cbn. lia. }
    apply fmap_sublist. apply sublist_filter.
Qed.

(** C3: after a load that completes, every row of the sales table has its
    [customer_segmentid] among the keys of the customer table and its
    [product_id] among the keys of the product table.  The rows that fail a
    check are dropped without an error: [insert_sales] logs the count before
    and after the filter and goes on as [to_sql] does on the rows kept; with
    no row kept it changes nothing, returns, and its last record is a
    warning. *)
Theorem fact_load_filters_orphans :
  (∀ truncate fs (d d' : gmap string table),
     run truncate fs d = (Ok (), d') → referential d') ∧
  (∀ df st tc tp pc pp,
     db st !! "customer" = Some tc → "customer_segmentid" ∈ tcolumns tc →
     db st !! "product" = Some tp → "product_id" ∈ tcolumns tp →
     positions "customer_segmentid" (columns df) = [pc] →
     positions "product_id" (columns df) = [pp] →
     (INFO, "Sales filtered by FK: " +:+ show (length (rows df)) +:+ " -> "
              +:+ show (length (kept_rows tc tp df))) ∈ (insert_sales df st).2 ∧
     (kept_rows tc tp df = [] →
        insert_sales df st
        = (Ok (), st,
           (filter_records (length (rows df)) 0
              ++ [(WARNING, "No valid sales records to insert")])%list)) ∧
     (kept_rows tc tp df ≠ [] →
        outcome (insert_sales df st)
        = outcome (to_sql "sales" (mkDF (columns df) (kept_rows tc tp df)) st))).
Proof.
  split; [apply run_referential|].
  intros df st tc tp pc pp Htc Hc Htp Hp Hpc Hpp.
  rewrite (insert_sales_run df st tc tp pc pp) by done. cbn zeta.
  destruct (decide (kept_rows tc tp df = [])) as [Hk|Hk].
  - split_and!; [|by rewrite Hk|done].
    cbn. rewrite !elem_of_cons. tauto.
  - split_and!; [|done|intros _].
    + destruct (to_sql "sales" _ st) as [[[[]|e] st'] l]; cbn;
        rewrite !elem_of_cons; tauto.
    + by destruct (to_sql "sales" _ st) as [[[[]|e] st'] l].
Qed.

(** C4, as amended: every key of a normalised dimension is a natural
    number (zero included) extracted from the code of an input row, no key
    comes twice, and the row kept for a key is the first input row whose code
    yields it. *)
Theorem dimension_keys_extracted_unique_first df out :
  (norm_customers df = Ok out →
     NoDup (column "customer_segmentid" out) ∧
     ∀ m, m ∈ rows out →
       ∃ (pre post : list (Z * list cell)) r k,
         rows df = (pre ++ r :: post)%list ∧
         dimension_row Text.class_C "customer_segmentid" "customer_segment"
           (customer_header df) (columns out) r m ∧
         value_of (columns out) m.2 "customer_segmentid" = IntCell k ∧ 0 ≤ k ∧
         ∀ y, y ∈ pre →
           extract_key Text.class_C (astype_str (value_of (customer_header df) y.2
                                                   "customer_segmentid"))
           ≠ Ok (IntCell k)) ∧
  (norm_products df = Ok out →
     NoDup (column "product_id" out) ∧
     ∀ m, m ∈ rows out →
       ∃ (pre post : list (Z * list cell)) r k,
         rows df = (pre ++ r :: post)%list ∧
         dimension_row Text.class_P "product_id" "product_variant"
           (product_header df) (columns out) r m ∧
         value_of (columns out) m.2 "product_id" = IntCell k ∧ 0 ≤ k ∧
         ∀ y, y ∈ pre →
           extract_key Text.class_P (astype_str (value_of (product_header df) y.2
                                                   "product_id"))
           ≠ Ok (IntCell k)).
Proof.
  split.
  - rewrite norm_customers_dimension. intros H.
    exact (dimension_keys Text.class_C "customer_segmentid" "customer_segment" _ _
             ltac:(done) H).
  - rewrite norm_products_dimension. intros H.
    exact (dimension_keys Text.class_P "product_id" "product_variant" _ _ ltac:(done) H).
Qed.

(** C10: the rows each normaliser returns are the normal forms of a
    sub-sequence of the input rows, in the order of the input. *)
Theorem normalisers_keep_row_order df out :
  (norm_customers df = Ok out →
     ∃ sub, sub `sublist_of` rows df ∧
       Forall2 (dimension_row Text.class_C "customer_segmentid" "customer_segment"
                  (customer_header df) (columns out)) sub (rows out)) ∧
  (norm_products df = Ok out →
     ∃ sub, sub `sublist_of` rows df ∧
       Forall2 (dimension_row Text.class_P "product_id" "product_variant"
                  (product_header df) (columns out)) sub (rows out)) ∧
  (norm_sales df = Ok out →
     ∃ sub, sub `sublist_of` rows df ∧
       Forall2 (sales_row (sales_header df) (columns out)) sub (rows out)).
Proof.
  split_and!.
  - rewrite norm_customers_dimension. intros H.
    exact (dimension_order Text.class_C "customer_segmentid" "customer_segment" _ _
             ltac:(done) H).
  - rewrite norm_products_dimension. intros H.
    exact (dimension_order Text.class_P "product_id" "product_variant" _ _ ltac:(done) H).
  - apply sales_order.
Qed.

(** C5: [norm_products] does not trim or lower-case the headers as
    [norm_customers] and [norm_sales] do: a product table headed
    [ProductID, ProductVariant] is refused with the [KeyError] of the column
    selection, where the same table under lower-case headers, and a customer
    table under mixed-case headers, are normalised. *)
Theorem norm_products_takes_headers_as_written :
  norm_products (read_csv (mkCsv ["ProductID"; "ProductVariant"]
                             [[StrCell "P1"; StrCell "Classic"]]))
  = Raise (KeyError ["product_id"; "product_variant"]) ∧
  norm_products (read_csv (mkCsv ["productid"; "productvariant"]
                             [[StrCell "P1"; StrCell "Classic"]]))
  = Ok (mkDF ["product_id"; "product_variant"] [(0, [IntCell 1; StrCell "Classic"])]) ∧
  norm_customers (read_csv (mkCsv ["CustomerSegmentID"; "CustomerSegment"]
                              [[StrCell "C1"; StrCell "Budget"]]))
  = Ok (mkDF ["customer_segmentid"; "customer_segment"] [(0, [IntCell 1; StrCell "Budget"])]).
Proof. split_and!; reflexivity. Qed.

End Claims.


Lemma sale_ids_reset_then_filtered_witness :
  ∃ out, norm_sales (read_csv example_sales) = Ok out ∧
         column "sales_id" out = [IntCell 1; IntCell 2; IntCell 3].
Proof.
  destruct (sale_ids_reset_then_filtered (read_csv example_sales) 0%nat example_cleaned)
    as (out & H1 & _ & H2 & _); [reflexivity..|].
  exists out. split; [exact H1|exact H2].
Defined.

Lemma example_sales_keys :
  (table_keys <$> (run true example_files ∅).2 !! "sales") = Some {[1; 3]}.
Proof. compute_done. Qed.

Lemma example_sales_size :
  ((λ t, size (trows t)) <$> (run true example_files ∅).2 !! "sales") = Some 2%nat.
Proof. compute_done. Qed.

(** C1, as stated, fails: the three example sales have a repeated
    [transactionid], so they are numbered 1, 2, 3; the second names a
    customer segment that is not in the customer table and is filtered out;
    the two rows loaded have the keys 1 and 3, not 1 and 2. *)
Lemma filtered_sale_ids_have_gaps :
  ∃ ts, (run true example_files ∅).2 !! "sales" = Some ts ∧
        size (trows ts) = 2%nat ∧
        table_keys ts = {[1; 3]} ∧
        table_keys ts ≠ list_to_set (seqZ 1 (Z.of_nat (size (trows ts)))).
Proof.
  pose proof example_sales_keys as Hk. pose proof example_sales_size as Hs.
  destruct ((run true example_files ∅).2 !! "sales") as [ts|]; [|discriminate Hk].
  injection Hk as Hk. injection Hs as Hs.
  exists ts. split_and!; [done..|]. rewrite Hk, Hs. compute_done.
Qed.

Lemma example_run_completes : (run true example_files ∅).1 = Ok ().
Proof. compute_done. Qed.

Lemma fact_load_filters_orphans_witness :
  (INFO, "Sales filtered by FK: 3 -> 2")
    ∈ (insert_sales example_frame (mkState example_store None true)).2.
Proof.
  refine (proj1 (proj2 fact_load_filters_orphans example_frame
                   (mkState example_store None true)
                   (mkTable customer_columns (Some "customer_segmentid") [] []
                      (<[1 := [IntCell 1; StrCell "Budget"]]>
                         (<[2 := [IntCell 2; StrCell "Premium"]]> ∅)))
                   (mkTable product_columns (Some "product_id") [] []
                      (<[1 := [IntCell 1; StrCell "Classic"]]> ∅))
                   1%nat 2%nat _ _ _ _ _ _)).
  - reflexivity.
  - vm_compute. by left.
  - reflexivity.
  - vm_compute. by left.
  - reflexivity.
  - reflexivity.
Defined.

Lemma dimension_keys_extracted_unique_first_witness :
  NoDup (column "customer_segmentid"
           (mkDF ["customer_segmentid"; "customer_segment"]
              [(0, [IntCell 1; StrCell "Budget"]); (2, [IntCell 2; StrCell "Premium"])])).
Proof.
  apply (proj1 (dimension_keys_extracted_unique_first (read_csv example_customers) _)).
  reflexivity.
Defined.

(** C4, as stated, fails: the code "C0" gives the key 0, which is not
    positive. *)
Lemma key_zero_is_loaded :
  norm_customers (read_csv (mkCsv ["customersegmentid"; "customersegment"]
                              [[StrCell "C0"; StrCell "Walk-in"]]))
  = Ok (mkDF ["customer_segmentid"; "customer_segment"] [(0, [IntCell 0; StrCell "Walk-in"])])
  ∧ ¬ (0 < 0).
Proof. split; [reflexivity|lia]. Qed.

Lemma normalisers_keep_row_order_witness :
  ∃ sub, sub `sublist_of` rows (read_csv example_customers) ∧ length sub = 2%nat.
Proof.
  destruct (proj1 (normalisers_keep_row_order (read_csv example_customers)
                     (mkDF ["customer_segmentid"; "customer_segment"]
                        [(0, [IntCell 1; StrCell "Budget"]);
                         (2, [IntCell 2; StrCell "Premium"])])))
    as (sub & Hsub & Hrows); [reflexivity|].
  exists sub. split; [exact Hsub|]. by apply Forall2_length in Hrows.
Defined.

(** * Further properties *)

(** ** Rows the tables take *)

Section AcceptFacts.
Context `{F : Float64}.
Implicit Types (df : DataFrame) (t : table) (st : state).

(** A row of bindable cells that brings a fresh integer key, a value for
    every [NOT NULL] column and parents for its foreign keys is taken. *)
Lemma insert_row_accepts fk (d : gmap string table) name cols t r pk z :
  primary_key t = Some pk →
  value_of cols r pk = IntCell z →
  trows t !! z = None →
  (∀ c, c ∈ not_null t → isna (value_of cols r c) = false) →
  (fk = true →
   ∀ k, k ∈ foreign_keys t → foreign_key_ok d (value_of cols r) k = true) →
  forallb bindable r = true →
  ∃ row,
    insert_row fk d name cols t r
    = Ok (mkTable (tcolumns t) (primary_key t) (not_null t) (foreign_keys t)
            (<[z := row]> (trows t))).
Proof.
  intros Hpk Hz Hfresh Hnn Hfk Hb. unfold insert_row. rewrite Hb. cbn [negb].
  destruct (existsb _ (not_null t)) eqn:Hex.
  { apply existsb_exists in Hex as (c & Hc & Hna).
    rewrite Hnn in Hna; [done|]. by apply list_elem_of_In. }
  destruct (fk && _) eqn:Hf.
  { apply andb_true_iff in Hf as [-> Hf]. apply negb_true_iff in Hf.
    assert (forallb (foreign_key_ok d (value_of cols r)) (foreign_keys t) = true) as Hall.
    { apply forallb_forall. intros k Hk. apply Hfk; [done|]. by apply list_elem_of_In. }
    congruence. }
  rewrite Hpk, Hz, Hfresh. eauto.
Qed.

(** A batch of such rows with different keys is taken when all its cells
    are bindable, and otherwise refused at the first row with an integer
    beyond 64 bits. *)
Lemma insert_rows_bound fk (d : gmap string table) name cols pk rs ids : ∀ t,
  primary_key t = Some pk →
  Forall2 (λ r z, value_of cols r pk = IntCell z) rs ids →
  NoDup ids →
  (∀ z, z ∈ ids → trows t !! z = None) →
  (∀ r c, r ∈ rs → c ∈ not_null t → isna (value_of cols r c) = false) →
  (fk = true →
   ∀ r k, r ∈ rs → k ∈ foreign_keys t → foreign_key_ok d (value_of cols r) k = true) →
  (Forall (λ r, forallb bindable r = true) rs →
   ∃ t', insert_rows fk d name cols t rs = Ok t') ∧
  (¬ Forall (λ r, forallb bindable r = true) rs →
   insert_rows fk d name cols t rs = Raise OverflowError).
Proof.
  intros t Hpk Hids. revert t Hpk.
  induction Hids as [|r z rs ids Hz Hids IH]; intros t Hpk Hnd Hfresh Hnn Hfk.
  - split; [by exists t|]. intros H. by destruct H.
  - apply NoDup_cons in Hnd as [Hz' Hnd]. cbn [insert_rows].
    destruct (forallb bindable r) eqn:Hb.
    + destruct (insert_row_accepts fk d name cols t r pk z) as [row ->]; try done.
      { apply Hfresh. by left. }
      { intros c Hc. apply Hnn; [by left|done]. }
      { intros -> k Hk. apply Hfk; [done|by left|done]. }
      cbn [mbind result_bind].
      destruct (IH (mkTable (tcolumns t) (primary_key t) (not_null t) (foreign_keys t)
                      (<[z := row]> (trows t)))) as [IH1 IH2]; cbn; try done.
      { intros z' Hz''. rewrite lookup_insert_ne by (by intros ->).
        apply Hfresh. by right. }
      { intros r' c Hr' Hc. apply Hnn; [by right|done]. }
      { intros -> r' k Hr' Hk. apply Hfk; [done|by right|done]. }
      split.
      * intros [_ H]%Forall_cons. by apply IH1.
      * intros H. apply IH2. intros H'. apply H. by constructor.
    + assert (insert_row fk d name cols t r = Raise OverflowError) as ->.
      { unfold insert_row. by rewrite Hb. }
      split; [|done]. intros [H _]%Forall_cons. congruence.
Qed.

Lemma insert_rows_accepts fk (d : gmap string table) name cols pk rs ids : ∀ t,
  primary_key t = Some pk →
  Forall2 (λ r z, value_of cols r pk = IntCell z) rs ids →
  NoDup ids →
  (∀ z, z ∈ ids → trows t !! z = None) →
  (∀ r c, r ∈ rs → c ∈ not_null t → isna (value_of cols r c) = false) →
  (fk = true →
   ∀ r k, r ∈ rs → k ∈ foreign_keys t → foreign_key_ok d (value_of cols r) k = true) →
  Forall (λ r, forallb bindable r = true) rs →
  ∃ t', insert_rows fk d name cols t rs = Ok t'.
Proof.
  intros t Hpk Hids Hnd Hfresh Hnn Hfk Hb.
  by apply (insert_rows_bound fk d name cols pk rs ids t).
Qed.

(** A [to_sql] whose rows the table takes: the table is replaced and the
    transaction committed. *)
Lemma to_sql_accepts name df t t' (d : gmap string table) fk :
  d !! name = Some t →
  Forall (λ c, c ∈ tcolumns t) (columns df) →
  insert_rows fk d name (columns df) t (rows df).*2 = Ok t' →
  outcome (to_sql name df (mkState d None fk)) = (Ok (), mkState (<[name := t']> d) None fk).
Proof.
  intros Ht Hcols Hins. unfold to_sql. rewrite outcome_bind.
  rewrite (create_table_present name _ t) by done. cbn [outcome fst snd].
  destruct (rows df) as [|r rs] eqn:Hrows.
  { cbn in Hins. injection Hins as <-. cbn. by rewrite insert_id. }
  rewrite outcome_bind. cbn [begin outcome fst snd].
  rewrite outcome_bind. cbn [get_db outcome fst snd db]. rewrite Ht.
  rewrite decide_True by done. cbn [pragma_foreign_keys db]. rewrite Hins.
  rewrite outcome_bind. reflexivity.
Qed.

(** A [to_sql] whose rows the table refuses: the error of the first row
    refused, and the database as it was. *)
Lemma to_sql_refuses name df t e (d : gmap string table) fk :
  d !! name = Some t →
  Forall (λ c, c ∈ tcolumns t) (columns df) →
  insert_rows fk d name (columns df) t (rows df).*2 = Raise e →
  outcome (to_sql name df (mkState d None fk)) = (Raise e, mkState d None fk).
Proof.
  intros Ht Hcols Hins. unfold to_sql. rewrite outcome_bind.
  rewrite (create_table_present name _ t) by done. cbn [outcome fst snd].
  destruct (rows df) as [|r rs] eqn:Hrows; [done|].
  rewrite outcome_bind. cbn [begin outcome fst snd].
  rewrite outcome_bind. cbn [get_db outcome fst snd db]. rewrite Ht.
  rewrite decide_True by done. cbn [pragma_foreign_keys db]. rewrite Hins.
  rewrite outcome_bind. reflexivity.
Qed.

End AcceptFacts.

(** ** Frames: what returns and what raises *)

Section ReturnFacts.
Context `{F : Float64}.
Implicit Types (df : DataFrame) (cols labels : list string) (l : string).

Lemma filter_nil_Forall {A} (P : A → Prop) `{∀ x, Decision (P x)} (xs : list A) :
  filter P xs = [] ↔ Forall (λ x, ¬ P x) xs.
Proof.
  induction xs as [|x xs IH]; [done|]. rewrite filter_cons, Forall_cons.
  case_decide; [|rewrite IH]; naive_solver.
Qed.

Lemma missing_nil labels cols :
  filter (λ l, l ∉ cols) labels = [] ↔ Forall (λ l, l ∈ cols) labels.
Proof.
  rewrite filter_nil_Forall. apply Forall_proper; [|done].
  intros l. split; [apply dec_stable|auto].
Qed.

Lemma getitem_list_run labels df :
  Forall (λ l, l ∈ columns df) labels → ∃ df', getitem_list labels df = Ok df'.
Proof.
  intros H%missing_nil. unfold getitem_list. rewrite decide_True by done. eauto.
Qed.

Lemma getitem_list_Raise labels df e :
  getitem_list labels df = Raise e →
  e = KeyError (filter (λ l, l ∉ columns df) labels) ∧
  filter (λ l, l ∉ columns df) labels ≠ [].
Proof. unfold getitem_list. case_decide; [done|]. by intros [= <-]. Qed.

(** The number of columns that bear a label. *)
Lemma length_positions_from i l cols :
  length (positions_from i l cols) = length (filter (λ c, c = l) cols).
Proof.
  revert i. induction cols as [|c cols IH]; intros i; cbn [positions_from]; [done|].
  rewrite filter_cons. case_decide; cbn; by rewrite IH.
Qed.

Lemma length_positions l cols :
  length (positions l cols) = length (filter (λ c, c = l) cols).
Proof. apply length_positions_from. Qed.

Lemma positions_elem_of l cols : l ∈ cols ↔ positions l cols ≠ [].
Proof.
  split.
  - intros Hin Hnil. by apply positions_nil in Hnil.
  - intros Hne. destruct (decide (l ∈ cols)); [done|].
    destruct Hne. by apply positions_nil.
Qed.

Lemma group_replicate cols l (ps : list nat) :
  Forall (λ p, cols !! p = Some l) ps →
  (λ p, default "" (cols !! p)) <$> ps = replicate (length ps) l.
Proof. induction 1 as [|p ps Hp _ IH]; cbn; [done|]. by rewrite Hp, IH. Qed.

(** The header of [df[labels]]: every label, as often as [df] has it. *)
Lemma getitem_list_columns labels df df' :
  getitem_list labels df = Ok df' →
  columns df' = labels ≫= λ l, replicate (length (positions l (columns df))) l.
Proof.
  intros (_ & -> & _)%getitem_list_Ok.
  induction labels as [|l labels IH]; [done|].
  rewrite !bind_cons, fmap_app, IH. f_equal.
  apply group_replicate, positions_Forall.
Qed.

Lemma filter_replicate_eq l n : filter (λ c, c = l) (replicate n l) = replicate n l.
Proof.
  induction n as [|n IH]; [done|]. cbn [replicate].
  rewrite filter_cons, decide_True by done. by rewrite IH.
Qed.

Lemma filter_replicate_ne l l' n : l' ≠ l → filter (λ c, c = l) (replicate n l') = [].
Proof.
  intros Hne. induction n as [|n IH]; [done|]. cbn [replicate].
  by rewrite filter_cons, decide_False.
Qed.

Lemma count_select labels (n : string → nat) l :
  NoDup labels → l ∈ labels →
  length (filter (λ c, c = l) (labels ≫= λ l', replicate (n l') l')) = n l.
Proof.
  intros Hnd Hin. induction Hnd as [|l0 labels Hl0 Hnd IH]; [by apply elem_of_nil in Hin|].
  rewrite bind_cons, filter_app, length_app.
  destruct (decide (l0 = l)) as [->|Hne].
  - rewrite filter_replicate_eq, length_replicate.
    assert (filter (λ c, c = l) (labels ≫= λ l', replicate (n l') l') = []) as ->; [|cbn; lia].
    apply filter_nil_Forall, Forall_forall. intros c (l' & Hc & Hl')%list_elem_of_bind ->.
    apply elem_of_replicate in Hc as [-> _]. done.
  - rewrite filter_replicate_ne by done. cbn.
    apply IH. apply elem_of_cons in Hin as [->|]; done.
Qed.

Lemma getitem_list_count labels df df' l :
  getitem_list labels df = Ok df' → NoDup labels → l ∈ labels →
  length (positions l (columns df')) = length (positions l (columns df)).
Proof.
  intros H Hnd Hin. rewrite (getitem_list_columns _ _ _ H), length_positions.
  by rewrite (count_select labels (λ l', length (positions l' (columns df)))).
Qed.

Lemma getitem_list_labels labels df df' c :
  getitem_list labels df = Ok df' → c ∈ columns df' → c ∈ labels.
Proof.
  intros H. rewrite (getitem_list_columns _ _ _ H).
  intros (l & Hc & Hl)%list_elem_of_bind. by apply elem_of_replicate in Hc as [-> _].
Qed.

Lemma getitem_list_elem_of labels df df' l :
  getitem_list labels df = Ok df' → l ∈ labels → l ∈ columns df'.
Proof.
  intros H Hin. rewrite (getitem_list_columns _ _ _ H).
  apply getitem_list_Ok in H as (Hall & _). rewrite Forall_forall in Hall.
  apply list_elem_of_bind. exists l. split; [|done].
  apply elem_of_replicate. split; [done|].
  specialize (Hall l Hin). apply positions_elem_of in Hall.
  destruct (positions l (columns df)); done.
Qed.

Lemma series_run e l df :
  length (positions l (columns df)) = 1%nat → ∃ p, series e l df = Ok p.
Proof.
  unfold series. destruct (positions l (columns df)) as [|p [|q ps]]; try done. eauto.
Qed.

Lemma series_Raise e0 l df e :
  series e0 l df = Raise e →
  (e = KeyError [l] ∧ l ∉ columns df) ∨
  (e = e0 ∧ (1 < length (positions l (columns df)))%nat).
Proof.
  unfold series. destruct (positions l (columns df)) as [|p [|q ps]] eqn:Hp; try done.
  - intros [= <-]. left. split; [done|]. by apply positions_nil.
  - intros [= <-]. right. split; [done|]. cbn. lia.
Qed.

Lemma mapM_run {A B} (f : A → result B) (xs : list A) :
  (∀ x, x ∈ xs → is_ok (f x) = true) → ∃ ys, mapM f xs = Ok ys.
Proof.
  induction xs as [|x xs IH]; intros Hall; cbn; [by eexists|].
  pose proof (Hall x ltac:(by left)) as Hx.
  destruct (f x) as [y|]; [|done]. cbn.
  destruct IH as [ys ->]; [intros; apply Hall; by right|]. cbn. eauto.
Qed.

Lemma mapM_Raise {A B} (f : A → result B) (xs : list A) e :
  mapM f xs = Raise e → ∃ x, x ∈ xs ∧ f x = Raise e.
Proof.
  induction xs as [|x xs IH]; cbn; [done|].
  destruct (f x) as [y|e'] eqn:Hx; cbn.
  - destruct (mapM f xs) as [ys|e'']; cbn; [done|].
    intros [= <-]. destruct IH as (x' & ? & ?); [done|]. exists x'. split; [by right|done].
  - intros [= <-]. exists x. split; [by left|done].
Qed.

Lemma update_column_run p (f : cell → result cell) df :
  (∀ r, r ∈ rows df → is_ok (f (cell_at p r.2)) = true) →
  ∃ df', update_column p f df = Ok df'.
Proof.
  intros Hall. unfold update_column.
  destruct (mapM_run (λ r : Z * list cell, c ← f (cell_at p r.2); Ok (r.1, <[p := c]> r.2))
              (rows df)) as [rs ->]; [|cbn; eauto].
  intros r Hr. specialize (Hall r Hr). by destruct (f (cell_at p r.2)).
Qed.

Lemma update_column_Raise p (f : cell → result cell) df e :
  update_column p f df = Raise e → ∃ r, r ∈ rows df ∧ f (cell_at p r.2) = Raise e.
Proof.
  unfold update_column.
  destruct (mapM _ (rows df)) as [rs|e'] eqn:Hm; cbn; [done|]. intros [= <-].
  apply mapM_Raise in Hm as (r & Hr & Hf). exists r. split; [done|].
  destruct (f (cell_at p r.2)); cbn in Hf; congruence.
Qed.

Lemma dropna_run labels df :
  Forall (λ l, l ∈ columns df) labels → ∃ df', dropna labels df = Ok df'.
Proof.
  intros H%missing_nil. unfold dropna. rewrite decide_True by done. eauto.
Qed.

Lemma dropna_Raise labels df e :
  dropna labels df = Raise e → ¬ Forall (λ l, l ∈ columns df) labels.
Proof.
  unfold dropna. case_decide as Hm; [done|]. intros _ Hall. by apply missing_nil in Hall.
Qed.

Lemma drop_duplicates_run key df :
  key ∈ columns df → ∃ df', drop_duplicates key df = Ok df'.
Proof.
  intros Hin%positions_elem_of. unfold drop_duplicates.
  destruct (positions key (columns df)); [done|]. eauto.
Qed.

Lemma drop_duplicates_Raise key df e :
  drop_duplicates key df = Raise e → key ∉ columns df.
Proof.
  unfold drop_duplicates. destruct (positions key (columns df)) eqn:Hp; [|done].
  intros _. by apply positions_nil.
Qed.

End ReturnFacts.

(** ** The outcomes of the dimension normalisers *)

Section DimensionOutcome.
Context `{F : Float64}.
Implicit Types (df : DataFrame) (cols labels : list string) (l : string).

Lemma extract_key_Raise cls s e : extract_key cls s = Raise e → e = OverflowError.
Proof.
  unfold extract_key. destruct (Text.regex_extract cls (Text.strip s)); [|done].
  case_decide; [done|]. by intros [= <-].
Qed.

Lemma extract_key_is_ok cls s :
  is_ok (extract_key cls s) = true ↔
  ∀ ds, Text.regex_extract cls (Text.strip s) = Some ds → Text.int_of_digits ds ≤ int64_max.
Proof.
  unfold extract_key. destruct (Text.regex_extract cls (Text.strip s)) as [ds|]; [|done].
  case_decide as Hle; cbn; split; try done.
  - by intros _ ? [= <-].
  - intros Hall. by specialize (Hall ds eq_refl).
Qed.

Lemma dimension_returns cls key other df :
  key ≠ other →
  other ∈ columns df →
  length (positions key (columns df)) = 1%nat →
  (∀ r, r ∈ rows df →
     is_ok (extract_key cls (astype_str (value_of (columns df) r.2 key))) = true) →
  ∃ out, dimension cls key other df = Ok out.
Proof.
  intros Hne Ho Hk Hrows.
  assert (key ∈ columns df) as Hkin.
  { apply positions_elem_of. by destruct (positions key (columns df)). }
  unfold dimension.
  destruct (getitem_list_run [key; other] df) as [df1 H1].
  { repeat constructor; done. }
  rewrite H1. cbn [mbind result_bind].
  pose proof (getitem_list_count _ _ _ key H1) as Hcount.
  rewrite Hk in Hcount.
  destruct (series_run (AttributeError "str") key df1) as [p H2].
  { apply Hcount; [|by left]. apply NoDup_cons. split; [|apply NoDup_singleton].
    by intros ->%list_elem_of_singleton. }
  rewrite H2. cbn [mbind result_bind]. apply series_Ok in H2.
  destruct (update_column_run p (λ c, extract_key cls (astype_str c)) df1) as [df2 H3].
  { intros r1 [i Hi]%list_elem_of_lookup.
    pose proof (getitem_list_value _ _ _ key H1 ltac:(by left)) as Hv.
    destruct (Forall2_lookup_r _ _ _ _ _ Hv Hi) as (a & Ha & _ & Hav).
    rewrite <- (value_of_single _ _ _ _ H2), Hav. apply Hrows.
    by apply list_elem_of_lookup_2 in Ha. }
  rewrite H3. cbn [mbind result_bind].
  assert (key ∈ columns df1) as Hk1 by (eapply getitem_list_elem_of; [done|by left]).
  apply update_column_Ok in H3 as [Hc2 _].
  destruct (dropna_run [key] df2) as [df3 H4].
  { constructor; [by rewrite Hc2|constructor]. }
  rewrite H4. cbn [mbind result_bind]. apply dropna_Ok in H4 as [Hc3 _].
  apply drop_duplicates_run. by rewrite Hc3, Hc2.
Qed.

(** The ways [dimension] fails. *)
Lemma dimension_Raise cls key other df e :
  key ≠ other →
  dimension cls key other df = Raise e →
  (e = KeyError (filter (λ l, l ∉ columns df) [key; other]) ∧
   filter (λ l, l ∉ columns df) [key; other] ≠ []) ∨
  (key ∈ columns df ∧ other ∈ columns df ∧
   ((e = AttributeError "str" ∧ (1 < length (positions key (columns df)))%nat) ∨
    (e = OverflowError ∧ length (positions key (columns df)) = 1%nat ∧
     ∃ r, r ∈ rows df ∧
       extract_key cls (astype_str (value_of (columns df) r.2 key)) = Raise OverflowError))).
Proof.
  intros Hne. unfold dimension.
  destruct (getitem_list [key; other] df) as [df1|e1] eqn:H1; cbn [mbind result_bind].
  2:{ intros [= <-]. left. by apply getitem_list_Raise. }
  assert (NoDup [key; other]) as Hnd.
  { apply NoDup_cons. split; [|apply NoDup_singleton]. by intros ->%list_elem_of_singleton. }
  pose proof (getitem_list_count _ _ _ key H1 Hnd ltac:(by left)) as Hcount.
  assert (key ∈ columns df1) as Hk1 by (eapply getitem_list_elem_of; [done|by left]).
  pose proof (getitem_list_Ok _ _ _ H1) as (Hall & _).
  apply Forall_cons in Hall as [Hkin Hall]. apply Forall_cons in Hall as [Hoin _].
  intros H. right. split; [done|]. split; [done|]. revert H.
  destruct (series _ key df1) as [p|e2] eqn:H2; cbn [mbind result_bind].
  2:{ intros [= <-]. apply series_Raise in H2 as [[_ Hn]|[-> Hlen]]; [done|].
      left. split; [done|]. by rewrite <- Hcount. }
  apply series_Ok in H2.
  destruct (update_column p _ df1) as [df2|e3] eqn:H3; cbn [mbind result_bind].
  2:{ intros [= <-]. apply update_column_Raise in H3 as (r1 & [i Hi]%list_elem_of_lookup & Hr1).
      pose proof (extract_key_Raise _ _ _ Hr1) as ->.
      right. split; [done|]. split; [by rewrite <- Hcount, H2|].
      pose proof (getitem_list_value _ _ _ key H1 ltac:(by left)) as Hv.
      destruct (Forall2_lookup_r _ _ _ _ _ Hv Hi) as (a & Ha & _ & Hav).
      exists a. split; [by apply list_elem_of_lookup_2 in Ha|].
      by rewrite <- Hav, (value_of_single _ _ _ _ H2). }
  apply update_column_Ok in H3 as [Hc2 _].
  destruct (dropna [key] df2) as [df3|e4] eqn:H4; cbn [mbind result_bind].
  2:{ intros _. apply dropna_Raise in H4. destruct H4.
      constructor; [by rewrite Hc2|constructor]. }
  apply dropna_Ok in H4 as [Hc3 _].
  intros H5%drop_duplicates_Raise. destruct H5. by rewrite Hc3, Hc2.
Qed.

Lemma missing_pair cols key other :
  filter (λ l, l ∉ cols) [key; other] = [] ↔ key ∈ cols ∧ other ∈ cols.
Proof.
  rewrite missing_nil, Forall_cons, Forall_cons, Forall_nil. tauto.
Qed.

Lemma dimension_KeyError cls key other df ls :
  key ≠ other →
  dimension cls key other df = Raise (KeyError ls) ↔
  ls ≠ [] ∧ ls = filter (λ l, l ∉ columns df) [key; other].
Proof.
  intros Hne. split.
  - intros H. apply dimension_Raise in H as [[[= ->] Hm]|(_ & _ & [[[=] _]|[[=] _]])]; done.
  - intros [Hls ->]. unfold dimension.
    destruct (getitem_list [key; other] df) as [df1|e1] eqn:H1; cbn [mbind result_bind].
    + apply getitem_list_Ok in H1 as [Hall%missing_nil _]. done.
    + by apply getitem_list_Raise in H1 as [-> _].
Qed.

Lemma dimension_is_ok cls key other df :
  key ≠ other →
  is_ok (dimension cls key other df) = true ↔
  other ∈ columns df ∧
  length (positions key (columns df)) = 1%nat ∧
  ∀ r, r ∈ rows df →
    is_ok (extract_key cls (astype_str (value_of (columns df) r.2 key))) = true.
Proof.
  intros Hne. split.
  - destruct (dimension cls key other df) as [out|e] eqn:H; [intros _|done].
    destruct (decide (length (positions key (columns df)) = 1%nat)) as [Hlen|Hlen].
    + destruct (decide (other ∈ columns df)) as [Ho|Ho].
      * split; [done|]. split; [done|].
        apply dimension_Ok in H as (mid & Hmid & _); [|done].
        intros r [i Hi]%list_elem_of_lookup.
        destruct (Forall2_lookup_l _ _ _ _ _ Hmid Hi) as (m & _ & _ & -> & _). done.
      * exfalso. unfold dimension in H.
        destruct (getitem_list [key; other] df) as [df1|] eqn:H1; [|done].
        apply getitem_list_Ok in H1 as (Hall & _).
        apply Forall_cons in Hall as [_ Hall]. by apply Forall_cons in Hall as [? _].
    + exfalso. unfold dimension in H.
      destruct (getitem_list [key; other] df) as [df1|] eqn:H1; [|done].
      cbn [mbind result_bind] in H.
      destruct (series _ key df1) as [p|] eqn:H2; [|done].
      apply series_Ok in H2. apply Hlen.
      rewrite <- (getitem_list_count _ _ _ key H1), H2; [done| |by left].
      apply NoDup_cons. split; [|apply NoDup_singleton]. by intros ->%list_elem_of_singleton.
  - intros (Ho & Hk & Hr). by destruct (dimension_returns cls key other df) as [out ->].
Qed.

End DimensionOutcome.

(** ** The outcomes of the sales normaliser *)

Section SalesOutcome.
Context `{F : Float64}.
Implicit Types (df : DataFrame) (cols labels : list string) (l : string).

Lemma NoDup_required : NoDup required.
Proof. unfold required. repeat (apply NoDup_cons; split; [set_solver|]). apply NoDup_nil_2. Qed.

(** One coercion step that goes through. *)
Lemma coerced_step_run done hdr e l (f : cell → result cell) df xs :
  length (positions l (columns df)) = 1%nat →
  well_formed df →
  Forall2 (coerced done hdr (columns df)) xs (rows df) →
  l ∈ required → l ∉ done →
  (∀ c, f c = coerce_sales l c) →
  (∀ r, r ∈ xs → is_ok (coerce_sales l (value_of hdr r.2 l)) = true) →
  ∃ p df',
    series e l df = Ok p ∧ update_column p f df = Ok df' ∧
    columns df' = columns df ∧ well_formed df' ∧
    Forall2 (coerced (l :: done) hdr (columns df')) xs (rows df').
Proof.
  intros Hlen Hwf Hxs Hl Hnd Hf Hok.
  destruct (series_run e l df Hlen) as [p Hs].
  destruct (update_column_run p f df) as [df' Hu].
  { intros m [i Hi]%list_elem_of_lookup.
    destruct (Forall2_lookup_r _ _ _ _ _ Hxs Hi) as (a & Ha & _ & Hcells).
    specialize (Hcells l Hl). rewrite decide_False in Hcells by done.
    rewrite Hf, <- (value_of_single _ _ _ _ (series_Ok _ _ _ _ Hs)), Hcells.
    apply Hok. by apply list_elem_of_lookup_2 in Ha. }
  exists p, df'. split; [done|]. split; [done|].
  by apply (coerced_step done hdr e l f df df' p xs).
Qed.

Lemma coerce_sales_measures l c :
  l ∈ ["units_sold"; "sale_amount"; "profit_margin"] →
  coerce_sales l c = Ok (to_numeric c).
Proof.
  rewrite !elem_of_cons, elem_of_nil. unfold coerce_sales.
  intros [->|[->|[->|[]]]]; reflexivity.
Qed.

Lemma sales_cleaned_returns df :
  "sale_date" ∈ sales_header df →
  (∀ l, l ∈ required → l ≠ "sale_date" →
        length (positions l (sales_header df)) = 1%nat) →
  (∀ r l, r ∈ rows df → l ∈ ["customer_segmentid"; "product_id"; "sales_id"] →
        is_ok (coerce_sales l (value_of (sales_header df) r.2 l)) = true) →
  ∃ x, sales_cleaned df = Ok x.
Proof.
  intros Hdate Hone Hcells. unfold sales_cleaned.
  unfold sales_header in *. set (df0 := rename sales_renames (normalize_headers df)) in *.
  assert (Forall (λ l, l ∈ columns df0) required) as Hall.
  { apply Forall_forall. intros l Hl. destruct (decide (l = "sale_date")) as [->|Hne]; [done|].
    apply positions_elem_of. specialize (Hone l Hl Hne).
    by destruct (positions l (columns df0)). }
  rewrite decide_True by (by apply missing_nil).
  destruct (getitem_list_run required df0 Hall) as [d1 H1]. rewrite H1.
  cbn [mbind result_bind].
  pose proof (getitem_list_well_formed _ _ _ H1) as W1.
  assert (Forall2 (coerced [] (columns df0) (columns d1)) (rows df) (rows d1)) as R1.
  { change (rows df) with (rows df0).
    eapply Forall2_impl; [apply (getitem_list_coerced _ _ _ H1)|].
    intros a b [Hl Hv]. split; [done|]. intros l Hl'.
    rewrite decide_False by apply not_elem_of_nil. auto. }
  assert (∀ l, l ∈ required → l ≠ "sale_date" →
               length (positions l (columns d1)) = 1%nat) as Hone1.
  { intros l Hl Hne. rewrite (getitem_list_count _ _ _ l H1 NoDup_required Hl). auto. }
  destruct (coerced_step_run [] (columns df0) (AttributeError "str") "customer_segmentid"
              (λ c, extract_key Text.class_C (astype_str c)) d1 (rows df))
    as (p1 & d2 & S1 & U1 & C2 & W2 & R2);
    [apply Hone1; [apply in_required; tauto|done]|done|done|apply in_required; tauto
    |apply not_elem_of_nil|done
    |intros r Hr; apply Hcells; [done|set_solver]|].
  rewrite S1; cbn [mbind result_bind]; rewrite U1; cbn [mbind result_bind].
  destruct (coerced_step_run ["customer_segmentid"] (columns df0) (AttributeError "str") "product_id"
              (λ c, extract_key Text.class_P (astype_str c)) d2 (rows df))
    as (p2 & d3 & S2 & U2 & C3 & W3 & R3);
    [rewrite C2; apply Hone1; [apply in_required; tauto|done]|done|done
    |apply in_required; tauto|set_solver|done
    |intros r Hr; apply Hcells; [done|set_solver]|].
  rewrite S2; cbn [mbind result_bind]; rewrite U2; cbn [mbind result_bind].
  destruct (coerced_step_run ["product_id"; "customer_segmentid"] (columns df0) (TypeError "sales_id") "sales_id"
              (λ c, astype_Int64 "sales_id" (to_numeric c)) d3 (rows df))
    as (p3 & d4 & S3 & U3 & C4 & W4 & R4);
    [rewrite C3, C2; apply Hone1; [apply in_required; tauto|done]|done|done
    |apply in_required; tauto|set_solver|done
    |intros r Hr; apply Hcells; [done|set_solver]|].
  rewrite S3; cbn [mbind result_bind]; rewrite U3; cbn [mbind result_bind].
  destruct (coerced_step_run ["sales_id"; "product_id"; "customer_segmentid"] (columns df0) (TypeError "units_sold") "units_sold"
              (λ c, Ok (to_numeric c)) d4 (rows df))
    as (p4 & d5 & S4 & U4 & C5 & W5 & R5);
    [rewrite C4, C3, C2; apply Hone1; [apply in_required; tauto|done]|done|done
    |apply in_required; tauto|set_solver|done
    |intros r Hr; by rewrite coerce_sales_measures by set_solver|].
  rewrite S4; cbn [mbind result_bind]; rewrite U4; cbn [mbind result_bind].
  destruct (coerced_step_run ["units_sold"; "sales_id"; "product_id"; "customer_segmentid"] (columns df0) (TypeError "sale_amount") "sale_amount"
              (λ c, Ok (to_numeric c)) d5 (rows df))
    as (p5 & d6 & S5 & U5 & C6 & W6 & R6);
    [rewrite C5, C4, C3, C2; apply Hone1; [apply in_required; tauto|done]|done|done
    |apply in_required; tauto|set_solver|done
    |intros r Hr; by rewrite coerce_sales_measures by set_solver|].
  rewrite S5; cbn [mbind result_bind]; rewrite U5; cbn [mbind result_bind].
  destruct (coerced_step_run ["sale_amount"; "units_sold"; "sales_id"; "product_id"; "customer_segmentid"] (columns df0) (TypeError "profit_margin") "profit_margin"
              (λ c, Ok (to_numeric c)) d6 (rows df))
    as (p6 & d7 & S6 & U6 & C7 & W7 & R7);
    [rewrite C6, C5, C4, C3, C2; apply Hone1; [apply in_required; tauto|done]|done|done
    |apply in_required; tauto|set_solver|done
    |intros r Hr; by rewrite coerce_sales_measures by set_solver|].
  rewrite S6; cbn [mbind result_bind]; rewrite U6; cbn [mbind result_bind].
  destruct (dropna_run ["customer_segmentid"; "product_id"; "sale_amount"] d7) as [d8 ->].
  { rewrite C7, C6, C5, C4, C3, C2.
    repeat (apply Forall_cons; split;
            [eapply getitem_list_elem_of; [done|apply in_required; tauto]|]).
    constructor. }
  cbn [mbind result_bind]. eauto.
Qed.

End SalesOutcome.

Section SalesFailures.
Context `{F : Float64}.
Implicit Types (df : DataFrame) (cols labels : list string) (l : string).

Lemma astype_Int64_Raise label c e : astype_Int64 label c = Raise e → e = TypeError label.
Proof.
  destruct c as [| |x|]; cbn; try done; [|by intros [= <-]].
  destruct (float_as_int x); [done|]. by intros [= <-].
Qed.

(** The header of the frame [sales_cleaned] returns, and what its success
    says of the header it started from. *)
Lemma sales_cleaned_header df sid c :
  sales_cleaned df = Ok (sid, c) →
  Forall (λ l, l ∈ sales_header df) required ∧
  (∀ l, l ∈ required → l ≠ "sale_date" →
        length (positions l (sales_header df)) = 1%nat) ∧
  columns c = required ≫= λ l, replicate (length (positions l (sales_header df))) l.
Proof.
  unfold sales_cleaned, sales_header.
  set (df0 := rename sales_renames (normalize_headers df)).
  case_decide as Hmiss; [|done].
  destruct (getitem_list required df0) as [d1|] eqn:H1; cbn [mbind result_bind]; [|done].
  destruct (series _ "customer_segmentid" d1) as [p1|] eqn:S1; cbn [mbind result_bind]; [|done].
  destruct (update_column p1 _ d1) as [d2|] eqn:U1; cbn [mbind result_bind]; [|done].
  destruct (series _ "product_id" d2) as [p2|] eqn:S2; cbn [mbind result_bind]; [|done].
  destruct (update_column p2 _ d2) as [d3|] eqn:U2; cbn [mbind result_bind]; [|done].
  destruct (series _ "sales_id" d3) as [p3|] eqn:S3; cbn [mbind result_bind]; [|done].
  destruct (update_column p3 _ d3) as [d4|] eqn:U3; cbn [mbind result_bind]; [|done].
  destruct (series _ "units_sold" d4) as [p4|] eqn:S4; cbn [mbind result_bind]; [|done].
  destruct (update_column p4 _ d4) as [d5|] eqn:U4; cbn [mbind result_bind]; [|done].
  destruct (series _ "sale_amount" d5) as [p5|] eqn:S5; cbn [mbind result_bind]; [|done].
  destruct (update_column p5 _ d5) as [d6|] eqn:U5; cbn [mbind result_bind]; [|done].
  destruct (series _ "profit_margin" d6) as [p6|] eqn:S6; cbn [mbind result_bind]; [|done].
  destruct (update_column p6 _ d6) as [d7|] eqn:U6; cbn [mbind result_bind]; [|done].
  destruct (dropna _ d7) as [d8|] eqn:D; cbn [mbind result_bind]; [|done].
  intros [= <- <-].
  apply update_column_Ok in U1 as [C2 _], U2 as [C3 _], U3 as [C4 _],
    U4 as [C5 _], U5 as [C6 _], U6 as [C7 _].
  apply dropna_Ok in D as [C8 _].
  apply series_Ok in S1, S2, S3, S4, S5, S6.
  rewrite C2 in S2. rewrite C3, C2 in S3. rewrite C4, C3, C2 in S4.
  rewrite C5, C4, C3, C2 in S5. rewrite C6, C5, C4, C3, C2 in S6.
  split; [by apply missing_nil|]. split.
  - intros l Hl Hne.
    rewrite <- (getitem_list_count _ _ _ l H1 NoDup_required Hl).
    apply in_required in Hl as [->|[->|[->|[->|[->|[->| ->]]]]]];
      first [done|by rewrite S1|by rewrite S2|by rewrite S3|by rewrite S4
            |by rewrite S5|by rewrite S6].
  - rewrite C8, C7, C6, C5, C4, C3, C2. by apply getitem_list_columns.
Qed.

(** An error of [sales_cleaned] is the [KeyError] of the check for missing
    columns, or no [KeyError] at all. *)
Lemma sales_cleaned_Raise df e :
  sales_cleaned df = Raise e →
  (e = KeyError (filter (λ c, c ∉ sales_header df) required) ∧
   filter (λ c, c ∉ sales_header df) required ≠ []) ∨
  (filter (λ c, c ∉ sales_header df) required = [] ∧
   (e = AttributeError "str" ∨ (∃ l, e = TypeError l) ∨ e = OverflowError)).
Proof.
  unfold sales_cleaned, sales_header.
  set (df0 := rename sales_renames (normalize_headers df)).
  case_decide as Hmiss; [|intros [= <-]; by left].
  intros H. right. split; [done|]. revert H.
  destruct (getitem_list required df0) as [d1|] eqn:H1; cbn [mbind result_bind].
  2:{ apply getitem_list_Raise in H1 as [_ ?]. done. }
  assert (∀ l, l ∈ required → l ∈ columns d1) as Hin.
  { intros l Hl. by eapply getitem_list_elem_of. }
  destruct (series _ "customer_segmentid" d1) as [p1|] eqn:S1; cbn [mbind result_bind].
  2:{ intros [= <-]. apply series_Raise in S1 as [[_ Hn]|[-> _]]; [|by left].
      destruct Hn. apply Hin, in_required. tauto. }
  destruct (update_column p1 _ d1) as [d2|] eqn:U1; cbn [mbind result_bind].
  2:{ intros [= <-]. apply update_column_Raise in U1 as (r & _ & Hr).
      apply extract_key_Raise in Hr. auto. }
  apply update_column_Ok in U1 as [C2 _].
  destruct (series _ "product_id" d2) as [p2|] eqn:S2; cbn [mbind result_bind].
  2:{ intros [= <-]. apply series_Raise in S2 as [[_ Hn]|[-> _]]; [|by left].
      destruct Hn. rewrite C2. apply Hin, in_required. tauto. }
  destruct (update_column p2 _ d2) as [d3|] eqn:U2; cbn [mbind result_bind].
  2:{ intros [= <-]. apply update_column_Raise in U2 as (r & _ & Hr).
      apply extract_key_Raise in Hr. auto. }
  apply update_column_Ok in U2 as [C3 _].
  destruct (series _ "sales_id" d3) as [p3|] eqn:S3; cbn [mbind result_bind].
  2:{ intros [= <-]. apply series_Raise in S3 as [[_ Hn]|[-> _]]; [|eauto].
      destruct Hn. rewrite C3, C2. apply Hin, in_required. tauto. }
  destruct (update_column p3 _ d3) as [d4|] eqn:U3; cbn [mbind result_bind].
  2:{ intros [= <-]. apply update_column_Raise in U3 as (r & _ & Hr).
      apply astype_Int64_Raise in Hr. eauto. }
  apply update_column_Ok in U3 as [C4 _].
  destruct (series _ "units_sold" d4) as [p4|] eqn:S4; cbn [mbind result_bind].
  2:{ intros [= <-]. apply series_Raise in S4 as [[_ Hn]|[-> _]]; [|eauto].
      destruct Hn. rewrite C4, C3, C2. apply Hin, in_required. tauto. }
  destruct (update_column p4 _ d4) as [d5|] eqn:U4; cbn [mbind result_bind].
  2:{ intros [= <-]. by apply update_column_Raise in U4 as (r & _ & Hr). }
  apply update_column_Ok in U4 as [C5 _].
  destruct (series _ "sale_amount" d5) as [p5|] eqn:S5; cbn [mbind result_bind].
  2:{ intros [= <-]. apply series_Raise in S5 as [[_ Hn]|[-> _]]; [|eauto].
      destruct Hn. rewrite C5, C4, C3, C2. apply Hin, in_required. tauto. }
  destruct (update_column p5 _ d5) as [d6|] eqn:U5; cbn [mbind result_bind].
  2:{ intros [= <-]. by apply update_column_Raise in U5 as (r & _ & Hr). }
  apply update_column_Ok in U5 as [C6 _].
  destruct (series _ "profit_margin" d6) as [p6|] eqn:S6; cbn [mbind result_bind].
  2:{ intros [= <-]. apply series_Raise in S6 as [[_ Hn]|[-> _]]; [|eauto].
      destruct Hn. rewrite C6, C5, C4, C3, C2. apply Hin, in_required. tauto. }
  destruct (update_column p6 _ d6) as [d7|] eqn:U6; cbn [mbind result_bind].
  2:{ intros [= <-]. by apply update_column_Raise in U6 as (r & _ & Hr). }
  apply update_column_Ok in U6 as [C7 _].
  destruct (dropna _ d7) as [d8|] eqn:D; cbn [mbind result_bind]; [done|].
  intros _. apply dropna_Raise in D. destruct D.
  rewrite C7, C6, C5, C4, C3, C2.
  repeat (apply Forall_cons; split; [apply Hin, in_required; tauto|]). constructor.
Qed.

Lemma norm_sales_is_ok df :
  is_ok (norm_sales df) = true ↔
  "sale_date" ∈ sales_header df ∧
  (∀ l, l ∈ required → l ≠ "sale_date" →
        length (positions l (sales_header df)) = 1%nat) ∧
  (∀ r l, r ∈ rows df → l ∈ ["customer_segmentid"; "product_id"; "sales_id"] →
        is_ok (coerce_sales l (value_of (sales_header df) r.2 l)) = true).
Proof.
  rewrite norm_sales_parts. split.
  - destruct (sales_cleaned df) as [[sid c]|] eqn:H; [intros _|done].
    destruct (sales_cleaned_header _ _ _ H) as (Hall & Hone & _).
    split; [|split; [done|]].
    { rewrite Forall_forall in Hall. apply Hall, in_required. tauto. }
    destruct (sales_cleaned_Ok _ _ _ H) as (_ & _ & _ & mid & Hmid & _).
    intros r l [i Hi]%list_elem_of_lookup Hl.
    destruct (Forall2_lookup_l _ _ _ _ _ Hmid Hi) as (m & _ & _ & Hcells).
    specialize (Hcells l). rewrite decide_True in Hcells.
    + rewrite Hcells; [done|]. apply in_required. set_solver.
    + apply in_required. set_solver.
  - intros (Hd & Hone & Hcells).
    by destruct (sales_cleaned_returns df Hd Hone Hcells) as [x ->].
Qed.

Lemma norm_sales_KeyError df ls :
  norm_sales df = Raise (KeyError ls) ↔
  ls ≠ [] ∧ ls = filter (λ c, c ∉ sales_header df) required.
Proof.
  rewrite norm_sales_parts. split.
  - destruct (sales_cleaned df) as [x|e] eqn:H; [done|]. cbn. intros [= ->].
    apply sales_cleaned_Raise in H as [[[= ->] Hm]|[_ [?|[[? ?]|?]]]]; done.
  - intros [Hne ->]. unfold sales_cleaned, sales_header in *.
    by rewrite decide_False.
Qed.

End SalesFailures.

(** ** Headers of the frames returned *)

Section HeaderFacts.
Context `{F : Float64}.
Implicit Types (df : DataFrame) (cols labels : list string) (l : string).

Lemma bind_nil' {A B} (f : A → list B) : [] ≫= f = [].
Proof. reflexivity. Qed.

Lemma drop_duplicates_well_formed key df df' :
  drop_duplicates key df = Ok df' → well_formed df → well_formed df'.
Proof.
  intros [Hc Hr]%drop_duplicates_Ok Hwf. unfold well_formed in *. rewrite Hc, Hr.
  apply Forall_forall. intros x Hx. rewrite Forall_forall in Hwf. apply Hwf.
  eapply elem_of_sublist; [exact Hx|apply keep_first_sublist].
Qed.

(** The header of a dimension: the key, then the other label as often as
    the input has it. *)
Lemma dimension_columns cls key other df out :
  key ≠ other →
  dimension cls key other df = Ok out →
  columns out = key :: replicate (length (positions other (columns df))) other ∧
  well_formed out.
Proof.
  intros Hne. unfold dimension.
  destruct (getitem_list [key; other] df) as [df1|] eqn:H1; cbn; [|done].
  destruct (series _ key df1) as [p|] eqn:H2; cbn; [|done].
  destruct (update_column p _ df1) as [df2|] eqn:H3; cbn; [|done].
  destruct (dropna [key] df2) as [df3|] eqn:H4; cbn; [|done].
  intros H5. unfold drop_dupes in H5.
  pose proof (getitem_list_well_formed _ _ _ H1) as W1.
  pose proof (update_column_well_formed _ _ _ _ H3 W1) as W2.
  pose proof (dropna_well_formed _ _ _ H4 W2) as W3.
  pose proof (drop_duplicates_well_formed _ _ _ H5 W3) as W5.
  split; [|done].
  apply series_Ok in H2.
  assert (NoDup [key; other]) as Hnd.
  { apply NoDup_cons. split; [|apply NoDup_singleton]. by intros ->%list_elem_of_singleton. }
  pose proof (getitem_list_count _ _ _ key H1 Hnd ltac:(by left)) as Hcount.
  rewrite H2 in Hcount. cbn in Hcount.
  apply update_column_Ok in H3 as [Hc2 _]. apply dropna_Ok in H4 as [Hc3 _].
  apply drop_duplicates_Ok in H5 as [Hc5 _].
  rewrite Hc5, Hc3, Hc2, (getitem_list_columns _ _ _ H1).
  rewrite bind_cons, bind_cons, bind_nil', app_nil_r, <- Hcount. done.
Qed.

Lemma setitem_well_formed l v df : well_formed df → well_formed (setitem l v df).
Proof.
  intros Hwf. unfold setitem, well_formed in *.
  destruct (positions l (columns df)) as [|p ps]; cbn [rows columns].
  - apply Forall_fmap. eapply Forall_impl; [exact Hwf|].
    intros r Hr. unfold compose. cbn [fst snd]. cbn beta in Hr.
    rewrite !length_app, Hr. done.
  - apply Forall_fmap. eapply Forall_impl; [exact Hwf|].
    intros r Hr. unfold compose. cbn [fst snd]. cbn beta in Hr. rewrite <- Hr.
    generalize (p :: ps). intros qs. generalize (v r.1). intros c.
    induction qs as [|q qs IH]; [done|].
    cbn [foldr]. rewrite length_insert. exact IH.
Qed.

Lemma reset_index_well_formed df : well_formed df → well_formed (reset_index df).
Proof.
  intros Hwf. unfold well_formed. cbn [columns].
  refine (proj1 (Forall_fmap snd (λ c : list cell, length c = length (columns df)) _) _).
  rewrite (proj2 (reset_index_rows df)). by apply Forall_fmap.
Qed.

(** The header of the sales frame: the canonical labels in canonical
    order, [sale_date] as often as the input has it; every row has a cell
    for every column. *)
Lemma norm_sales_columns df out :
  norm_sales df = Ok out →
  columns out
  = (["sales_id"; "customer_segmentid"; "product_id"; "units_sold"]
     ++ replicate (length (positions "sale_date" (sales_header df))) "sale_date"
     ++ ["sale_amount"; "profit_margin"])%list ∧
  well_formed out.
Proof.
  intros (sid & c & Hc & ->)%norm_sales_Ok.
  destruct (sales_cleaned_Ok _ _ _ Hc) as (Hp & _ & Hwf & _).
  destruct (sales_cleaned_header _ _ _ Hc) as (_ & Hone & Hcols).
  destruct (renumbered_rows sid c Hp Hwf) as [-> _]. split.
  - rewrite Hcols. unfold required. rewrite !bind_cons, bind_nil'.
    rewrite (Hone "sales_id"), (Hone "customer_segmentid"), (Hone "product_id"),
      (Hone "units_sold"), (Hone "sale_amount"), (Hone "profit_margin")
      by first [apply in_required; tauto|done].
    cbn [replicate app]. done.
  - unfold renumbered. apply setitem_well_formed.
    destruct (na_or_duplicated _); [by apply reset_index_well_formed|done].
Qed.

End HeaderFacts.

(** ** Rows of the sales frame *)

Section SalesRows.
Context `{F : Float64}.
Implicit Types (df : DataFrame) (cols labels : list string) (l : string).

Lemma sublist_fmap {A B} (f : A → B) (xs ys : list A) :
  xs `sublist_of` ys → (f <$> xs) `sublist_of` (f <$> ys).
Proof. induction 1; cbn; by constructor. Qed.

Lemma Forall2_fst_eq {A B} (R : A * B → A * B → Prop) (xs ys : list (A * B)) :
  Forall2 R xs ys → (∀ x y, R x y → y.1 = x.1) → ys.*1 = xs.*1.
Proof. intros H HR. induction H; cbn; [done|]. f_equal; auto. Qed.

(** The index labels that survive the cleaning are labels of the input,
    in order. *)
Lemma sales_cleaned_index df sid c :
  sales_cleaned df = Ok (sid, c) → (rows c).*1 `sublist_of` (rows df).*1.
Proof.
  intros (_ & _ & _ & mid & Hmid & ->)%sales_cleaned_Ok.
  rewrite <- (Forall2_fst_eq _ _ _ Hmid) by (by intros ?? [? _]).
  apply sublist_fmap, sublist_filter.
Qed.

Lemma renumbered_index sid c :
  positions "sales_id" (columns c) = [sid] →
  (rows (renumbered sid c)).*1
  = if na_or_duplicated ((λ r : Z * list cell, cell_at sid r.2) <$> rows c)
    then seqZ 0 (Z.of_nat (length (rows c))) else (rows c).*1.
Proof.
  intros Hp. unfold renumbered. destruct (na_or_duplicated _).
  - rewrite (setitem_single _ _ _ sid) by done. cbn [rows].
    rewrite <- list_fmap_compose. apply reset_index_rows.
  - rewrite (setitem_single _ _ _ sid) by done. cbn [rows].
    by rewrite <- list_fmap_compose.
Qed.

Lemma sublist_seqZ_prefix (m n : Z) : m ≤ n → seqZ 0 m `sublist_of` seqZ 0 n.
Proof.
  intros Hle. destruct (decide (0 ≤ m)) as [Hm|Hm].
  - replace n with (m + (n - m)) by lia. rewrite seqZ_app by lia.
    by apply sublist_inserts_r.
  - rewrite (seqZ_nil 0 m) by lia. apply sublist_nil_l.
Qed.

Lemma read_csv_index (f : csv) :
  (rows (read_csv f)).*1 = seqZ 0 (Z.of_nat (length (records f))).
Proof. unfold read_csv. cbn. apply fst_zip. rewrite length_seqZ. lia. Qed.

Lemma norm_sales_index (f : csv) out :
  norm_sales (read_csv f) = Ok out →
  (rows out).*1 `sublist_of` seqZ 0 (Z.of_nat (length (records f))) ∧
  column "sales_id" out = (λ i, IntCell (i + 1)) <$> (rows out).*1.
Proof.
  intros (sid & c & Hc & ->)%norm_sales_Ok.
  destruct (sales_cleaned_Ok _ _ _ Hc) as (Hp & _ & Hwf & _).
  pose proof (sales_cleaned_index _ _ _ Hc) as Hsub. rewrite read_csv_index in Hsub.
  split.
  - rewrite (renumbered_index _ _ Hp). destruct (na_or_duplicated _); [|done].
    apply sublist_seqZ_prefix. apply sublist_length in Hsub.
    rewrite length_fmap, length_seqZ in Hsub. lia.
  - destruct (renumbered_rows sid c Hp Hwf) as [Hcols Hrows].
    unfold column. rewrite Hcols, <- list_fmap_compose.
    apply list_fmap_ext. intros i m Hi. cbn.
    destruct (Forall2_lookup_r _ _ _ _ _ Hrows Hi) as (a & _ & Ha & _). done.
Qed.

(** Every row [norm_sales] returns is the normal form of an input row, with
    no missing value under the three labels of the [dropna]. *)
Lemma norm_sales_cells df out m :
  norm_sales df = Ok out → m ∈ rows out →
  ∃ r, r ∈ rows df ∧ sales_row (sales_header df) (columns out) r m ∧
       ∀ l, l ∈ ["customer_segmentid"; "product_id"; "sale_amount"] →
            isna (value_of (columns out) m.2 l) = false.
Proof.
  intros (sid & c & Hc & ->)%norm_sales_Ok [i Hi]%list_elem_of_lookup.
  destruct (sales_cleaned_Ok _ _ _ Hc) as (Hp & _ & Hwf & mid & Hmid & Hrows).
  destruct (renumbered_rows sid c Hp Hwf) as [Hcols Hnum]. rewrite Hcols.
  destruct (Forall2_lookup_r _ _ _ _ _ Hnum Hi) as (a & Ha & Hid & Hrest).
  apply list_elem_of_lookup_2 in Ha. rewrite Hrows in Ha.
  apply list_elem_of_filter in Ha as [Hna [j Hj]%list_elem_of_lookup].
  destruct (Forall2_lookup_r _ _ _ _ _ Hmid Hj) as (r & Hr & _ & Hcells).
  exists r. split; [by apply list_elem_of_lookup_2 in Hr|]. split.
  - split; [done|]. intros l Hl Hne. specialize (Hcells l Hl).
    rewrite decide_True in Hcells by done. by rewrite Hrest.
  - intros l Hl. rewrite Hrest by set_solver.
    rewrite Forall_forall in Hna. by apply Hna.
Qed.

Lemma to_numeric_not_str c s : to_numeric c ≠ StrCell s.
Proof.
  destruct c as [| | |s']; cbn; try done.
  by destruct (str_to_numeric s') as [[?|?]|].
Qed.


(** The keys of a row [norm_sales] returns. *)
Lemma norm_sales_keys df out m :
  norm_sales df = Ok out → m ∈ rows out →
  value_of (columns out) m.2 "sales_id" = IntCell (m.1 + 1) ∧
  (∃ a, value_of (columns out) m.2 "customer_segmentid" = IntCell a ∧ 0 ≤ a ≤ int64_max) ∧
  (∃ b, value_of (columns out) m.2 "product_id" = IntCell b ∧ 0 ≤ b ≤ int64_max).
Proof.
  intros Hout Hm.
  destruct (norm_sales_cells _ _ m Hout Hm) as (r & _ & [Hid Hcells] & Hna).
  pose proof (Hcells "customer_segmentid" ltac:(apply in_required; tauto) ltac:(done)) as Hc.
  pose proof (Hcells "product_id" ltac:(apply in_required; tauto) ltac:(done)) as Hp.
  pose proof (Hna "customer_segmentid" ltac:(set_solver)) as Nc.
  pose proof (Hna "product_id" ltac:(set_solver)) as Np.
  change (coerce_sales "customer_segmentid" ?c)
    with (extract_key Text.class_C (astype_str c)) in Hc.
  change (coerce_sales "product_id" ?c) with (extract_key Text.class_P (astype_str c)) in Hp.
  split_and!.
  - done.
  - destruct (extract_key_cases _ _ _ Hc) as [[HNA _]|(ds & _ & -> & Hr)].
    + by rewrite HNA in Nc.
    + eauto.
  - destruct (extract_key_cases _ _ _ Hp) as [[HNA _]|(ds & _ & -> & Hr)].
    + by rewrite HNA in Np.
    + eauto.
Qed.

End SalesRows.

(** ** The batches of a run *)

Section RunFacts.
Context `{F : Float64}.
Implicit Types (df : DataFrame) (t : table) (st : state) (d : gmap string table).

(** The days [load_data_to_db] asks for. *)
Lemma fixed_range :
  generate_date_dimension "2022-01-01" "2026-01-01"
  = Ok (mkDF date_columns (date_row <$> Calendar.days_from 1462 (Calendar.mkDate 2022 1 1))).
Proof.
  unfold generate_date_dimension.
  change (Calendar.strptime "2022-01-01") with (Ok (Calendar.mkDate 2022 1 1)).
  change (Calendar.strptime "2026-01-01") with (Ok (Calendar.mkDate 2026 1 1)).
  cbn [mbind result_bind].
  change (Calendar.date_range _ _)
    with (Calendar.days_from 1462 (Calendar.mkDate 2022 1 1)).
  reflexivity.
Qed.

Lemma fixed_days_lookup i di :
  Calendar.days_from 1462 (Calendar.mkDate 2022 1 1) !! i = Some di →
  Calendar.valid di = true ∧ Calendar.ordinal di = 738156 + Z.of_nat i.
Proof.
  intros Hi.
  destruct (days_from_lookup 1462 (Calendar.mkDate 2022 1 1) (Calendar.mkDate 2026 1 1) i di)
    as [V Ho]; try done.
Qed.

Lemma fixed_days_keys :
  NoDup (Calendar.key <$> Calendar.days_from 1462 (Calendar.mkDate 2022 1 1)).
Proof.
  apply NoDup_alt. intros i j k Hi Hj.
  apply list_lookup_fmap_Some in Hi as (a & -> & Ha).
  apply list_lookup_fmap_Some in Hj as (b & Hk & Hb).
  apply fixed_days_lookup in Ha as [Va Oa], Hb as [Vb Ob].
  apply key_inj in Hk; [|done..]. subst. lia.
Qed.


Lemma date_row_values dy :
  Calendar.valid dy = true →
  value_of date_columns (date_row dy).2 "date_id" = IntCell (Calendar.key dy) ∧
  ∀ c, c ∈ not_null dim_date_table → isna (value_of date_columns (date_row dy).2 c) = false.
Proof.
  intros V. split; [by apply date_id_of_row|].
  intros c. unfold dim_date_table. cbn [not_null].
  rewrite !elem_of_cons, elem_of_nil.
  intros [->|[->|[->|[->|[->|[->|[]]]]]]]; reflexivity.
Qed.

(** The cells of the date dimension are small numbers and texts. *)
Lemma fixed_days_bindable :
  Forall (λ r, forallb bindable r = true)
    (date_row <$> Calendar.days_from 1462 (Calendar.mkDate 2022 1 1)).*2.
Proof.
  assert (forallb (λ r, forallb bindable r)
            (date_row <$> Calendar.days_from 1462 (Calendar.mkDate 2022 1 1)).*2 = true) as H
    by (vm_compute; reflexivity).
  rewrite forallb_forall in H. apply Forall_forall. intros r Hr.
  by apply H, list_elem_of_In.
Qed.

(** The date dimension goes into the empty [dim_date] table. *)
Lemma fixed_days_accepted d fk :
  ∃ td,
    insert_rows fk d "dim_date" date_columns dim_date_table
      (date_row <$> Calendar.days_from 1462 (Calendar.mkDate 2022 1 1)).*2 = Ok td.
Proof.
  apply (insert_rows_accepts fk d "dim_date" date_columns "date_id" _
           (Calendar.key <$> Calendar.days_from 1462 (Calendar.mkDate 2022 1 1)));
    [..|apply fixed_days_bindable].
  - done.
  - rewrite <- list_fmap_compose. apply Forall2_fmap, Forall_Forall2_diag, Forall_forall.
    intros dy [i Hi]%list_elem_of_lookup. apply fixed_days_lookup in Hi as [V _].
    by apply date_row_values.
  - apply fixed_days_keys.
  - done.
  - intros r c. rewrite <- list_fmap_compose.
    intros (dy & -> & [i Hi]%list_elem_of_lookup)%list_elem_of_fmap.
    apply fixed_days_lookup in Hi as [V _]. by apply date_row_values.
  - intros _ r k _ Hk. by apply elem_of_nil in Hk.
Qed.

(** Cells that are integers, and the integers. *)
Lemma int_cells {A} (g : A → cell) (xs : list A) :
  (∀ x, x ∈ xs → ∃ k, g x = IntCell k) →
  ∃ ids, Forall2 (λ x z, g x = IntCell z) xs ids ∧ g <$> xs = IntCell <$> ids.
Proof.
  induction xs as [|x xs IH]; intros Hall.
  - exists []. split; [constructor|done].
  - destruct (Hall x ltac:(by left)) as [k Hk].
    destruct IH as (ids & Hids & Heq); [intros; apply Hall; by right|].
    exists (k :: ids). split; [by constructor|]. cbn. by rewrite Hk, Heq.
Qed.

(** The rows of a normalised dimension go into its empty table, unless one
    holds an integer beyond 64 bits. *)
Lemma dimension_accepted cls key other df out name t d fk :
  key ≠ other →
  dimension cls key other df = Ok out →
  primary_key t = Some key → trows t = ∅ → not_null t = [] → foreign_keys t = [] →
  (frame_binds out → ∃ t', insert_rows fk d name (columns out) t (rows out).*2 = Ok t') ∧
  (¬ frame_binds out →
   insert_rows fk d name (columns out) t (rows out).*2 = Raise OverflowError).
Proof.
  intros Hne Hout Hpk Hempty Hnn Hfk.
  destruct (dimension_keys _ _ _ _ _ Hne Hout) as [Hnd Hrows].
  destruct (int_cells (λ r : Z * list cell, value_of (columns out) r.2 key) (rows out))
    as (ids & Hids & Heq).
  { intros m Hm. destruct (Hrows m Hm) as (_ & _ & _ & k & _ & _ & Hk & _). eauto. }
  destruct (insert_rows_bound fk d name (columns out) key (rows out).*2 ids t) as [H1 H2].
  - done.
  - by apply Forall2_fmap_l.
  - unfold column in Hnd. rewrite Heq in Hnd. by apply NoDup_fmap_1 in Hnd.
  - intros z _. by rewrite Hempty.
  - intros r c _. rewrite Hnn. by intros ?%elem_of_nil.
  - intros _ r k _. rewrite Hfk. by intros ?%elem_of_nil.
  - unfold frame_binds. rewrite Forall_fmap in H1, H2. split; [exact H1|exact H2].
Qed.

Lemma dimension_labels cls key other df out :
  key ≠ other → dimension cls key other df = Ok out →
  Forall (λ c, c ∈ [key; other]) (columns out).
Proof.
  intros Hne H. destruct (dimension_columns _ _ _ _ _ Hne H) as [-> _].
  apply Forall_cons. split; [by left|].
  apply Forall_forall. intros c [-> _]%elem_of_replicate. right. by left.
Qed.

(** The rows that pass the referential filter bring their [sales_id]s, one
    more than their index labels and all different. *)
Lemma kept_sale_ids (f : csv) out tc tp :
  norm_sales (read_csv f) = Ok out →
  Forall2 (λ r z, value_of (columns out) r "sales_id" = IntCell z)
    (kept_rows tc tp out).*2 ((λ r : Z * list cell, r.1 + 1) <$> kept_rows tc tp out) ∧
  NoDup ((λ r : Z * list cell, r.1 + 1) <$> kept_rows tc tp out).
Proof.
  intros Hout.
  destruct (norm_sales_index f out Hout) as [Hidx _].
  assert (kept_rows tc tp out `sublist_of` rows out) as Hsub by apply sublist_filter.
  split.
  - apply Forall2_fmap, Forall_Forall2_diag, Forall_forall. intros m Hm.
    destruct (norm_sales_cells _ _ m Hout) as (r & _ & [Hid _] & _); [|done].
    by eapply elem_of_sublist.
  - change (λ r : Z * list cell, r.1 + 1) with ((λ i, i + 1) ∘ (fst : Z * list cell → Z)).
    rewrite list_fmap_compose. apply NoDup_fmap_2; [intros ???; lia|].
    apply (sublist_NoDup _ (seqZ 0 (Z.of_nat (length (records f))))); [apply NoDup_seqZ|].
    etrans; [|exact Hidx]. by apply sublist_fmap.
Qed.

(** The rows of the sales frame that pass the referential filter go into
    the empty [sales] table, unless one holds an integer beyond 64 bits. *)
Lemma sales_accepted (f : csv) out tc tp d :
  norm_sales (read_csv f) = Ok out →
  d !! "customer" = Some tc → d !! "product" = Some tp →
  (Forall (λ r : Z * list cell, forallb bindable r.2 = true) (kept_rows tc tp out) →
   ∃ ts,
     insert_rows true d "sales" (columns out) sales_table (kept_rows tc tp out).*2 = Ok ts) ∧
  (¬ Forall (λ r : Z * list cell, forallb bindable r.2 = true) (kept_rows tc tp out) →
   insert_rows true d "sales" (columns out) sales_table (kept_rows tc tp out).*2
   = Raise OverflowError).
Proof.
  intros Hout Htc Htp.
  destruct (kept_sale_ids f out tc tp Hout) as [Hids Hnd].
  assert (kept_rows tc tp out `sublist_of` rows out) as Hsub by apply sublist_filter.
  destruct (insert_rows_bound true d "sales" (columns out) "sales_id"
              (kept_rows tc tp out).*2
              ((λ r : Z * list cell, r.1 + 1) <$> kept_rows tc tp out) sales_table)
    as [H1 H2]; try done.
  - intros r c (m & -> & Hm)%list_elem_of_fmap Hc.
    destruct (norm_sales_cells _ _ m Hout) as (_ & _ & _ & Hna); [by eapply elem_of_sublist|].
    by apply Hna.
  - intros _ r k (m & -> & Hm)%list_elem_of_fmap Hk.
    apply list_elem_of_filter in Hm as [[Hc Hp] _].
    unfold sales_table in Hk. cbn [foreign_keys] in Hk.
    unfold isin in Hc, Hp. apply andb_true_iff in Hc as [Hc1 Hc2], Hp as [Hp1 Hp2].
    apply bool_decide_eq_true in Hc2, Hp2. apply elem_of_list_to_set in Hc2, Hp2.
    apply elem_of_cons in Hk as [->|Hk]; [|apply list_elem_of_singleton in Hk as ->];
      unfold foreign_key_ok; cbn [fst snd].
    + rewrite Htc. destruct (value_of (columns out) m.2 "customer_segmentid"); try done;
        by apply bool_decide_eq_true.
    + rewrite Htp. destruct (value_of (columns out) m.2 "product_id"); try done;
        by apply bool_decide_eq_true.
  - rewrite Forall_fmap in H1, H2. split; [exact H1|exact H2].
Qed.


Lemma kept_rows_bind tc tp df :
  frame_binds df →
  Forall (λ r : Z * list cell, forallb bindable r.2 = true) (kept_rows tc tp df).
Proof.
  intros Hb. apply Forall_forall. intros r [_ Hr]%list_elem_of_filter.
  by apply (proj1 (Forall_forall _ _) Hb).
Qed.

End RunFacts.

(** ** The steps of a run *)

Section StepFacts.
Context `{F : Float64}.
Implicit Types (df : DataFrame) (t : table) (st : state) (d : gmap string table).

Lemma outcome_lift {A} (r : result A) st : outcome (lift r st) = (r, st).
Proof. reflexivity. Qed.

Lemma outcome_read_file fs name st :
  outcome (read_file fs name st)
  = match fs !! name with
    | None => (Raise (FileNotFoundError name), st)
    | Some f => (Ok (read_csv f), st)
    end.
Proof.
  unfold read_file. destruct (fs !! name); [|done]. by rewrite outcome_bind.
Qed.

Lemma outcome_then_logging (m : M unit) lv msg st :
  outcome ((m ;; logging lv msg) st) = outcome (m st).
Proof.
  rewrite outcome_bind. by destruct (outcome (m st)) as [[[]|e] st'].
Qed.

(** The counts are printed for tables that are there, and nothing
    changes. *)
Lemma count_loop_outcome tables st :
  Forall (λ name, is_Some (db st !! name)) tables →
  outcome (for_each tables (λ table,
             d <- get_db ;;
             match d !! table with
             | None => raise (OperationalError table)
             | Some t => logging INFO (table +:+ ": " +:+ show (size (trows t)))
             end) st) = (Ok (), st).
Proof.
  induction 1 as [|name tables [t Ht] _ IH]; [done|].
  cbn [for_each]. rewrite outcome_bind.
  rewrite outcome_bind. cbn [get_db outcome fst snd]. rewrite Ht. cbn. exact IH.
Qed.

Lemma print_table_row_counts_outcome tables st :
  Forall (λ name, is_Some (db st !! name)) tables →
  outcome (print_table_row_counts tables st) = (Ok (), st).
Proof.
  intros H. unfold print_table_row_counts. rewrite outcome_bind. cbn.
  by apply count_loop_outcome.
Qed.

Lemma insert_sales_outcome df st tc tp pc pp :
  db st !! "customer" = Some tc → "customer_segmentid" ∈ tcolumns tc →
  db st !! "product" = Some tp → "product_id" ∈ tcolumns tp →
  positions "customer_segmentid" (columns df) = [pc] →
  positions "product_id" (columns df) = [pp] →
  outcome (insert_sales df st)
  = if decide (kept_rows tc tp df = []) then (Ok (), st)
    else outcome (to_sql "sales" (mkDF (columns df) (kept_rows tc tp df)) st).
Proof.
  intros Htc Hc Htp Hp Hpc Hpp.
  rewrite (insert_sales_run df st tc tp pc pp) by done. cbv zeta.
  case_decide; [done|].
  by destruct (to_sql _ _ st) as [[[[]|e] st'] l].
Qed.

End StepFacts.

(** ** How a run ends *)

Section RunOutcome.
Context `{F : Float64}.
Implicit Types (df : DataFrame) (t : table) (st : state) (d : gmap string table).

Lemma insert_rows_schema fk d name cols t rs t' :
  insert_rows fk d name cols t rs = Ok t' → tcolumns t' = tcolumns t.
Proof. intros (H & _)%insert_rows_Ok. apply H. Qed.

(** How the loads from the files end, case by case. *)
Lemma load_files_outcome fs d1 :
  d1 !! "customer" = Some customer_table →
  d1 !! "product" = Some product_table →
  d1 !! "sales" = Some sales_table →
  is_Some (d1 !! "dim_date") →
  let ends := outcome (load_files fs (mkState d1 None true)) in
  match fs !! "customers_clean.csv" with
  | None => ends = (Raise (FileNotFoundError "customers_clean.csv"), mkState d1 None true)
  | Some fc =>
      match norm_customers (read_csv fc) with
      | Raise e => ends = (Raise e, mkState d1 None true)
      | Ok oc =>
          match insert_rows true d1 "customer" (columns oc) customer_table (rows oc).*2 with
          | Raise e => ends = (Raise e, mkState d1 None true)
          | Ok tc =>
            let d2 := <["customer" := tc]> d1 in
            match fs !! "key_lime_products_clean.csv" with
            | None =>
                ends = (Raise (FileNotFoundError "key_lime_products_clean.csv"),
                        mkState d2 None true)
            | Some fp =>
                match norm_products (read_csv fp) with
                | Raise e => ends = (Raise e, mkState d2 None true)
                | Ok op =>
                    match insert_rows true d2 "product" (columns op) product_table
                            (rows op).*2 with
                    | Raise e => ends = (Raise e, mkState d2 None true)
                    | Ok tp =>
                      let d3 := <["product" := tp]> d2 in
                      match fs !! "sales_fact_clean.csv" with
                      | None =>
                          ends = (Raise (FileNotFoundError "sales_fact_clean.csv"),
                                  mkState d3 None true)
                      | Some fl =>
                          match norm_sales (read_csv fl) with
                          | Raise e => ends = (Raise e, mkState d3 None true)
                          | Ok os =>
                              match insert_rows true d3 "sales" (columns os) sales_table
                                      (kept_rows tc tp os).*2 with
                              | Raise e => ends = (Raise e, mkState d3 None true)
                              | Ok ts =>
                                  ends = (Ok (), mkState (<["sales" := ts]> d3) None true)
                              end
                          end
                      end
                    end
                end
            end
          end
      end
  end.
Proof.
  intros Hc Hp Hs Hd. cbv zeta. unfold load_files.
  rewrite outcome_bind, outcome_read_file.
  destruct (fs !! "customers_clean.csv") as [fc|]; [|done].
  rewrite outcome_bind, outcome_lift.
  destruct (norm_customers (read_csv fc)) as [oc|e] eqn:Hoc; [|done].
  rewrite norm_customers_dimension in Hoc.
  assert ("customer_segmentid" ≠ "customer_segment") as Hnc by done.
  assert ("product_id" ≠ "product_variant") as Hnp by done.
  assert (Forall (λ c, c ∈ tcolumns customer_table) (columns oc)) as Hlc.
  { eapply Forall_impl; [apply (dimension_labels _ _ _ _ _ Hnc Hoc)|]. done. }
  rewrite outcome_bind. unfold insert_customers. rewrite outcome_then_logging.
  destruct (insert_rows true d1 "customer" (columns oc) customer_table (rows oc).*2)
    as [tc|e] eqn:Htc.
  2:{ by rewrite (to_sql_refuses "customer" oc customer_table e d1 true Hc Hlc Htc). }
  rewrite (to_sql_accepts "customer" oc customer_table tc d1 true Hc Hlc Htc).
  rewrite outcome_bind, outcome_read_file.
  destruct (fs !! "key_lime_products_clean.csv") as [fp|]; [|done].
  rewrite outcome_bind, outcome_lift.
  destruct (norm_products (read_csv fp)) as [op|e] eqn:Hop; [|done].
  rewrite norm_products_dimension in Hop.
  assert (Forall (λ c, c ∈ tcolumns product_table) (columns op)) as Hlp.
  { eapply Forall_impl; [apply (dimension_labels _ _ _ _ _ Hnp Hop)|]. done. }
  assert (<["customer" := tc]> d1 !! "product" = Some product_table) as H2p
    by (by rewrite lookup_insert_ne).
  rewrite outcome_bind. unfold insert_products. rewrite outcome_then_logging.
  destruct (insert_rows true (<["customer" := tc]> d1) "product" (columns op) product_table
              (rows op).*2) as [tp|e] eqn:Htp.
  2:{ by rewrite (to_sql_refuses "product" op product_table e _ true H2p Hlp Htp). }
  rewrite (to_sql_accepts "product" op product_table tp _ true H2p Hlp Htp).
  rewrite outcome_bind, outcome_read_file.
  destruct (fs !! "sales_fact_clean.csv") as [fl|]; [|done].
  rewrite outcome_bind, outcome_lift.
  destruct (norm_sales (read_csv fl)) as [os|e] eqn:Hos; [|done].
  set (d3 := <["product" := tp]> (<["customer" := tc]> d1)).
  assert (d3 !! "customer" = Some tc) as H3c.
  { unfold d3. rewrite lookup_insert_ne by done. by rewrite lookup_insert_eq. }
  assert (d3 !! "product" = Some tp) as H3p by (unfold d3; by rewrite lookup_insert_eq).
  assert (d3 !! "sales" = Some sales_table) as H3s.
  { unfold d3. by rewrite !lookup_insert_ne by done. }
  rewrite outcome_bind.
  pose proof (norm_sales_Ok _ _ Hos) as (sid & c & Hcl & Hren).
  destruct (sales_cleaned_Ok _ _ _ Hcl) as (Hsid & Huniq & Hwf & _).
  destruct (renumbered_rows sid c Hsid Hwf) as [Hcols _]. rewrite <- Hren in Hcols.
  destruct (Huniq "customer_segmentid" ltac:(set_solver)) as [pc Hpc].
  destruct (Huniq "product_id" ltac:(set_solver)) as [pp Hpp].
  rewrite (insert_sales_outcome os _ tc tp pc pp); cbn [db]; try done.
  2:{ rewrite (insert_rows_schema _ _ _ _ _ _ _ Htc). set_solver. }
  2:{ rewrite (insert_rows_schema _ _ _ _ _ _ _ Htp). set_solver. }
  2,3: by rewrite Hcols.
  assert (Forall (λ c, c ∈ tcolumns sales_table)
            (columns (mkDF (columns os) (kept_rows tc tp os)))) as Hls.
  { cbn [columns]. destruct (norm_sales_columns _ _ Hos) as [-> _].
    rewrite !Forall_app, !Forall_cons, Forall_nil. unfold sales_table. cbn [tcolumns].
    split_and!; try set_solver.
    apply Forall_forall. intros x [-> _]%elem_of_replicate. set_solver. }
  assert (∀ dd, is_Some (dd !! "sales") →
            (∀ name, name ≠ "sales" → dd !! name = d3 !! name) →
            outcome ((commit ;;
                      print_table_row_counts ["dim_date"; "customer"; "product"; "sales"] ;;
                      logging INFO "ETL process completed successfully!")
                       (mkState dd None true))
            = (Ok (), mkState dd None true)) as Htail.
  { intros dd Hsales Hother. rewrite outcome_bind. cbn [commit outcome fst snd db snapshot
      pragma_foreign_keys].
    rewrite outcome_then_logging. apply print_table_row_counts_outcome. cbn [db].
    repeat (apply Forall_cons; split); [..|constructor].
    - rewrite Hother by done. unfold d3. by rewrite !lookup_insert_ne by done.
    - rewrite Hother, H3c by done. eauto.
    - rewrite Hother, H3p by done. eauto.
    - done. }
  destruct (insert_rows true d3 "sales" (columns os) sales_table (kept_rows tc tp os).*2)
    as [ts|e] eqn:Hts.
  - case_decide as Hkept.
    + rewrite Hkept in Hts. cbn in Hts. injection Hts as <-.
      rewrite (insert_id d3) by done. apply Htail; [by rewrite H3s|done].
    + rewrite (to_sql_accepts "sales" _ sales_table ts d3 true H3s Hls Hts).
      apply Htail; [by rewrite lookup_insert_eq|].
      intros name Hne. by rewrite lookup_insert_ne.
  - case_decide as Hkept.
    + rewrite Hkept in Hts. done.
    + by rewrite (to_sql_refuses "sales" _ sales_table e d3 true H3s Hls Hts).
Qed.

End RunOutcome.

Section RunTheorems.
Context `{F : Float64}.
Implicit Types (df : DataFrame) (t : table) (st : state) (d : gmap string table).

(** The database when the date dimension is in. *)
Lemma load_tables_outcome fs d :
  ∃ td,
    insert_rows true (fresh_schema d) "dim_date" date_columns dim_date_table
      (date_row <$> Calendar.days_from 1462 (Calendar.mkDate 2022 1 1)).*2 = Ok td ∧
    outcome (load_tables fs (mkState (fresh_schema d) None true))
    = outcome (load_files fs (mkState (<["dim_date" := td]> (fresh_schema d)) None true)).
Proof.
  destruct (fixed_days_accepted (fresh_schema d) true) as [td Htd].
  exists td. split; [done|].
  unfold load_tables. rewrite outcome_bind, outcome_logging.
  rewrite outcome_bind, outcome_lift, fixed_range.
  rewrite outcome_bind. unfold insert_dim_date. rewrite outcome_then_logging.
  rewrite (to_sql_accepts "dim_date" _ dim_date_table td (fresh_schema d) true).
  - reflexivity.
  - by rewrite fresh_schema_lookup.
  - cbn [columns]. apply Forall_forall. by intros c Hc.
  - exact Htd.
Qed.

Lemma run_outcome truncate fs d :
  ∃ td,
    insert_rows true (fresh_schema d) "dim_date" date_columns dim_date_table
      (date_row <$> Calendar.days_from 1462 (Calendar.mkDate 2022 1 1)).*2 = Ok td ∧
    run truncate fs d
    = ((outcome (load_files fs (mkState (<["dim_date" := td]> (fresh_schema d)) None true))).1,
       durable
         (outcome (load_files fs (mkState (<["dim_date" := td]> (fresh_schema d)) None true))).2).
Proof.
  destruct (load_tables_outcome fs d) as (td & Htd & Hrun).
  exists td. split; [done|].
  rewrite run_from_fresh_schema.
  change (?x.1.1, durable ?x.1.2) with ((outcome x).1, durable (outcome x).2).
  by rewrite after_schema_flag, Hrun.
Qed.

Lemma dated_schema_lookup d td :
  let d1 := <["dim_date" := td]> (fresh_schema d) in
  d1 !! "customer" = Some customer_table ∧ d1 !! "product" = Some product_table ∧
  d1 !! "sales" = Some sales_table ∧ is_Some (d1 !! "dim_date").
Proof.
  cbv zeta. rewrite !lookup_insert_ne, !fresh_schema_lookup by done.
  rewrite lookup_insert_eq. cbn. split_and!; eauto.
Qed.

(** The rows of a table loaded from the empty one: as many as the batch
    has, keyed by the integers it brings. *)
Lemma insert_rows_size fk d name cols t rs t' pk ids :
  insert_rows fk d name cols t rs = Ok t' →
  primary_key t = Some pk → trows t = ∅ →
  Forall2 (λ r z, value_of cols r pk = IntCell z) rs ids → NoDup ids →
  table_keys t' = list_to_set ids ∧ size (trows t') = length rs.
Proof.
  intros (_ & _ & Hdom)%insert_rows_Ok Hpk Hempty Hids Hnd.
  specialize (Hdom pk ids Hpk Hids). rewrite Hempty, dom_empty_L, (left_id_L ∅ (∪)) in Hdom.
  split; [done|].
  rewrite <- size_dom, Hdom, size_list_to_set by done. symmetry. by eapply Forall2_length.
Qed.


(** The [dim_date] table once the fixed range is in. *)
Lemma fixed_days_loaded fk d td :
  insert_rows fk d "dim_date" date_columns dim_date_table
    (date_row <$> Calendar.days_from 1462 (Calendar.mkDate 2022 1 1)).*2 = Ok td →
  size (trows td) = 1462%nat ∧
  table_keys td
  = list_to_set (Calendar.key <$> Calendar.days_from 1462 (Calendar.mkDate 2022 1 1)).
Proof.
  intros Htd.
  destruct (insert_rows_size _ _ _ _ _ _ _ "date_id"
              (Calendar.key <$> Calendar.days_from 1462 (Calendar.mkDate 2022 1 1))
              Htd eq_refl eq_refl) as [Hkeys Hsize].
  - clear Htd. rewrite <- list_fmap_compose.
    apply Forall2_fmap, Forall_Forall2_diag, Forall_forall.
    intros dy [i Hi]%list_elem_of_lookup. apply fixed_days_lookup in Hi as [V _].
    by apply date_row_values.
  - apply fixed_days_keys.
  - clear Htd. split; [|exact Hkeys].
    rewrite Hsize, !length_fmap. apply length_days_from.
Qed.

(** A run, from the database with the date dimension in. *)
Lemma run_ends truncate fs d :
  ∃ td,
    size (trows td) = 1462%nat ∧
    table_keys td
    = list_to_set (Calendar.key <$> Calendar.days_from 1462 (Calendar.mkDate 2022 1 1)) ∧
    run truncate fs d
    = ((outcome (load_files fs (mkState (<["dim_date" := td]> (fresh_schema d)) None true))).1,
       durable
         (outcome (load_files fs (mkState (<["dim_date" := td]> (fresh_schema d)) None true))).2).
Proof.
  destruct (run_outcome truncate fs d) as (td & Htd & Hrun).
  destruct (fixed_days_loaded _ _ _ Htd) as [Hsize Hkeys]. clear Htd.
  exists td. split_and!; [exact Hsize|exact Hkeys|exact Hrun].
Qed.

End RunTheorems.

(** ** What a run leaves *)

Section RunClaims.
Context `{F : Float64}.
Implicit Types (df : DataFrame) (t : table) (st : state) (d : gmap string table).



Lemma is_ok_Ok {A} (r : result A) : is_ok r = true → ∃ a, r = Ok a.
Proof. destruct r; [eauto|done]. Qed.

(** X1: on a database in which no other table refers to those of the
    pipeline, a run completes when the three prepared files are there, each
    normaliser returns on its file and no frame holds an integer beyond 64
    bits: the database then refuses no row.  It completes only when the
    files are there and the normalisers return. *)
Theorem run_completes_when truncate fs d :
  unreferenced d →
  (∀ fc fp fl oc op os,
     fs !! "customers_clean.csv" = Some fc →
     fs !! "key_lime_products_clean.csv" = Some fp →
     fs !! "sales_fact_clean.csv" = Some fl →
     norm_customers (read_csv fc) = Ok oc →
     norm_products (read_csv fp) = Ok op →
     norm_sales (read_csv fl) = Ok os →
     frame_binds oc → frame_binds op → frame_binds os →
     (run truncate fs d).1 = Ok ()) ∧
  ((run truncate fs d).1 = Ok () →
   ∃ fc fp fl,
     fs !! "customers_clean.csv" = Some fc ∧
     fs !! "key_lime_products_clean.csv" = Some fp ∧
     fs !! "sales_fact_clean.csv" = Some fl ∧
     is_ok (norm_customers (read_csv fc)) = true ∧
     is_ok (norm_products (read_csv fp)) = true ∧
     is_ok (norm_sales (read_csv fl)) = true).
Proof.
  intros _.
  destruct (run_ends truncate fs d) as (td & _ & _ & ->). cbn [fst].
  destruct (dated_schema_lookup d td) as (Hc & Hp & Hs & Hd).
  pose proof (load_files_outcome fs _ Hc Hp Hs Hd) as Htree. cbv zeta in Htree.
  assert ("customer_segmentid" ≠ "customer_segment") as Hnc by done.
  assert ("product_id" ≠ "product_variant") as Hnp by done.
  split.
  - intros fc fp fl oc op os Hfc Hfp Hfl Hoc Hop Hos Hbc Hbp Hbs.
    rewrite Hfc, Hoc in Htree.
    pose proof Hoc as Hoc'. rewrite norm_customers_dimension in Hoc'.
    destruct (proj1 (dimension_accepted _ _ _ _ _ "customer" customer_table
                       (<["dim_date" := td]> (fresh_schema d)) true Hnc Hoc'
                       eq_refl eq_refl eq_refl eq_refl) Hbc) as [tc Htc].
    rewrite Htc, Hfp, Hop in Htree.
    pose proof Hop as Hop'. rewrite norm_products_dimension in Hop'.
    destruct (proj1 (dimension_accepted _ _ _ _ _ "product" product_table
                       (<["customer" := tc]> (<["dim_date" := td]> (fresh_schema d))) true
                       Hnp Hop' eq_refl eq_refl eq_refl eq_refl) Hbp) as [tp Htp].
    rewrite Htp, Hfl, Hos in Htree.
    destruct (proj1 (sales_accepted fl os tc tp
                       (<["product" := tp]>
                          (<["customer" := tc]> (<["dim_date" := td]> (fresh_schema d))))
                       Hos ltac:(rewrite lookup_insert_ne by done; by rewrite lookup_insert_eq)
                       ltac:(by rewrite lookup_insert_eq))
                (kept_rows_bind tc tp os Hbs)) as [ts Hts].
    rewrite Hts in Htree. by rewrite Htree.
  - destruct (fs !! "customers_clean.csv") as [fc|]; [|by rewrite Htree].
    destruct (norm_customers (read_csv fc)) as [oc|e] eqn:Hoc; [|by rewrite Htree].
    destruct (insert_rows _ _ "customer" _ _ _) as [tc|e]; [|by rewrite Htree].
    destruct (fs !! "key_lime_products_clean.csv") as [fp|]; [|by rewrite Htree].
    destruct (norm_products (read_csv fp)) as [op|e] eqn:Hop; [|by rewrite Htree].
    destruct (insert_rows _ _ "product" _ _ _) as [tp|e]; [|by rewrite Htree].
    destruct (fs !! "sales_fact_clean.csv") as [fl|]; [|by rewrite Htree].
    destruct (norm_sales (read_csv fl)) as [os|e] eqn:Hos; [|by rewrite Htree].
    intros _. exists fc, fp, fl. by rewrite Hoc, Hop, Hos.
Qed.






End RunClaims.

(** ** The normalisers, as a whole *)

Section NormaliserClaims.
Context `{F : Float64}.
Implicit Types (df : DataFrame) (cols labels : list string) (l : string).

(** X6: each normaliser raises a [KeyError] exactly when a canonical column
    is missing from the header it works with (the header as written for the
    products, trimmed and lower-cased for the others, then renamed), and the
    error names the missing columns in canonical order. *)
Theorem normalisers_raise_KeyError df ls :
  (norm_customers df = Raise (KeyError ls) ↔
     ls ≠ [] ∧ ls = filter (λ l, l ∉ customer_header df) customer_columns) ∧
  (norm_products df = Raise (KeyError ls) ↔
     ls ≠ [] ∧ ls = filter (λ l, l ∉ product_header df) product_columns) ∧
  (norm_sales df = Raise (KeyError ls) ↔
     ls ≠ [] ∧ ls = filter (λ l, l ∉ sales_header df) required).
Proof.
  split_and!.
  - rewrite norm_customers_dimension.
    by apply (dimension_KeyError Text.class_C "customer_segmentid" "customer_segment"
                (rename customer_renames (normalize_headers df))).
  - rewrite norm_products_dimension.
    by apply (dimension_KeyError Text.class_P "product_id" "product_variant"
                (rename product_renames df)).
  - apply norm_sales_KeyError.
Qed.

(** X7: a dimension normaliser returns exactly when the other column is
    there, one column bears the key label, and no code holds digits beyond
    2^63 - 1. *)
Theorem dimension_normalisers_return_iff df :
  (is_ok (norm_customers df) = true ↔
     "customer_segment" ∈ customer_header df ∧
     length (positions "customer_segmentid" (customer_header df)) = 1%nat ∧
     ∀ r, r ∈ rows df →
       is_ok (extract_key Text.class_C
                (astype_str (value_of (customer_header df) r.2 "customer_segmentid"))) = true) ∧
  (is_ok (norm_products df) = true ↔
     "product_variant" ∈ product_header df ∧
     length (positions "product_id" (product_header df)) = 1%nat ∧
     ∀ r, r ∈ rows df →
       is_ok (extract_key Text.class_P
                (astype_str (value_of (product_header df) r.2 "product_id"))) = true) ∧
  (∀ cls s, is_ok (extract_key cls s) = true ↔
     ∀ ds, Text.regex_extract cls (Text.strip s) = Some ds →
           Text.int_of_digits ds ≤ int64_max).
Proof.
  split_and!.
  - rewrite norm_customers_dimension.
    by apply (dimension_is_ok Text.class_C "customer_segmentid" "customer_segment"
                (rename customer_renames (normalize_headers df))).
  - rewrite norm_products_dimension.
    by apply (dimension_is_ok Text.class_P "product_id" "product_variant"
                (rename product_renames df)).
  - apply extract_key_is_ok.
Qed.

(** X8: when the transaction ids are numbers of 64 bits, [norm_sales]
    returns exactly when the seven canonical columns are in the header, each
    but [sale_date] once, and in every row the two codes hold no digits
    beyond 2^63 - 1 and the transaction id reads as a missing value or an
    integer. *)
Theorem norm_sales_returns_iff df :
  forallb (λ r : Z * list cell,
             in_int64 (to_numeric (value_of (sales_header df) r.2 "sales_id")))
    (rows df) = true →
  (is_ok (norm_sales df) = true ↔
   "sale_date" ∈ sales_header df ∧
   (∀ l, l ∈ required → l ≠ "sale_date" →
         length (positions l (sales_header df)) = 1%nat) ∧
   (∀ r, r ∈ rows df →
      is_ok (extract_key Text.class_C
               (astype_str (value_of (sales_header df) r.2 "customer_segmentid"))) = true ∧
      is_ok (extract_key Text.class_P
               (astype_str (value_of (sales_header df) r.2 "product_id"))) = true ∧
      is_ok (astype_Int64 "sales_id"
               (to_numeric (value_of (sales_header df) r.2 "sales_id"))) = true)).
Proof.
  intros _. rewrite norm_sales_is_ok. split; intros (Hd & Hone & Hcells); split_and!; try done.
  - intros r Hr. split_and!.
    + apply (Hcells r "customer_segmentid" Hr). set_solver.
    + apply (Hcells r "product_id" Hr). set_solver.
    + apply (Hcells r "sales_id" Hr). set_solver.
  - intros r l Hr. rewrite !elem_of_cons, elem_of_nil.
    destruct (Hcells r Hr) as (H1 & H2 & H3). intros [->|[->|[->|[]]]]; done.
Qed.

(** X9: the frame a normaliser returns has the canonical columns in
    canonical order, the label that is not coerced as often as the input has
    it, and a cell for every column in every row. *)
Theorem normalised_frames_are_canonical df out :
  (norm_customers df = Ok out →
     columns out
     = "customer_segmentid"
       :: replicate (length (positions "customer_segment" (customer_header df)))
            "customer_segment" ∧
     well_formed out) ∧
  (norm_products df = Ok out →
     columns out
     = "product_id"
       :: replicate (length (positions "product_variant" (product_header df)))
            "product_variant" ∧
     well_formed out) ∧
  (norm_sales df = Ok out →
     columns out
     = (["sales_id"; "customer_segmentid"; "product_id"; "units_sold"]
        ++ replicate (length (positions "sale_date" (sales_header df))) "sale_date"
        ++ ["sale_amount"; "profit_margin"])%list ∧
     well_formed out).
Proof.
  split_and!.
  - rewrite norm_customers_dimension.
    by apply (dimension_columns Text.class_C "customer_segmentid" "customer_segment"
                (rename customer_renames (normalize_headers df))).
  - rewrite norm_products_dimension.
    by apply (dimension_columns Text.class_P "product_id" "product_variant"
                (rename product_renames df)).
  - apply norm_sales_columns.
Qed.

(** X10: in every row [norm_sales] returns, the [sales_id] is one more than
    the index label, the two keys are integers from 0 to 2^63 - 1, the sale
    amount is a number, and the other two measures hold no text. *)
Theorem norm_sales_rows_are_typed df out m :
  norm_sales df = Ok out → m ∈ rows out →
  value_of (columns out) m.2 "sales_id" = IntCell (m.1 + 1) ∧
  (∃ a, value_of (columns out) m.2 "customer_segmentid" = IntCell a ∧ 0 ≤ a ≤ int64_max) ∧
  (∃ b, value_of (columns out) m.2 "product_id" = IntCell b ∧ 0 ≤ b ≤ int64_max) ∧
  ((∃ z, value_of (columns out) m.2 "sale_amount" = IntCell z) ∨
   (∃ x, value_of (columns out) m.2 "sale_amount" = FloatCell x)) ∧
  (∀ s, value_of (columns out) m.2 "units_sold" ≠ StrCell s) ∧
  (∀ s, value_of (columns out) m.2 "profit_margin" ≠ StrCell s).
Proof.
  intros Hout Hm.
  destruct (norm_sales_keys _ _ m Hout Hm) as (Hid & Hc & Hp).
  destruct (norm_sales_cells _ _ m Hout Hm) as (r & _ & [_ Hcells] & Hna).
  pose proof (Hcells "sale_amount" ltac:(apply in_required; tauto) ltac:(done)) as Ha.
  pose proof (Hcells "units_sold" ltac:(apply in_required; tauto) ltac:(done)) as Hu.
  pose proof (Hcells "profit_margin" ltac:(apply in_required; tauto) ltac:(done)) as Hpm.
  pose proof (Hna "sale_amount" ltac:(set_solver)) as Na.
  change (coerce_sales "sale_amount" ?c) with (Ok (to_numeric c)) in Ha.
  change (coerce_sales "units_sold" ?c) with (Ok (to_numeric c)) in Hu.
  change (coerce_sales "profit_margin" ?c) with (Ok (to_numeric c)) in Hpm.
  split_and!; [done..| | |].
  - injection Ha as Ha.
    pose proof (to_numeric_not_str (value_of (sales_header df) r.2 "sale_amount")) as Hs.
    rewrite Ha in Hs. destruct (value_of (columns out) m.2 "sale_amount") as [|z|x|s]; eauto.
    + done.
    + by destruct (Hs s).
  - intros s Hs. injection Hu as Hu. rewrite Hs in Hu. by apply to_numeric_not_str in Hu.
  - intros s Hs. injection Hpm as Hpm. rewrite Hs in Hpm. by apply to_numeric_not_str in Hpm.
Qed.

End NormaliserClaims.

(** ** Sale ids and the file *)

Section SaleIds.
Context `{F : Float64}.
Implicit Types (df : DataFrame) (cols labels : list string) (l : string).

(** A row of [read_csv f] is a record of [f] under its position. *)
Lemma read_csv_rows (f : csv) r :
  r ∈ rows (read_csv f) → 0 ≤ r.1 ∧ records f !! Z.to_nat r.1 = Some r.2.
Proof.
  unfold read_csv. cbn [rows]. intros [i Hi]%list_elem_of_lookup.
  unfold zip in Hi. apply lookup_zip_with_Some in Hi as (z & rec & -> & Hz & Hrec).
  apply lookup_seqZ in Hz as [-> _]. cbn. split; [lia|].
  by rewrite Z.add_0_l, Nat2Z.id.
Qed.

(** Without a reset of the index a row keeps the label of the input row it
    is the normal form of. *)
Lemma norm_sales_source df sid c m :
  sales_cleaned df = Ok (sid, c) →
  na_or_duplicated ((λ r : Z * list cell, cell_at sid r.2) <$> rows c) = false →
  m ∈ rows (renumbered sid c) →
  ∃ r, r ∈ rows df ∧ r.1 = m.1 ∧
       sales_row (sales_header df) (columns (renumbered sid c)) r m.
Proof.
  intros Hc Hno [i Hi]%list_elem_of_lookup.
  destruct (sales_cleaned_Ok _ _ _ Hc) as (Hp & _ & Hwf & mid & Hmid & Hrows).
  destruct (renumbered_rows sid c Hp Hwf) as [Hcols Hnum]. rewrite Hcols.
  pose proof (renumbered_index sid c Hp) as Hidx. rewrite Hno in Hidx.
  destruct (Forall2_lookup_r _ _ _ _ _ Hnum Hi) as (a & Ha & Hid & Hrest).
  assert (m.1 = a.1) as Hma.
  { apply (f_equal (λ zs : list Z, zs !! i)) in Hidx. rewrite !list_lookup_fmap, Hi, Ha in Hidx.
    by injection Hidx. }
  apply list_elem_of_lookup_2 in Ha. rewrite Hrows in Ha.
  apply list_elem_of_filter in Ha as [Hna [j Hj]%list_elem_of_lookup].
  destruct (Forall2_lookup_r _ _ _ _ _ Hmid Hj) as (r & Hr & Hl & Hcells).
  exists r. split; [by apply list_elem_of_lookup_2 in Hr|]. split; [congruence|].
  split; [done|]. intros l Hl' Hne. specialize (Hcells l Hl').
  rewrite decide_True in Hcells by done. by rewrite Hrest.
Qed.

(** X11: the sale ids of the rows [norm_sales] makes of a file are strictly
    increasing down the frame, between 1 and the number of records, each one
    more than the index label of its row; when no transaction id of the rows
    kept is missing or repeated, the sale id of a row is the position of its
    record in the file, counted from 1. *)
Theorem sale_ids_follow_the_file (f : csv) out :
  norm_sales (read_csv f) = Ok out →
  (rows out).*1 `sublist_of` seqZ 0 (Z.of_nat (length (records f))) ∧
  column "sales_id" out = (λ i, IntCell (i + 1)) <$> (rows out).*1 ∧
  ∀ sid c,
    sales_cleaned (read_csv f) = Ok (sid, c) →
    na_or_duplicated ((λ r : Z * list cell, cell_at sid r.2) <$> rows c) = false →
    ∀ m, m ∈ rows out →
      ∃ rec, 0 ≤ m.1 ∧ records f !! Z.to_nat m.1 = Some rec ∧
             sales_row (sales_header (read_csv f)) (columns out) (m.1, rec) m.
Proof.
  intros Hout. destruct (norm_sales_index f out Hout) as [Hsub Hcol].
  split; [done|]. split; [done|].
  intros sid c Hc Hno m Hm.
  apply norm_sales_Ok in Hout as (sid' & c' & Hc' & ->).
  rewrite Hc in Hc'. injection Hc' as <- <-.
  destruct (norm_sales_source _ _ _ m Hc Hno Hm) as (r & Hr & Hl & Hrow).
  apply read_csv_rows in Hr as [H0 Hrec]. rewrite Hl in H0, Hrec.
  exists r.2. split; [done|]. split; [done|]. by rewrite <- Hl, <- surjective_pairing.
Qed.

End SaleIds.

(** ** Normalising twice *)

Section Renormalise.
Context `{F : Float64}.
Implicit Types (df : DataFrame) (cols labels : list string).

Lemma uint_digits (d : Decimal.uint) : Text.all_digits (NilEmpty.string_of_uint d) = true.
Proof. induction d; cbn; auto. Qed.

(** An integer that is not negative is written with digits only. *)
Lemma astype_str_digits k : 0 ≤ k → Text.all_digits (astype_str (IntCell k)) = true.
Proof.
  intros Hk. destruct k as [|p|p]; [done| |lia]. cbn.
  pose proof (uint_digits (Pos.to_uint p)) as H. by destruct (Pos.to_uint p).
Qed.

Lemma digit_not_space a : Text.is_digit a = true → Text.is_space a = false.
Proof.
  unfold Text.is_digit, Text.is_space.
  rewrite andb_true_iff, !Nat.leb_le, orb_false_iff, !andb_false_iff, !Nat.leb_gt. lia.
Qed.

Lemma rstrip_digits s : Text.all_digits s = true → Text.rstrip s = s.
Proof.
  induction s as [|a t IH]; [done|]. cbn. intros [Ha Ht]%andb_true_iff.
  rewrite (IH Ht). destruct t; [|done]. by rewrite (digit_not_space a Ha).
Qed.

Lemma strip_digits s : Text.all_digits s = true → Text.strip s = s.
Proof.
  intros Hs. unfold Text.strip.
  assert (Text.lstrip s = s) as ->; [|by apply rstrip_digits].
  destruct s as [|a t]; [done|]. cbn in *. apply andb_true_iff in Hs as [Ha _].
  by rewrite (digit_not_space a Ha).
Qed.

Lemma regex_extract_digits_none (cls : ascii → bool) s :
  (∀ a, cls a = true → Text.is_digit a = false) →
  Text.all_digits s = true → Text.regex_extract cls s = None.
Proof.
  intros Hcls. induction s as [|a t IH]; [done|]. cbn. intros [Ha Ht]%andb_true_iff.
  destruct (cls a) eqn:Hc; [|auto]. apply Hcls in Hc. congruence.
Qed.

(** A key that has been extracted holds no code any more. *)
Lemma extract_key_of_int (cls : ascii → bool) k :
  (∀ a, cls a = true → Text.is_digit a = false) → 0 ≤ k →
  extract_key cls (astype_str (IntCell k)) = Ok NA.
Proof.
  intros Hcls Hk. unfold extract_key.
  rewrite strip_digits by (by apply astype_str_digits).
  by rewrite regex_extract_digits_none by (done || by apply astype_str_digits).
Qed.

Lemma class_C_letter a : Text.class_C a = true → Text.is_digit a = false.
Proof.
  unfold Text.class_C. intros [H|H]%orb_true_iff; apply Ascii.eqb_eq in H; by subst.
Qed.

Lemma class_P_letter a : Text.class_P a = true → Text.is_digit a = false.
Proof.
  unfold Text.class_P. intros [H|H]%orb_true_iff; apply Ascii.eqb_eq in H; by subst.
Qed.

Lemma positions_key_replicate key other n :
  key ≠ other →
  length (positions key (key :: replicate n other)) = 1%nat ∧
  length (positions other (key :: replicate n other)) = n.
Proof.
  intros Hne. rewrite !length_positions, !filter_cons.
  rewrite decide_True by done. rewrite decide_False by done.
  rewrite filter_replicate_ne by done. rewrite filter_replicate_eq, length_replicate. done.
Qed.

(** [dimension] on a frame it has returned: every row goes. *)
Lemma dimension_twice (cls : ascii → bool) key other df out :
  key ≠ other → (∀ a, cls a = true → Text.is_digit a = false) →
  dimension cls key other df = Ok out →
  dimension cls key other out = Ok (mkDF (columns out) []).
Proof.
  intros Hne Hcls Hout.
  destruct (dimension_columns _ _ _ _ _ Hne Hout) as [Hcols _].
  destruct (dimension_keys _ _ _ _ _ Hne Hout) as [_ Hrows].
  assert (other ∈ columns df) as Ho.
  { apply (dimension_is_ok cls key other df Hne). by rewrite Hout. }
  apply positions_elem_of in Ho.
  destruct (positions_key_replicate key other (length (positions other (columns df))) Hne)
    as [Hk1 Hk2].
  assert (∀ r, r ∈ rows out →
            extract_key cls (astype_str (value_of (columns out) r.2 key)) = Ok NA) as Hna.
  { intros r Hr. destruct (Hrows r Hr) as (_ & _ & _ & k & _ & _ & -> & Hk & _).
    by apply extract_key_of_int. }
  destruct (dimension_returns cls key other out Hne) as [out2 Hout2].
  { rewrite Hcols. right. destruct (positions other (columns df)); [done|]. by left. }
  { by rewrite Hcols. }
  { intros r Hr. by rewrite Hna. }
  rewrite Hout2. f_equal.
  destruct (dimension_columns _ _ _ _ _ Hne Hout2) as [Hcols2 _].
  rewrite Hcols, Hk2, <- Hcols in Hcols2.
  destruct (dimension_Ok _ _ _ _ _ Hne Hout2) as (mid & Hmid & Hrows2).
  destruct out2 as [cols2 rows2]. cbn in *. subst cols2. f_equal.
  rewrite Hrows2.
  assert (filter (λ a : Z * list cell, isna (value_of (columns out) a.2 key) = false) mid = [])
    as ->; [|done].
  apply filter_nil_Forall, Forall_forall. intros m [i Hi]%list_elem_of_lookup.
  destruct (Forall2_lookup_r _ _ _ _ _ Hmid Hi) as (r & Hr & _ & Hk & _).
  apply list_elem_of_lookup_2 in Hr. rewrite (Hna r Hr) in Hk. injection Hk as <-. done.
Qed.


Lemma customer_header_fixed out n :
  columns out = "customer_segmentid" :: replicate n "customer_segment" →
  rename customer_renames (normalize_headers out) = out.
Proof.
  destruct out as [cols rs]. cbn [columns]. intros ->.
  unfold rename, normalize_headers. cbn [columns rows]. f_equal.
  rewrite !fmap_cons, !fmap_replicate. reflexivity.
Qed.

Lemma product_header_fixed out n :
  columns out = "product_id" :: replicate n "product_variant" →
  rename product_renames out = out.
Proof.
  destruct out as [cols rs]. cbn [columns]. intros ->.
  unfold rename. cbn [columns rows]. f_equal.
  rewrite !fmap_cons, !fmap_replicate. reflexivity.
Qed.

Lemma sales_header_fixed out n :
  columns out
  = (["sales_id"; "customer_segmentid"; "product_id"; "units_sold"]
     ++ replicate n "sale_date" ++ ["sale_amount"; "profit_margin"])%list →
  sales_header out = columns out.
Proof.
  unfold sales_header, rename, normalize_headers. cbn [columns]. intros ->.
  rewrite !fmap_app, !fmap_replicate. reflexivity.
Qed.

Lemma sales_header_counts n l :
  l ∈ required →
  length (positions l (["sales_id"; "customer_segmentid"; "product_id"; "units_sold"]
                       ++ replicate n "sale_date" ++ ["sale_amount"; "profit_margin"])%list)
  = if decide (l = "sale_date") then n else 1%nat.
Proof.
  intros Hl. rewrite length_positions, !filter_app, !length_app.
  apply in_required in Hl as [->|[->|[->|[->|[->|[->| ->]]]]]];
    rewrite ?filter_replicate_eq, ?filter_replicate_ne by done;
    rewrite ?length_replicate;
    repeat match goal with
    | |- context [length (filter ?P ?xs)] =>
        let v := eval vm_compute in (length (filter P xs)) in
        change (length (filter P xs)) with v
    end;
    repeat case_decide; try done; cbn; lia.
Qed.

(** [norm_sales] on a frame it has returned: every row goes. *)
Lemma norm_sales_twice df out :
  norm_sales df = Ok out → norm_sales out = Ok (mkDF (columns out) []).
Proof.
  intros Hout.
  destruct (norm_sales_columns _ _ Hout) as [Hcols _].
  pose proof (sales_header_fixed _ _ Hcols) as Hhdr.
  assert ("sale_date" ∈ sales_header df) as Hdate.
  { apply norm_sales_is_ok. by rewrite Hout. }
  apply positions_elem_of in Hdate.
  destruct (norm_sales out) as [out2|e] eqn:Hout2.
  2:{ assert (is_ok (norm_sales out) = true) as Hok; [|by rewrite Hout2 in Hok].
      apply norm_sales_is_ok. rewrite Hhdr. split_and!.
      - rewrite Hcols. apply elem_of_app. right. apply elem_of_app. left.
        destruct (positions "sale_date" (sales_header df)); [done|]. by left.
      - intros l Hl Hne. rewrite Hcols, sales_header_counts by done.
        by rewrite decide_False.
      - intros r l Hr. rewrite !elem_of_cons, elem_of_nil.
        destruct (norm_sales_keys _ _ r Hout Hr) as (Hid & (a & Ha & Hra) & (b & Hb & Hrb)).
        intros [->|[->|[->|[]]]].
        + rewrite Ha. change (coerce_sales "customer_segmentid" ?c)
            with (extract_key Text.class_C (astype_str c)).
          rewrite extract_key_of_int; [done|apply class_C_letter|lia].
        + rewrite Hb. change (coerce_sales "product_id" ?c)
            with (extract_key Text.class_P (astype_str c)).
          rewrite extract_key_of_int; [done|apply class_P_letter|lia].
        + by rewrite Hid. }
  f_equal. destruct (norm_sales_columns _ _ Hout2) as [Hcols2 _].
  rewrite Hhdr, Hcols, sales_header_counts, decide_True, <- Hcols in Hcols2
    by (done || apply in_required; tauto).
  assert (rows out2 = []) as Hrows2.
  { destruct (rows out2) as [|m ms] eqn:Hr; [done|]. exfalso.
    destruct (norm_sales_cells _ _ m Hout2) as (r & Hr' & [_ Hcells] & Hna).
    { rewrite Hr. by left. }
    destruct (norm_sales_keys _ _ r Hout Hr') as (_ & (a & Ha & Hra) & _).
    pose proof (Hcells "customer_segmentid" ltac:(apply in_required; tauto) ltac:(done)) as Hc.
    rewrite Hhdr, Ha in Hc.
    change (coerce_sales "customer_segmentid" ?c)
      with (extract_key Text.class_C (astype_str c)) in Hc.
    rewrite extract_key_of_int in Hc by (apply class_C_letter || lia).
    injection Hc as Hc. specialize (Hna "customer_segmentid" ltac:(set_solver)).
    by rewrite <- Hc in Hna. }
  destruct out2 as [cols2 rows2]. cbn in *. by subst.
Qed.

(** X12: a normaliser applied to a frame it has returned returns the same
    columns with no row: the keys it wrote hold no code any more, so every row
    is dropped as one without a key. *)
Theorem normalising_twice_drops_every_row df out :
  (norm_customers df = Ok out → norm_customers out = Ok (mkDF (columns out) [])) ∧
  (norm_products df = Ok out → norm_products out = Ok (mkDF (columns out) [])) ∧
  (norm_sales df = Ok out → norm_sales out = Ok (mkDF (columns out) [])).
Proof.
  assert ("customer_segmentid" ≠ "customer_segment") as Hnc by done.
  assert ("product_id" ≠ "product_variant") as Hnp by done.
  split_and!.
  - rewrite !norm_customers_dimension. intros Hout.
    destruct (dimension_columns _ _ _ _ _ Hnc Hout) as [Hcols _].
    rewrite (customer_header_fixed _ _ Hcols).
    by apply (dimension_twice _ _ _ _ _ Hnc class_C_letter Hout).
  - rewrite !norm_products_dimension. intros Hout.
    destruct (dimension_columns _ _ _ _ _ Hnp Hout) as [Hcols _].
    rewrite (product_header_fixed _ _ Hcols).
    by apply (dimension_twice _ _ _ _ _ Hnp class_P_letter Hout).
  - apply norm_sales_twice.
Qed.

End Renormalise.

(** ** Schema, deletion and report *)

Section SchemaClaims.
Context `{F : Float64}.
Implicit Types (df : DataFrame) (t : table) (st : state) (d : gmap string table).

Lemma delete_from_run name t st :
  db st !! name = Some t →
  delete_from name st
  = (Ok (), mkState (<[name := emptied t]> (db st)) (Some (durable st))
              (pragma_foreign_keys st), []).
Proof.
  intros Ht. unfold delete_from. erewrite bind_Ok by reflexivity.
  cbn [fst snd app db]. rewrite Ht. erewrite bind_Ok by reflexivity. reflexivity.
Qed.

Lemma delete_from_missing name st :
  db st !! name = None → delete_from name st = (Raise (OperationalError name), st, []).
Proof.
  intros Ht. unfold delete_from. erewrite bind_Ok by reflexivity.
  cbn [fst snd app db]. by rewrite Ht.
Qed.

Lemma delete_step_run name t st :
  db st !! name = Some t →
  (logging INFO ("Deleting all rows from " +:+ name) ;; delete_from name) st
  = (Ok (), mkState (<[name := emptied t]> (db st)) (Some (durable st))
              (pragma_foreign_keys st),
     [(INFO, "Deleting all rows from " +:+ name)]).
Proof.
  intros Ht. erewrite bind_Ok by reflexivity. cbn [fst snd].
  by rewrite (delete_from_run name t).
Qed.

Lemma delete_step_missing name st :
  db st !! name = None →
  (logging INFO ("Deleting all rows from " +:+ name) ;; delete_from name) st
  = (Raise (OperationalError name), st, [(INFO, "Deleting all rows from " +:+ name)]).
Proof.
  intros Ht. erewrite bind_Ok by reflexivity. cbn [fst snd].
  by rewrite (delete_from_missing name).
Qed.

(** X14: with foreign keys not enforced, on a database that has the four
    tables, [delete_existing_records] returns, leaves each of them declared
    as it was and without a row, logs one record for each in the order sales,
    product, customer, dim_date, and touches no other table; the deletion is
    not committed: what is committed is as before, in a transaction left
    open.  A table that is not there makes it raise [OperationalError] after
    the tables before it have been emptied. *)
Theorem delete_existing_records_empties st :
  pragma_foreign_keys st = false →
  (∀ ts tp tc td,
     db st !! "sales" = Some ts → db st !! "product" = Some tp →
     db st !! "customer" = Some tc → db st !! "dim_date" = Some td →
     delete_existing_records st
     = (Ok (),
        mkState (<["dim_date" := emptied td]> (<["customer" := emptied tc]>
                   (<["product" := emptied tp]> (<["sales" := emptied ts]> (db st)))))
          (Some (durable st)) (pragma_foreign_keys st),
        (λ name, (INFO, "Deleting all rows from " +:+ name)) <$> pipeline_tables)) ∧
  (db st !! "sales" = None →
     delete_existing_records st
     = (Raise (OperationalError "sales"), st, [(INFO, "Deleting all rows from sales")])) ∧
  (∀ ts, db st !! "sales" = Some ts → db st !! "product" = None →
     delete_existing_records st
     = (Raise (OperationalError "product"),
        mkState (<["sales" := emptied ts]> (db st)) (Some (durable st))
          (pragma_foreign_keys st),
        [(INFO, "Deleting all rows from sales"); (INFO, "Deleting all rows from product")])).
Proof.
  intros _. unfold delete_existing_records. cbn [for_each]. split_and!.
  - intros ts tp tc td Hs Hp Hc Hd.
    erewrite bind_Ok by (by apply delete_step_run). cbn [fst snd].
    erewrite bind_Ok by (apply delete_step_run; cbn [db]; by rewrite lookup_insert_ne).
    cbn [fst snd db snapshot pragma_foreign_keys durable default].
    erewrite bind_Ok by (apply delete_step_run; cbn [db]; by rewrite !lookup_insert_ne).
    cbn [fst snd db snapshot pragma_foreign_keys durable default].
    erewrite bind_Ok by (apply delete_step_run; cbn [db]; by rewrite !lookup_insert_ne).
    cbn [fst snd db snapshot pragma_foreign_keys durable default]. reflexivity.
  - intros Hs. by erewrite bind_Raise by (by apply delete_step_missing).
  - intros ts Hs Hp.
    erewrite bind_Ok by (by apply delete_step_run). cbn [fst snd].
    erewrite bind_Raise by (apply delete_step_missing; cbn [db]; by rewrite lookup_insert_ne).
    reflexivity.
Qed.

Lemma count_loop_run tables st :
  Forall (λ name, is_Some (db st !! name)) tables →
  for_each tables (λ table,
    d <- get_db ;;
    match d !! table with
    | None => raise (OperationalError table)
    | Some t => logging INFO (table +:+ ": " +:+ show (size (trows t)))
    end) st
  = (Ok (), st, (λ name, (INFO, name +:+ ": " +:+ show (row_count (db st) name))) <$> tables).
Proof.
  induction 1 as [|name tables [t Ht] _ IH]; [done|].
  cbn [for_each]. erewrite bind_Ok.
  2:{ erewrite bind_Ok by reflexivity. cbn [fst snd db]. rewrite Ht. reflexivity. }
  cbn [logging fst snd app]. rewrite IH. cbn [fst snd app fmap list_fmap].
  assert (row_count (db st) name = size (trows t)) as ->; [|done].
  unfold row_count. by rewrite Ht.
Qed.

Lemma count_loop_missing pre name post st :
  Forall (λ name, is_Some (db st !! name)) pre → db st !! name = None →
  for_each (pre ++ name :: post) (λ table,
    d <- get_db ;;
    match d !! table with
    | None => raise (OperationalError table)
    | Some t => logging INFO (table +:+ ": " +:+ show (size (trows t)))
    end) st
  = (Raise (OperationalError name), st,
     (λ name, (INFO, name +:+ ": " +:+ show (row_count (db st) name))) <$> pre).
Proof.
  intros Hpre Hname. induction Hpre as [|n pre [t Ht] _ IH].
  - cbn [app for_each]. erewrite bind_Raise; [done|].
    erewrite bind_Ok by reflexivity. cbn [fst snd db]. by rewrite Hname.
  - cbn [app for_each]. erewrite bind_Ok.
    2:{ erewrite bind_Ok by reflexivity. cbn [fst snd db]. rewrite Ht. reflexivity. }
    cbn [logging fst snd app]. rewrite IH. cbn [fst snd app fmap list_fmap].
    assert (row_count (db st) n = size (trows t)) as ->; [|done].
  unfold row_count. by rewrite Ht.
Qed.

(** X15: asked about tables of the pipeline, [print_table_row_counts]
    changes nothing.  When the tables are there it returns, having logged the
    heading and then, for each table in the order asked, its name and the
    number of its rows; at the first table that is not there it raises
    [OperationalError], having logged the counts of the tables before. *)
Theorem print_table_row_counts_reports tables st :
  Forall (λ name, name ∈ pipeline_tables) tables →
  (print_table_row_counts tables st).1.2 = st ∧
  (Forall (λ name, is_Some (db st !! name)) tables →
     print_table_row_counts tables st
     = (Ok (), st,
        (INFO, "Table row counts:")
          :: ((λ name, (INFO, name +:+ ": " +:+ show (row_count (db st) name)))
                <$> tables))) ∧
  (∀ pre name post,
     tables = (pre ++ name :: post)%list →
     Forall (λ name, is_Some (db st !! name)) pre → db st !! name = None →
     print_table_row_counts tables st
     = (Raise (OperationalError name), st,
        (INFO, "Table row counts:")
          :: ((λ name, (INFO, name +:+ ": " +:+ show (row_count (db st) name)))
                <$> pre))).
Proof.
  intros _. split_and!.
  - apply print_table_row_counts_state.
  - intros Hall. unfold print_table_row_counts.
    erewrite bind_Ok by reflexivity. cbn [fst snd]. by rewrite count_loop_run.
  - intros pre name post -> Hpre Hname. unfold print_table_row_counts.
    erewrite bind_Ok by reflexivity. cbn [fst snd]. by rewrite count_loop_missing.
Qed.

End SchemaClaims.

(** ** Weeks and the rows of the date dimension *)

Section WeekFacts.
Import Calendar.

Lemma isoweek1monday_spec y :
  days_before_year y - 2 ≤ isoweek1monday y ≤ days_before_year y + 4 ∧
  isoweek1monday y mod 7 = 1.
Proof.
  unfold isoweek1monday, ordinal. cbn [year month day].
  change (days_before_month y 1) with 0.
  destruct (3 <? (days_before_year y + 0 + 1 + 6) mod 7) eqn:H;
    [apply Z.ltb_lt in H|apply Z.ltb_ge in H];
    Z.div_mod_to_equations; lia.
Qed.

Lemma isoweek1monday_step y :
  isoweek1monday (y + 1) - isoweek1monday y = 364 ∨
  isoweek1monday (y + 1) - isoweek1monday y = 371.
Proof.
  pose proof (isoweek1monday_spec y) as [H1 H2].
  pose proof (isoweek1monday_spec (y + 1)) as [H3 H4].
  rewrite days_before_year_succ in H3.
  unfold year_length in H3. destruct (is_leap y); Z.div_mod_to_equations; lia.
Qed.

(** The ISO week of a date is a week from 1 to 53. *)
Lemma iso_week_bounds d : valid d = true → 1 ≤ iso_week d ≤ 53.
Proof.
  intros V. pose proof (ordinal_year_bound d V) as Ho.
  pose proof (isoweek1monday_spec (year d)) as [H1 H2].
  pose proof (isoweek1monday_step (year d)) as Hs.
  pose proof (isoweek1monday_step (year d - 1)) as Hp.
  replace (year d - 1 + 1) with (year d) in Hp by lia.
  pose proof (days_before_year_succ (year d)) as Hy.
  assert (365 ≤ year_length (year d) ≤ 366) as Hl
    by (unfold year_length; destruct (is_leap (year d)); lia).
  unfold iso_week.
  destruct (_ <? 0) eqn:Hneg; [apply Z.ltb_lt in Hneg|apply Z.ltb_ge in Hneg].
  - Z.div_mod_to_equations. lia.
  - destruct (_ && _) eqn:Hlast; [lia|].
    apply andb_false_iff in Hlast as [Hlast|Hlast];
      [apply Z.leb_gt in Hlast|apply Z.leb_gt in Hlast];
      Z.div_mod_to_equations; lia.
Qed.


Context `{F : Float64}.

(** The rows of the date dimension are rows of valid days from the first
    day to the last. *)
Lemma generate_date_dimension_days s e df row :
  generate_date_dimension s e = Ok df → row ∈ rows df →
  columns df = date_columns ∧
  ∃ dy start stop,
    row = date_row dy ∧ valid dy = true ∧
    strptime s = Ok start ∧ strptime e = Ok stop ∧
    key start ≤ key dy ≤ key stop.
Proof.
  unfold generate_date_dimension.
  destruct (strptime s) as [start|] eqn:Hs; [|done].
  destruct (strptime e) as [stop|] eqn:He; [|done]. cbn [mbind result_bind].
  unfold date_range.
  intros [= <-]. cbn [rows columns]. intros (dy & -> & [i Hi]%list_elem_of_lookup)%list_elem_of_fmap.
  split; [done|].
  pose proof (strptime_valid _ _ Hs) as V1. pose proof (strptime_valid _ _ He) as V2.
  pose proof (lookup_lt_Some _ _ _ Hi) as Hlen. rewrite length_days_from in Hlen.
  destruct (days_from_lookup (Z.to_nat (ordinal stop - ordinal start + 1)) start stop i dy
              V1 V2) as [V Ho]; [lia|done|].
  assert (key start ≤ key dy ≤ key stop) as Hk.
  { split.
    - destruct (decide (key start ≤ key dy)) as [|Hn]; [done|].
      pose proof (ordinal_mono dy start V V1). lia.
    - destruct (decide (key dy ≤ key stop)) as [|Hn]; [done|].
      pose proof (ordinal_mono stop dy V2 V). lia. }
  exists dy, start, stop. split_and!; try done; lia.
Qed.

(** X16: in every row of the date dimension, [year], [month], [day] and
    [week] are integers, the year from 1 to 9999, the month from 1 to 12, the
    day from 1 to the length of the month and the week from 1 to 53; the
    [date_id] is year * 10000 + month * 100 + day, [month_name] is the English
    name of the month and, from the year 1000 on, [full_date] is MM/DD/YYYY
    of the same day. *)
Theorem date_dimension_rows_are_consistent s e df row :
  generate_date_dimension s e = Ok df → row ∈ rows df →
  ∃ y m dd w,
    value_of (columns df) row.2 "year" = IntCell y ∧
    value_of (columns df) row.2 "month" = IntCell m ∧
    value_of (columns df) row.2 "day" = IntCell dd ∧
    value_of (columns df) row.2 "week" = IntCell w ∧
    value_of (columns df) row.2 "date_id" = IntCell (y * 10000 + m * 100 + dd) ∧
    value_of (columns df) row.2 "month_name" = StrCell (month_name m) ∧
    (1000 ≤ y →
     value_of (columns df) row.2 "full_date"
     = StrCell (Text.pad2 m +:+ "/" +:+ Text.pad2 dd +:+ "/" +:+ Text.pad4 y)) ∧
    1 ≤ y ≤ 9999 ∧ 1 ≤ m ≤ 12 ∧ 1 ≤ dd ≤ days_in_month y m ∧ 1 ≤ w ≤ 53.
Proof.
  intros Hdf Hrow.
  destruct (generate_date_dimension_days _ _ _ _ Hdf Hrow)
    as (-> & dy & start & stop & -> & V & _).
  exists (year dy), (month dy), (day dy), (iso_week dy).
  pose proof (iso_week_bounds _ V) as Hw.
  pose proof (date_id_of_row dy V) as Hid.
  apply valid_spec in V as (Hy & Hm & Hd).
  split_and!; try done; lia.
Qed.

End WeekFacts.

(** ** Dates as text *)

Section IsoFacts.
Import Calendar.

Lemma is_digit_char k : 0 ≤ k ≤ 9 → Text.is_digit (Text.digit_char k) = true.
Proof.
  intros Hk.
  assert (k = 0 ∨ k = 1 ∨ k = 2 ∨ k = 3 ∨ k = 4 ∨ k = 5 ∨ k = 6 ∨ k = 7 ∨ k = 8 ∨ k = 9)
    as H by lia.
  destruct_or! H; subst; reflexivity.
Qed.

Lemma read_year_pad4 y t : 0 ≤ y ≤ 9999 → read_year (Text.pad4 y +:+ t) = [(y, t)].
Proof.
  intros Hy. unfold Text.pad4, Text.pad2. rewrite !append_String, append_Empty.
  unfold read_year.
  assert (0 ≤ y / 1000 mod 10 ≤ 9) as H1 by (Z.div_mod_to_equations; lia).
  assert (0 ≤ y / 100 mod 10 ≤ 9) as H2 by (Z.div_mod_to_equations; lia).
  assert (0 ≤ y / 10 mod 10 ≤ 9) as H3 by (Z.div_mod_to_equations; lia).
  assert (0 ≤ y mod 10 ≤ 9) as H4 by (Z.div_mod_to_equations; lia).
  rewrite !is_digit_char by done. cbn [andb]. unfold two.
  rewrite !digit_val_char by done. do 2 f_equal.
  Z.div_mod_to_equations. lia.
Qed.

Lemma read_rest y m d :
  1 ≤ m ≤ 12 → 1 ≤ d ≤ 31 →
  head (s ← read_dash ("-" +:+ Text.pad2 m +:+ "-" +:+ Text.pad2 d);
        '(m', s) ← read_month s;
        s ← read_dash s;
        '(d', s) ← read_day s;
        [(mkDate y m' d', s)])
  = Some (mkDate y m d, EmptyString).
Proof.
  intros Hm Hd.
  assert (m = 1 ∨ m = 2 ∨ m = 3 ∨ m = 4 ∨ m = 5 ∨ m = 6 ∨ m = 7 ∨ m = 8 ∨ m = 9 ∨ m = 10
          ∨ m = 11 ∨ m = 12) as Hmc by lia.
  assert (d = 1 ∨ d = 2 ∨ d = 3 ∨ d = 4 ∨ d = 5 ∨ d = 6 ∨ d = 7 ∨ d = 8 ∨ d = 9 ∨ d = 10
          ∨ d = 11 ∨ d = 12 ∨ d = 13 ∨ d = 14 ∨ d = 15 ∨ d = 16 ∨ d = 17 ∨ d = 18
          ∨ d = 19 ∨ d = 20 ∨ d = 21 ∨ d = 22 ∨ d = 23 ∨ d = 24 ∨ d = 25 ∨ d = 26
          ∨ d = 27 ∨ d = 28 ∨ d = 29 ∨ d = 30 ∨ d = 31) as Hdc by lia.
  clear Hm Hd.
  destruct_or! Hmc; subst m; destruct_or! Hdc; subst d; vm_compute; reflexivity.
Qed.

(** A date written YYYY-MM-DD reads back as itself. *)
Lemma strptime_isoformat d : valid d = true → strptime (isoformat d) = Ok d.
Proof.
  intros V. pose proof V as (Hy & Hm & Hd)%valid_spec.
  pose proof (days_in_month_bounds (year d) (month d)) as Hdm.
  unfold strptime, readings, isoformat.
  rewrite read_year_pad4 by lia.
  rewrite bind_cons. change ([] ≫= ?f) with (@nil (date * string)).
  rewrite app_nil_r. cbv beta iota.
  pose proof (read_rest (year d) (month d) (day d) Hm ltac:(lia)) as Hrest.
  destruct (_ ≫= _) as [|[d' rest] tl] eqn:Heq; [done|].
  cbn in Hrest. injection Hrest as -> ->.
  destruct d as [y m dd]. cbn in *. by rewrite V.
Qed.


Context `{F : Float64}.

(** X17: a valid date written YYYY-MM-DD is read back as itself, and for
    two such dates within the range of a timestamp the generator returns the
    rows of the days from the first to the last, none when the last comes
    before the first. *)
Theorem generate_date_dimension_reads_iso_dates a b :
  valid a = true → valid b = true → in_bounds a = true → in_bounds b = true →
  strptime (isoformat a) = Ok a ∧ strptime (isoformat b) = Ok b ∧
  generate_date_dimension (isoformat a) (isoformat b)
  = Ok (mkDF date_columns
          (date_row <$> days_from (Z.to_nat (ordinal b - ordinal a + 1)) a)) ∧
  (key b < key a →
   generate_date_dimension (isoformat a) (isoformat b) = Ok (mkDF date_columns [])).
Proof.
  intros Va Vb _ _.
  assert (generate_date_dimension (isoformat a) (isoformat b)
          = Ok (mkDF date_columns
                  (date_row <$> days_from (Z.to_nat (ordinal b - ordinal a + 1)) a))) as Hgen.
  { unfold generate_date_dimension. by rewrite !strptime_isoformat by done. }
  split_and!; [by apply strptime_isoformat..|done|].
  intros Hlt. rewrite Hgen.
  pose proof (ordinal_mono b a Vb Va Hlt).
  replace (Z.to_nat (ordinal b - ordinal a + 1)) with 0%nat by lia. done.
Qed.

End IsoFacts.

(** ** Loads are all or nothing *)

Section LoadFacts.
Context `{F : Float64}.
Implicit Types (df : DataFrame) (t : table) (st : state) (d : gmap string table).

Lemma foldr_max_le (k : Z) (ks : list Z) x :
  x = k ∨ x ∈ ks → x ≤ foldr Z.max k ks.
Proof.
  induction ks as [|y ks IH]; cbn.
  - intros [->|Hx%elem_of_nil]; [lia|done].
  - rewrite elem_of_cons. intros [->|[->|Hx]]; [specialize (IH (or_introl eq_refl))| |
      specialize (IH (or_intror Hx))]; lia.
Qed.

(** The [rowid] SQLite picks is not taken. *)
Lemma next_rowid_fresh (m : gmap Z (list cell)) : m !! next_rowid m = None.
Proof.
  apply not_elem_of_dom. intros Hin%elem_of_elements. unfold next_rowid in Hin.
  destruct (elements (dom m)) as [|k ks]; [by apply elem_of_nil in Hin|].
  apply elem_of_cons in Hin.
  pose proof (foldr_max_le k ks (1 + foldr Z.max k ks)) as Hle.
  destruct Hin as [Hin|Hin]; [specialize (Hle (or_introl Hin))|specialize (Hle (or_intror Hin))];
    lia.
Qed.

(** A row that is taken is a new row: the rows the table had stay. *)
Lemma insert_row_grows fk d name cols t r t' :
  insert_row fk d name cols t r = Ok t' →
  same_schema t t' ∧ size (trows t') = S (size (trows t)) ∧
  ∀ k row, trows t !! k = Some row → trows t' !! k = Some row.
Proof.
  unfold insert_row. destruct (negb (forallb bindable r)); [done|].
  destruct (existsb _ _); [done|]. destruct (fk && _); [done|].
  assert (∀ k row,
            trows t !! k = None →
            size (<[k := row]> (trows t)) = S (size (trows t)) ∧
            ∀ k' row', trows t !! k' = Some row' → <[k := row]> (trows t) !! k' = Some row')
    as Hnew.
  { intros k row Hk. split; [by apply map_size_insert_None|].
    intros k' row' Hk'. rewrite lookup_insert_ne; [done|]. intros ->. congruence. }
  destruct (primary_key t) as [pk|] eqn:Hpk.
  - destruct (value_of cols r pk) as [|z| |]; try done.
    + intros [= <-]. split; [done|]. apply Hnew, next_rowid_fresh.
    + destruct (trows t !! z) eqn:Hz; [done|]. intros [= <-]. split; [done|]. by apply Hnew.
  - intros [= <-]. split; [done|]. apply Hnew, next_rowid_fresh.
Qed.

Lemma insert_rows_grows fk d name cols rs : ∀ t t',
  insert_rows fk d name cols t rs = Ok t' →
  same_schema t t' ∧ size (trows t') = (size (trows t) + length rs)%nat ∧
  ∀ k row, trows t !! k = Some row → trows t' !! k = Some row.
Proof.
  induction rs as [|r rs IH]; intros t t'; cbn [insert_rows].
  - intros [= <-]. split_and!; [done|cbn; lia|done].
  - destruct (insert_row fk d name cols t r) as [t1|] eqn:H1; [|done]. cbn.
    intros (Hs & Hsize & Hkeep)%IH. apply insert_row_grows in H1 as (Hs1 & Hsize1 & Hkeep1).
    split_and!.
    + destruct Hs1 as (?&?&?&?), Hs as (?&?&?&?). unfold same_schema. split_and!; congruence.
    + rewrite Hsize, Hsize1. cbn. lia.
    + auto.
Qed.

(** A batch with a row that brings a key of the table is refused. *)
Lemma insert_rows_taken fk d name cols rs pk r k : ∀ t,
  primary_key t = Some pk → r ∈ rs → value_of cols r pk = IntCell k →
  is_Some (trows t !! k) →
  ∃ e, insert_rows fk d name cols t rs = Raise e.
Proof.
  induction rs as [|r0 rs IH]; intros t Hpk Hr Hv Hk; [by apply elem_of_nil in Hr|].
  cbn [insert_rows].
  destruct (insert_row fk d name cols t r0) as [t1|e1] eqn:H1; cbn; [|by eexists].
  apply elem_of_cons in Hr as [->|Hr].
  - exfalso. unfold insert_row in H1.
    destruct (negb (forallb bindable r0)); [done|].
    destruct (existsb _ _); [done|]. destruct (fk && _); [done|].
    rewrite Hpk, Hv in H1. destruct Hk as [row Hk]. by rewrite Hk in H1.
  - apply insert_row_grows in H1 as ((_ & Hpk1 & _) & _ & Hkeep).
    apply IH; [congruence|done|done|]. destruct Hk as [row Hk]. eauto.
Qed.

Lemma to_sql_all_or_nothing name df d fk t :
  d !! name = Some t → Forall (λ c, c ∈ tcolumns t) (columns df) →
  ((∃ t', outcome (to_sql name df (mkState d None fk))
          = (Ok (), mkState (<[name := t']> d) None fk) ∧
          same_schema t t' ∧
          size (trows t') = (size (trows t) + length (rows df))%nat ∧
          ∀ k row, trows t !! k = Some row → trows t' !! k = Some row) ∨
   (∃ e, outcome (to_sql name df (mkState d None fk)) = (Raise e, mkState d None fk))) ∧
  (∀ pk r k,
     primary_key t = Some pk → r ∈ rows df →
     value_of (columns df) r.2 pk = IntCell k → is_Some (trows t !! k) →
     ∃ e, outcome (to_sql name df (mkState d None fk)) = (Raise e, mkState d None fk)).
Proof.
  intros Ht Hcols. split.
  - destruct (insert_rows fk d name (columns df) t (rows df).*2) as [t'|e] eqn:Hins.
    + left. exists t'. split; [by apply (to_sql_accepts name df t)|].
      apply insert_rows_grows in Hins as (? & Hsize & ?). by rewrite length_fmap in Hsize.
    + right. exists e. by apply (to_sql_refuses name df t).
  - intros pk r k Hpk Hr Hv Hk.
    destruct (insert_rows_taken fk d name (columns df) (rows df).*2 pk r.2 k t) as [e He];
      [done|by apply list_elem_of_fmap_2|done..|].
    exists e. by apply (to_sql_refuses name df t).
Qed.

(** X18: each of the three dimension loaders is all or nothing on a table
    that is there and has the columns of the frame: either every row of the
    frame is added to the rows the table had and the load is committed, or the
    load raises and the database is as it was; it is refused when a row
    brings a key that is in the table. *)
Theorem dimension_loads_are_all_or_nothing name (load : DataFrame → M unit) df d fk t :
  (name, load) ∈ [("dim_date", insert_dim_date); ("customer", insert_customers);
                  ("product", insert_products)] →
  d !! name = Some t → Forall (λ c, c ∈ tcolumns t) (columns df) →
  ((∃ t', outcome (load df (mkState d None fk))
          = (Ok (), mkState (<[name := t']> d) None fk) ∧
          same_schema t t' ∧
          size (trows t') = (size (trows t) + length (rows df))%nat ∧
          ∀ k row, trows t !! k = Some row → trows t' !! k = Some row) ∨
   (∃ e, outcome (load df (mkState d None fk)) = (Raise e, mkState d None fk))) ∧
  (∀ pk r k,
     primary_key t = Some pk → r ∈ rows df →
     value_of (columns df) r.2 pk = IntCell k → is_Some (trows t !! k) →
     ∃ e, outcome (load df (mkState d None fk)) = (Raise e, mkState d None fk)).
Proof.
  rewrite !elem_of_cons, elem_of_nil.
  intros [[= -> ->]|[[= -> ->]|[[= -> ->]|[]]]] Ht Hcols;
    unfold insert_dim_date, insert_customers, insert_products;
    rewrite !outcome_then_logging;
    repeat setoid_rewrite outcome_then_logging;
    by apply to_sql_all_or_nothing.
Qed.

End LoadFacts.

(** ** The scrubber *)

Section TextFacts.

Lemma lstrip_idemp s : Text.lstrip (Text.lstrip s) = Text.lstrip s.
Proof.
  induction s as [|a t IH]; [done|]. cbn. destruct (Text.is_space a) eqn:Ha; [done|].
  cbn. by rewrite Ha.
Qed.

Lemma lstrip_length s : (String.length (Text.lstrip s) ≤ String.length s)%nat.
Proof. induction s as [|a t IH]; cbn; [lia|]. destruct (Text.is_space a); cbn; lia. Qed.

(** A text that [lstrip] leaves alone is empty or starts with a character
    that is no blank. *)
Lemma lstrip_fixed a t : Text.lstrip (String a t) = String a t → Text.is_space a = false.
Proof.
  cbn. destruct (Text.is_space a); [|done]. intros H.
  pose proof (lstrip_length t) as Hl. rewrite H in Hl. cbn in Hl. lia.
Qed.

Lemma rstrip_idemp s : Text.rstrip (Text.rstrip s) = Text.rstrip s.
Proof.
  induction s as [|a t IH]; [done|]. cbn.
  destruct (Text.rstrip t) as [|b u] eqn:Ht.
  - destruct (Text.is_space a) eqn:Ha; [done|]. cbn. by rewrite Ha.
  - change (Text.rstrip (String a (String b u)))
      with (match Text.rstrip (String b u) with
            | EmptyString => if Text.is_space a then EmptyString else String a EmptyString
            | t' => String a t'
            end).
    by rewrite IH.
Qed.

Lemma rstrip_head a t :
  Text.is_space a = false → ∃ u, Text.rstrip (String a t) = String a u.
Proof. intros Ha. cbn. rewrite Ha. destruct (Text.rstrip t); eauto. Qed.

Lemma lstrip_rstrip s :
  Text.lstrip s = s → Text.lstrip (Text.rstrip s) = Text.rstrip s.
Proof.
  destruct s as [|a t]; [done|]. intros Ha%lstrip_fixed.
  destruct (rstrip_head a t Ha) as [u ->]. cbn. by rewrite Ha.
Qed.

Lemma strip_idemp s : Text.strip (Text.strip s) = Text.strip s.
Proof.
  unfold Text.strip. rewrite lstrip_rstrip by apply lstrip_idemp. apply rstrip_idemp.
Qed.

Lemma strip_fixed s : Text.strip s = s → Text.lstrip s = s ∧ Text.rstrip s = s.
Proof.
  unfold Text.strip. intros H.
  assert (Text.lstrip s = s) as Hl.
  { rewrite <- H at 1. rewrite lstrip_rstrip by apply lstrip_idemp. done. }
  split; [done|]. by rewrite Hl in H.
Qed.

Lemma is_space_lower a : Text.is_space (Text.lower_char a) = Text.is_space a.
Proof. by destruct a as [[] [] [] [] [] [] [] []]. Qed.

Lemma lower_char_idemp a : Text.lower_char (Text.lower_char a) = Text.lower_char a.
Proof. by destruct a as [[] [] [] [] [] [] [] []]. Qed.

Lemma lower_idemp s : Text.lower (Text.lower s) = Text.lower s.
Proof. induction s as [|a t IH]; [done|]. cbn. by rewrite lower_char_idemp, IH. Qed.

Lemma lstrip_lower s : Text.lstrip (Text.lower s) = Text.lower (Text.lstrip s).
Proof.
  induction s as [|a t IH]; [done|]. cbn. rewrite is_space_lower.
  by destruct (Text.is_space a).
Qed.

Lemma rstrip_lower s : Text.rstrip (Text.lower s) = Text.lower (Text.rstrip s).
Proof.
  induction s as [|a t IH]; [done|]. cbn. rewrite IH, is_space_lower.
  destruct (Text.rstrip t); cbn; [|done]. by destruct (Text.is_space a).
Qed.

Lemma strip_lower s : Text.strip (Text.lower s) = Text.lower (Text.strip s).
Proof. unfold Text.strip. by rewrite lstrip_lower, rstrip_lower. Qed.

Lemma replace_space_idemp s :
  DataScrubber.replace_space (DataScrubber.replace_space s) = DataScrubber.replace_space s.
Proof.
  induction s as [|a t IH]; [done|]. cbn. rewrite IH. f_equal.
  by destruct (Ascii.eqb a " ") eqn:Ha; [|rewrite Ha].
Qed.

Lemma lower_replace_space s :
  Text.lower (DataScrubber.replace_space s) = DataScrubber.replace_space (Text.lower s).
Proof.
  induction s as [|a t IH]; [done|]. cbn. rewrite IH. f_equal.
  by destruct a as [[] [] [] [] [] [] [] []].
Qed.

Lemma replace_not_space a :
  Text.is_space a = false → (if Ascii.eqb a " " then "_"%char else a) = a.
Proof. by destruct a as [[] [] [] [] [] [] [] []]. Qed.

Lemma is_space_replace a :
  Text.is_space a = false →
  Text.is_space (if Ascii.eqb a " " then "_"%char else a) = false.
Proof. intros Ha. by rewrite replace_not_space. Qed.

Lemma lstrip_replace_space s :
  Text.lstrip s = s →
  Text.lstrip (DataScrubber.replace_space s) = DataScrubber.replace_space s.
Proof.
  destruct s as [|a t]; [done|]. intros Ha%lstrip_fixed. cbn.
  by rewrite is_space_replace.
Qed.

Lemma replace_space_empty s : DataScrubber.replace_space s = EmptyString → s = EmptyString.
Proof. by destruct s. Qed.

Lemma rstrip_replace_space s :
  Text.rstrip s = s →
  Text.rstrip (DataScrubber.replace_space s) = DataScrubber.replace_space s.
Proof.
  induction s as [|a t IH]; [done|]. cbn.
  destruct (Text.rstrip t) as [|b u] eqn:Ht.
  - destruct (Text.is_space a) eqn:Ha; [done|]. intros [= <-]. cbn.
    by rewrite is_space_replace.
  - intros [= <-]. rewrite IH by done. cbn. done.
Qed.

Lemma strip_replace_space s :
  Text.strip s = s →
  Text.strip (DataScrubber.replace_space s) = DataScrubber.replace_space s.
Proof.
  intros [Hl Hr]%strip_fixed. unfold Text.strip.
  by rewrite lstrip_replace_space, rstrip_replace_space.
Qed.

(** A standardized label is trimmed, in lower case and without blanks. *)
Lemma standardized_label h :
  let l := DataScrubber.replace_space (Text.lower (Text.strip h)) in
  Text.strip l = l ∧ Text.lower l = l ∧ DataScrubber.replace_space l = l.
Proof.
  cbv zeta. split_and!.
  - apply strip_replace_space. by rewrite strip_lower, strip_idemp.
  - by rewrite lower_replace_space, lower_idemp.
  - apply replace_space_idemp.
Qed.

End TextFacts.

Section ScrubberClaims.
Context `{F : Float64}.
Implicit Types (df : DataFrame).

(** X19: [standardize_column_names] leaves the rows alone and makes every
    label trimmed, lower-case and free of blanks; a second call, and the header
    normalisation of [norm_customers] and [norm_sales], change nothing any
    more, so that [norm_products], which does not normalise, sees the header it
    would see if it did. *)
Theorem standardize_column_names_is_canonical df :
  rows (DataScrubber.standardize_column_names df) = rows df ∧
  (∀ h, h ∈ columns (DataScrubber.standardize_column_names df) →
        Text.strip h = h ∧ Text.lower h = h ∧ DataScrubber.replace_space h = h) ∧
  DataScrubber.standardize_column_names (DataScrubber.standardize_column_names df)
  = DataScrubber.standardize_column_names df ∧
  normalize_headers (DataScrubber.standardize_column_names df)
  = DataScrubber.standardize_column_names df ∧
  norm_products (normalize_headers (DataScrubber.standardize_column_names df))
  = norm_products (DataScrubber.standardize_column_names df).
Proof.
  assert (∀ h, h ∈ columns (DataScrubber.standardize_column_names df) →
            Text.strip h = h ∧ Text.lower h = h ∧ DataScrubber.replace_space h = h) as Hlab.
  { cbn [DataScrubber.standardize_column_names columns].
    intros h (h0 & -> & _)%list_elem_of_fmap. apply standardized_label. }
  assert (normalize_headers (DataScrubber.standardize_column_names df)
          = DataScrubber.standardize_column_names df) as Hnorm.
  { unfold normalize_headers, DataScrubber.standardize_column_names. cbn [columns rows].
    f_equal. rewrite <- list_fmap_compose. apply list_fmap_ext. intros i h _. unfold compose.
    destruct (standardized_label h) as (-> & -> & _). done. }
  split_and!; [done|done| |done|by rewrite Hnorm].
  unfold DataScrubber.standardize_column_names. cbn [columns rows]. f_equal.
  rewrite <- list_fmap_compose. apply list_fmap_ext. intros i h _. unfold compose.
  destruct (standardized_label h) as (-> & -> & ->). done.
Qed.

Lemma keep_first_fixed {A K} `{EqDecision K} (key : A → K) seen (xs : list A) :
  NoDup (key <$> xs) → (∀ x, x ∈ xs → key x ∉ seen) → keep_first key seen xs = xs.
Proof.
  revert seen. induction xs as [|x xs IH]; intros seen Hnd Hseen; [done|].
  cbn. apply NoDup_cons in Hnd as [Hx Hnd].
  rewrite decide_False by (apply Hseen; by left). f_equal. apply IH; [done|].
  intros y Hy. rewrite not_elem_of_cons. split; [|apply Hseen; by right].
  intros Heq. apply Hx. rewrite <- Heq. by apply list_elem_of_fmap_2.
Qed.

Lemma keep_first_idemp {A K} `{EqDecision K} (key : A → K) (xs : list A) :
  keep_first key [] (keep_first key [] xs) = keep_first key [] xs.
Proof.
  apply keep_first_fixed; [apply keep_first_keys|]. intros x _. apply not_elem_of_nil.
Qed.

Lemma keep_first_filter {A K} `{EqDecision K} (key : A → K) (P : A → Prop) (Q : K → Prop)
    `{∀ x, Decision (P x)} (xs : list A) : ∀ seen seen',
  (∀ x, P x ↔ Q (key x)) →
  (∀ k, Q k → (k ∈ seen ↔ k ∈ seen')) →
  keep_first key seen (filter P xs) = filter P (keep_first key seen' xs).
Proof.
  induction xs as [|x xs IH]; intros seen seen' HPQ Hseen; [done|].
  rewrite filter_cons. cbn [keep_first]. destruct (decide (P x)) as [HP|HP].
  - cbn [keep_first]. pose proof (Hseen (key x) (proj1 (HPQ x) HP)) as Hx.
    destruct (decide (key x ∈ seen)) as [Hin|Hin].
    + rewrite decide_True by tauto. by apply IH.
    + rewrite decide_False by tauto. rewrite filter_cons, decide_True by done.
      f_equal. apply IH; [done|]. intros k Hk. rewrite !elem_of_cons. specialize (Hseen k Hk).
      tauto.
  - destruct (decide (key x ∈ seen')) as [Hin|Hin]; [by apply IH|].
    rewrite filter_cons, decide_False by done. apply IH; [done|].
    intros k Hk. rewrite elem_of_cons. specialize (Hseen k Hk).
    assert (k ≠ key x) by (intros ->; apply HP, HPQ, Hk). tauto.
Qed.

(** X20: dropping the empty rows and then the duplicates keeps the columns
    and a sub-sequence of the rows, in which no row is empty and, when there is
    a column, no two rows hold the same cells; doing the two steps in the other
    order gives the same frame, and doing them again changes nothing. *)
Theorem scrubber_cleanup_is_idempotent df :
  let out := DataScrubber.drop_duplicates (DataScrubber.drop_empty_rows df) in
  columns out = columns df ∧
  rows out `sublist_of` rows df ∧
  Forall (λ r : Z * list cell, ¬ Forall (λ c, isna c = true) r.2) (rows out) ∧
  (columns df ≠ [] → NoDup (rows out).*2) ∧
  DataScrubber.drop_empty_rows (DataScrubber.drop_duplicates df) = out ∧
  DataScrubber.drop_duplicates (DataScrubber.drop_empty_rows out) = out.
Proof.
  cbv zeta. unfold DataScrubber.drop_duplicates, DataScrubber.drop_empty_rows.
  destruct df as [cols rs]. cbn [columns rows].
  set (P := λ r : Z * list cell, ¬ Forall (λ c, isna c = true) r.2).
  destruct (decide (cols = [])) as [Hc|Hc].
  { rewrite !decide_True by (by left). cbn [columns rows].
    split_and!; [done|apply sublist_filter| |done|done|].
    - apply Forall_forall. by intros r [? _]%list_elem_of_filter.
    - by rewrite list_filter_filter_l by done. }
  destruct (decide (rs = [])) as [Hr|Hr].
  { subst rs. cbn. rewrite !decide_True by (by right). cbn. split_and!; try done.
    intros _. constructor. }
  rewrite (decide_False (P := cols = [] ∨ rs = [])) by tauto.
  assert (filter P (keep_first (λ r : Z * list cell, r.2) [] rs)
          = keep_first (λ r : Z * list cell, r.2) [] (filter P rs)) as Hcomm.
  { symmetry. apply (keep_first_filter _ P (λ cs, ¬ Forall (λ c, isna c = true) cs)); done. }
  destruct (decide (filter P rs = [])) as [Hf|Hf].
  { rewrite !decide_True by (by right). cbn [columns rows].
    rewrite Hcomm, Hf. cbn. rewrite decide_True by (by right). split_and!; try done.
    - apply sublist_nil_l.
    - intros _. constructor. }
  rewrite (decide_False (P := cols = [] ∨ filter P rs = [])) by tauto.
  cbn [columns rows]. rewrite Hcomm.
  assert (Forall P (keep_first (λ r : Z * list cell, r.2) [] (filter P rs))) as HP.
  { apply Forall_forall. intros r Hr'.
    eapply elem_of_sublist in Hr'; [|apply keep_first_sublist].
    by apply list_elem_of_filter in Hr' as [? _]. }
  assert (filter P (keep_first (λ r : Z * list cell, r.2) [] (filter P rs))
          = keep_first (λ r : Z * list cell, r.2) [] (filter P rs)) as Hfix.
  { clear -HP. induction HP as [|x xs Hx _ IH]; [done|].
    by rewrite filter_cons, decide_True, IH. }
  split_and!; try done.
  - etrans; [apply keep_first_sublist|apply sublist_filter].
  - intros _. apply (keep_first_keys (λ r : Z * list cell, r.2)).
  - rewrite Hfix.
    destruct (decide (cols = [] ∨ _ = [])) as [[?|Hk]|_]; [done| |].
    + by rewrite Hk.
    + cbn [columns rows]. by rewrite keep_first_idemp.
Qed.

End ScrubberClaims.

(** ** The further properties, on the example tables *)



Lemma run_completes_when_witness :
  unreferenced ∅ ∧ ∃ fc, example_files !! "customers_clean.csv" = Some fc.
Proof.
  assert (unreferenced ∅) as Hd by (intros name t Ht; by rewrite lookup_empty in Ht).
  split; [exact Hd|].
  assert ((run true example_files ∅).1 = Ok ()) as Hrun by (vm_compute; reflexivity).
  destruct (proj2 (run_completes_when true example_files ∅ Hd) Hrun)
    as (fc & fp & fl & Hfc & _).
  exists fc. exact Hfc.
Defined.


Lemma norm_sales_returns_iff_witness :
  forallb (λ r : Z * list cell,
             in_int64 (to_numeric (value_of (sales_header (read_csv example_sales)) r.2
                                     "sales_id")))
    (rows (read_csv example_sales)) = true ∧
  "sale_date" ∈ sales_header (read_csv example_sales).
Proof.
  assert (forallb (λ r : Z * list cell,
                     in_int64 (to_numeric (value_of (sales_header (read_csv example_sales))
                                             r.2 "sales_id")))
            (rows (read_csv example_sales)) = true) as Hids by (vm_compute; reflexivity).
  split; [exact Hids|].
  refine (proj1 (proj1 (norm_sales_returns_iff (read_csv example_sales) Hids) _)).
  vm_compute. reflexivity.
Defined.

Lemma delete_existing_records_empties_witness :
  pragma_foreign_keys (mkState ∅ None false) = false ∧
  delete_existing_records (mkState ∅ None false)
  = (Raise (OperationalError "sales"), mkState ∅ None false,
     [(INFO, "Deleting all rows from sales")]).
Proof.
  split; [reflexivity|].
  exact (proj1 (proj2 (delete_existing_records_empties (mkState ∅ None false) eq_refl))
           (lookup_empty _)).
Defined.

Lemma norm_sales_rows_are_typed_witness :
  norm_sales (read_csv example_sales) = Ok example_frame ∧
  value_of (columns example_frame)
    [IntCell 2; IntCell 3; IntCell 1; IntCell 2; StrCell "2024-01-02"; IntCell 7; IntCell 1]
    "sales_id" = IntCell (1 + 1).
Proof.
  assert (norm_sales (read_csv example_sales) = Ok example_frame) as Hout by reflexivity.
  split; [exact Hout|].
  refine (proj1 (norm_sales_rows_are_typed (read_csv example_sales) example_frame
                   (1, [IntCell 2; IntCell 3; IntCell 1; IntCell 2; StrCell "2024-01-02";
                        IntCell 7; IntCell 1]) Hout _)).
  apply list_elem_of_further, list_elem_of_here.
Defined.

Lemma sale_ids_follow_the_file_witness :
  norm_sales (read_csv example_sales) = Ok example_frame ∧
  column "sales_id" example_frame
  = (λ i, IntCell (i + 1)) <$> (rows example_frame).*1.
Proof.
  assert (norm_sales (read_csv example_sales) = Ok example_frame) as Hout by reflexivity.
  split; [exact Hout|].
  exact (proj1 (proj2 (sale_ids_follow_the_file example_sales example_frame Hout))).
Defined.

Lemma print_table_row_counts_reports_witness :
  Forall (λ name, name ∈ pipeline_tables) ["sales"; "customer"] ∧
  print_table_row_counts ["sales"; "customer"] (mkState example_store None true)
  = (Ok (), mkState example_store None true,
     [(INFO, "Table row counts:"); (INFO, "sales: 0"); (INFO, "customer: 2")]).
Proof.
  assert (Forall (λ name, name ∈ pipeline_tables) ["sales"; "customer"]) as Hnames
    by compute_done.
  split; [exact Hnames|].
  refine (eq_trans
            (proj1 (proj2 (print_table_row_counts_reports ["sales"; "customer"]
                             (mkState example_store None true) Hnames)) _) _).
  - compute_done.
  - reflexivity.
Defined.

Lemma date_dimension_rows_are_consistent_witness :
  generate_date_dimension "2024-02-29" "2024-02-29"
  = Ok (mkDF date_columns [date_row (Calendar.mkDate 2024 2 29)]) ∧
  ∃ y m dd w,
    value_of date_columns (date_row (Calendar.mkDate 2024 2 29)).2 "date_id"
    = IntCell (y * 10000 + m * 100 + dd) ∧
    value_of date_columns (date_row (Calendar.mkDate 2024 2 29)).2 "week" = IntCell w ∧
    1 ≤ dd ≤ Calendar.days_in_month y m ∧ 1 ≤ w ≤ 53.
Proof.
  assert (generate_date_dimension "2024-02-29" "2024-02-29"
          = Ok (mkDF date_columns [date_row (Calendar.mkDate 2024 2 29)])) as Hdf
    by reflexivity.
  split; [exact Hdf|].
  destruct (date_dimension_rows_are_consistent "2024-02-29" "2024-02-29" _
              (date_row (Calendar.mkDate 2024 2 29)) Hdf)
    as (y & m & dd & w & _ & _ & _ & Hw & Hid & _ & _ & _ & _ & Hdd & Hweek).
  { vm_compute. left. }
  exists y, m, dd, w. split_and!; [exact Hid|exact Hw|exact (proj1 Hdd)|exact (proj2 Hdd)|
                                    exact (proj1 Hweek)|exact (proj2 Hweek)].
Defined.

Lemma generate_date_dimension_reads_iso_dates_witness :
  isoformat (Calendar.mkDate 2024 2 28) = "2024-02-28" ∧
  generate_date_dimension "2024-02-28" "2024-03-01"
  = Ok (mkDF date_columns (date_row <$> Calendar.days_from 3 (Calendar.mkDate 2024 2 28))).
Proof.
  split; [reflexivity|].
  exact (proj1 (proj2 (proj2
    (generate_date_dimension_reads_iso_dates (Calendar.mkDate 2024 2 28)
       (Calendar.mkDate 2024 3 1) eq_refl eq_refl eq_refl eq_refl)))).
Defined.

Lemma dimension_loads_are_all_or_nothing_witness :
  ∃ e, outcome (insert_customers
                  (mkDF customer_columns [(0, [IntCell 1; StrCell "Budget"])])
                  (mkState example_store None true))
       = (Raise e, mkState example_store None true).
Proof.
  refine (proj2 (dimension_loads_are_all_or_nothing "customer" insert_customers
                   (mkDF customer_columns [(0, [IntCell 1; StrCell "Budget"])])
                   example_store true
                   (mkTable customer_columns (Some "customer_segmentid") [] []
                      (<[1 := [IntCell 1; StrCell "Budget"]]>
                         (<[2 := [IntCell 2; StrCell "Premium"]]> ∅))) _ _ _)
            "customer_segmentid" (0, [IntCell 1; StrCell "Budget"]) 1 _ _ _ _).
  - right. left.
  - reflexivity.
  - repeat constructor.
  - reflexivity.
  - left.
  - reflexivity.
  - vm_compute. eauto.
Defined.
